(** * The two-tier response cache of the Ayira backend

    A shallow embedding of the cache module [src/middleware/cache.js] (the
    memory tier kept in a [NodeCache], the distributed tier kept behind a
    Redis client, the response-cache middleware and the facade functions),
    of the performance route and the error handlers of [src/app.js], and of
    the start-up sequence of [server.js] with [connectDB] of
    [src/config/database.js] and the wrapper class of [src/config/redis.js].

    Around the cache the development follows its callers and neighbours:
    the cache-clear and health routes of [src/app.js], the shutdown
    listeners of [server.js], [testConnection] of the database module, the
    methods of the Redis wrapper class, the middlewares of
    [src/middleware/auth.js] with the permission functions of the user
    model, the file filters of [src/middleware/upload.js], and the cached
    reads of [src/controllers/product.controller.js].

    JavaScript values are a small inductive type, the two stores are finite
    maps, time is the millisecond clock [Date.now()], and every function that
    can throw lives in a state-and-exception monad over the [World].  What
    lies outside the sources (the token check, the database queries, the
    response envelope of [ApiResponse]) is a variable of the section that
    uses it.

    The two stores are libraries: [NodeCache] follows node-cache (a [set] on
    a cache that holds [maxKeys] keys throws ECACHEFULL, [get] drops an
    expired entry, a TTL of 0 means no expiry), and the Redis commands follow
    the server's documentation (GET, SETEX, KEYS with glob patterns, DEL,
    FLUSHDB). *)

From Stdlib Require Import ZArith String Ascii List Bool Lia.
From stdpp Require Import base option gmap strings list fin_maps.

#[local] Set Warnings "-register-all".

Local Open Scope string_scope.
Local Open Scope Z_scope.

(** ** JavaScript values *)

(** The payloads that the cache stores.  Numbers are integers.  [JStatsRef]
    is a reference to the live [stats] object of the memory tier: the cache
    is created with [useClones: false], so a payload that embeds the result
    of [getStats()] shares that object with the cache. *)
Inductive jsval : Type :=
| JNull
| JBool (b : bool)
| JNum (n : Z)
| JStr (s : string)
| JArr (xs : list jsval)
| JObj (fields : list (string * jsval))
| JStatsRef
| JUndefined.

(** The test that [if (x)] performs. *)
Definition truthy (x : jsval) : bool :=
  match x with
  | JUndefined | JNull => false
  | JBool b => b
  | JNum n => negb (n =? 0)
  | JStr s => negb (String.eqb s EmptyString)
  | JArr _ | JObj _ | JStatsRef => true
  end.

(** ** Errors and the monad *)

Inductive error : Type :=
| ECACHEFULL            (* node-cache: "Cache max keys amount exceeded" *)
| SyntaxError           (* JSON.parse on text that is not JSON *)
| ReplyError            (* the Redis server rejected the command *)
| ClientClosedError     (* a command issued on a closed client *)
| TypeError             (* a command argument that is not text *)
| TooManyRetries        (* the Error built by reconnectStrategy *)
| MongoError            (* the database could not be reached *)
| RetryBudgetSpent      (* the model's retry counter ran out; see
                           [connect_never_spends_budget] *)
| MODULE_NOT_FOUND.     (* require() of a path that names no module *)

(** How a call ends: with a value, with an exception, or with the whole
    process gone ([process.exit]). *)
Inductive outcome (A : Type) : Type :=
| Ok (a : A)
| Throw (e : error)
| Exit (code : Z).
Arguments Ok {A} a.
Arguments Throw {A} e.
Arguments Exit {A} code.

(** ** The memory tier: node-cache *)

Record Stats : Type := mkStats
  { hits : Z; misses : Z; keys : Z; ksize : Z; vsize : Z }.

Record Options : Type := mkOptions
  { stdTTL : Z; checkperiod : Z; useClones : bool; maxKeys : Z }.

(** A wrapped value: [t] is the expiry instant in milliseconds, [0] for an
    entry that never expires. *)
Record Entry : Type := mkEntry { t : Z; v : jsval }.

Record NodeCache : Type := mkNodeCache
  { options : Options; data : gmap string Entry; stats : Stats }.

Definition zeroStats : Stats := mkStats 0 0 0 0 0.

(** [new NodeCache({ stdTTL: 300, checkperiod: 60, useClones: false,
    maxKeys: 5000 })] *)
Definition memoryCacheOptions : Options := mkOptions 300 60 false 5000.

Definition newNodeCache (o : Options) : NodeCache := mkNodeCache o ∅ zeroStats.

Definition _getKeyLength (key : string) : Z := Z.of_nat (String.length key).

(** The size estimate of a value (objectValueSize 80, arrayValueSize 40). *)
Definition _getValLength (value : jsval) : Z :=
  match value with
  | JStr s => Z.of_nat (String.length s)
  | JArr xs => 40 * Z.of_nat (List.length xs)
  | JNum _ => 8
  | JObj fields => 80 * Z.of_nat (List.length fields)
  | JStatsRef => 80 * 5
  | JBool _ => 8
  | JNull | JUndefined => 0
  end.

Definition _wrap (now : Z) (value : jsval) (ttl : Z) : Entry :=
  if ttl =? 0 then mkEntry 0 value else mkEntry (now + ttl * 1000) value.

(** One key of [del]: only an existing key is removed and counted. *)
Definition nc_del1 (key : string) (c : NodeCache) : nat * NodeCache :=
  match data c !! key with
  | Some e =>
      (1%nat,
       mkNodeCache (options c) (delete key (data c))
         (mkStats (hits (stats c)) (misses (stats c)) (keys (stats c) - 1)
                  (ksize (stats c) - _getKeyLength key)
                  (vsize (stats c) - _getValLength (v e))))
  | None => (0%nat, c)
  end.

(** [del(keys)]: the number of keys removed, and the cache afterwards. *)
Fixpoint nc_del (ks : list string) (c : NodeCache) : nat * NodeCache :=
  match ks with
  | [] => (0%nat, c)
  | key :: rest =>
      let '(n, c1) := nc_del1 key c in
      let '(m, c2) := nc_del rest c1 in
      ((n + m)%nat, c2)
  end.

(** [_check]: an entry whose expiry instant is set and past is deleted
    (deleteOnExpire is on by default). *)
Definition _check (now : Z) (key : string) (e : Entry) (c : NodeCache)
  : bool * NodeCache :=
  if negb (t e =? 0) && (t e <? now) then (false, snd (nc_del1 key c))
  else (true, c).

Definition bumpHits (c : NodeCache) : NodeCache :=
  mkNodeCache (options c) (data c)
    (mkStats (hits (stats c) + 1) (misses (stats c)) (keys (stats c))
             (ksize (stats c)) (vsize (stats c))).

Definition bumpMisses (c : NodeCache) : NodeCache :=
  mkNodeCache (options c) (data c)
    (mkStats (hits (stats c)) (misses (stats c) + 1) (keys (stats c))
             (ksize (stats c)) (vsize (stats c))).

(** [get(key)]: the stored value of a live entry, [undefined] otherwise. *)
Definition nc_get (now : Z) (key : string) (c : NodeCache)
  : jsval * NodeCache :=
  match data c !! key with
  | Some e =>
      let '(live, c1) := _check now key e c in
      if live then (v e, bumpHits c1) else (JUndefined, bumpMisses c1)
  | None => (JUndefined, bumpMisses c)
  end.

(** [set(key, value, ttl)].  The capacity test comes first and looks at the
    key counter only, so a full cache rejects every write, also one to a key
    it already holds. *)
Definition nc_set (now : Z) (key : string) (value : jsval) (ttl : Z)
    (c : NodeCache) : outcome NodeCache :=
  if (-1 <? maxKeys (options c)) && (maxKeys (options c) <=? keys (stats c))
  then Throw ECACHEFULL
  else
    let existent := data c !! key in
    let vs0 := match existent with
               | Some e => vsize (stats c) - _getValLength (v e)
               | None => vsize (stats c)
               end in
    let vs1 := vs0 + _getValLength value in
    let '(ks1, n1) := match existent with
                      | Some _ => (ksize (stats c), keys (stats c))
                      | None => (ksize (stats c) + _getKeyLength key,
                                 keys (stats c) + 1)
                      end in
    Ok (mkNodeCache (options c) (<[key := _wrap now value ttl]> (data c))
          (mkStats (hits (stats c)) (misses (stats c)) n1 ks1 vs1)).

(** [keys()]: every key of [data], expired or not. *)
Definition nc_keys (c : NodeCache) : list string := (map_to_list (data c)).*1.

(** [flushAll()]: a fresh store and fresh counters. *)
Definition nc_flushAll (c : NodeCache) : NodeCache :=
  mkNodeCache (options c) ∅ zeroStats.

(** The counters of [getStats()] as they serialise. *)
Definition statsJson (s : Stats) : jsval :=
  JObj [("hits", JNum (hits s)); ("misses", JNum (misses s));
        ("keys", JNum (keys s)); ("ksize", JNum (ksize s));
        ("vsize", JNum (vsize s))].

(** What [JSON.stringify] writes for a value: the reference to the live
    counters is read at that moment, an [undefined] array element becomes
    [null] and an [undefined] field is left out. *)
Fixpoint written (s : Stats) (x : jsval) : jsval :=
  match x with
  | JArr xs =>
      JArr (List.map (fun y => match written s y with
                               | JUndefined => JNull
                               | y' => y'
                               end) xs)
  | JObj fields =>
      JObj (List.flat_map (fun p => match written s (snd p) with
                                    | JUndefined => []
                                    | y' => [(fst p, y')]
                                    end) fields)
  | JStatsRef => statsJson s
  | other => other
  end.

(** ** Strings: [includes] and the glob patterns of KEYS *)

(** [s.startsWith(p)] *)
Fixpoint startsWith (s p : string) : bool :=
  match p, s with
  | EmptyString, _ => true
  | String a p', String b s' => Ascii.eqb a b && startsWith s' p'
  | String _ _, EmptyString => false
  end.

(** [s.includes(p)]: [p] occurs in [s] at some position. *)
Fixpoint includes (s p : string) : bool :=
  startsWith s p
  || match s with
     | EmptyString => false
     | String _ s' => includes s' p
     end.

(** The characters that a glob pattern reads as operators. *)
Definition isGlobMeta (c : ascii) : bool :=
  Ascii.eqb c "*" || Ascii.eqb c "?" || Ascii.eqb c "[" || Ascii.eqb c "\".

Fixpoint globFree (p : string) : bool :=
  match p with
  | EmptyString => true
  | String c p' => negb (isGlobMeta c) && globFree p'
  end.

(** The glob language of the KEYS command, as the Redis documentation gives
    it: [*] any run of characters, [?] any one character, [[a-c]] and
    [[^x]] character classes, [\] to quote the next character. *)
Inductive gtok : Type :=
| GStar
| GAny
| GLit (c : ascii)
| GClass (neg : bool) (ranges : list (ascii * ascii)).

Definition mkRange (a b : ascii) : ascii * ascii :=
  if (nat_of_ascii b <? nat_of_ascii a)%nat then (b, a) else (a, b).

(** One pass over the pattern; [cls] holds the class being read, if any. *)
Fixpoint globParse (cls : option (bool * list (ascii * ascii))) (p : string)
  : list gtok :=
  match cls with
  | None =>
      match p with
      | EmptyString => []
      | String c r =>
          if Ascii.eqb c "*" then GStar :: globParse None r
          else if Ascii.eqb c "?" then GAny :: globParse None r
          else if Ascii.eqb c "[" then
            match r with
            | String d r' =>
                if Ascii.eqb d "^" then globParse (Some (true, [])) r'
                else globParse (Some (false, [])) r
            | EmptyString => globParse (Some (false, [])) r
            end
          else if Ascii.eqb c "\" then
            match r with
            | String d r' => GLit d :: globParse None r'
            | EmptyString => [GLit c]
            end
          else GLit c :: globParse None r
      end
  | Some (neg, rs) =>
      match p with
      | EmptyString => [GClass neg rs]
      | String c r =>
          if Ascii.eqb c "]" then GClass neg rs :: globParse None r
          else
            match r with
            | String d r' =>
                if Ascii.eqb c "\" then globParse (Some (neg, (rs ++ [(d, d)])%list)) r'
                else if Ascii.eqb d "-" then
                  match r' with
                  | String e r'' =>
                      globParse (Some (neg, (rs ++ [mkRange c e])%list)) r''
                  | EmptyString => globParse (Some (neg, (rs ++ [(c, c)])%list)) r
                  end
                else globParse (Some (neg, (rs ++ [(c, c)])%list)) r
            | EmptyString => globParse (Some (neg, (rs ++ [(c, c)])%list)) r
            end
      end
  end.

Definition inRange (a : ascii) (r : ascii * ascii) : bool :=
  ((nat_of_ascii (fst r) <=? nat_of_ascii a)
   && (nat_of_ascii a <=? nat_of_ascii (snd r)))%nat.

Fixpoint globToks (ts : list gtok) : string -> bool :=
  match ts with
  | [] => fun s => match s with EmptyString => true | String _ _ => false end
  | GStar :: ts' =>
      fix star (s : string) : bool :=
        globToks ts' s
        || match s with
           | EmptyString => false
           | String _ s' => star s'
           end
  | GAny :: ts' =>
      fun s => match s with
               | EmptyString => false
               | String _ s' => globToks ts' s'
               end
  | GLit c :: ts' =>
      fun s => match s with
               | EmptyString => false
               | String a s' => Ascii.eqb c a && globToks ts' s'
               end
  | GClass neg rs :: ts' =>
      fun s => match s with
               | EmptyString => false
               | String a s' =>
                   xorb neg (existsb (inRange a) rs) && globToks ts' s'
               end
  end.

Definition globMatch (pattern key : string) : bool :=
  globToks (globParse None pattern) key.

(** ** The distributed tier: the Redis client and the keyspace behind it *)

(** The text stored under a key: what [JSON.stringify] made of a value, or
    some other text, which [JSON.parse] rejects. *)
Inductive rtext : Type :=
| Ser (x : jsval)
| Raw (s : string).

Record REntry : Type := mkREntry { payload : rtext; expireAt : Z }.

(** [isOpen] is the client's flag; [reachable] tells whether the server
    accepts connections; [attemptTime k] is the time in ms that the
    connection attempt after [k] retries takes to fail while it does not;
    [server] is the keyspace. *)
Record RedisClient : Type := mkRedisClient
  { isOpen : bool; reachable : bool; attemptTime : Z -> Z;
    server : gmap string REntry }.

(** A key past its expiry instant no longer exists for any command. *)
Definition r_live (now : Z) (m : gmap string REntry) : gmap string REntry :=
  filter (fun kv => now < expireAt (snd kv)) m.

Definition withServer (r : RedisClient) (m : gmap string REntry) : RedisClient :=
  mkRedisClient (isOpen r) (reachable r) (attemptTime r) m.

(** GET *)
Definition r_get (now : Z) (key : string) (r : RedisClient)
  : outcome (option rtext) * RedisClient :=
  if isOpen r then
    let m := r_live now (server r) in
    (Ok (payload <$> m !! key), withServer r m)
  else (Throw ClientClosedError, r).

(** SETEX: the server refuses an expiry that is not positive. *)
Definition r_setEx (now : Z) (key : string) (seconds : Z) (value : rtext)
    (r : RedisClient) : outcome unit * RedisClient :=
  if isOpen r then
    let m := r_live now (server r) in
    if seconds <=? 0 then (Throw ReplyError, withServer r m)
    else (Ok tt, withServer r (<[key := mkREntry value (now + seconds * 1000)]> m))
  else (Throw ClientClosedError, r).

(** KEYS pattern *)
Definition r_keys (now : Z) (pattern : string) (r : RedisClient)
  : outcome (list string) * RedisClient :=
  if isOpen r then
    let m := r_live now (server r) in
    (Ok (List.filter (globMatch pattern) (map_to_list m).*1), withServer r m)
  else (Throw ClientClosedError, r).

Fixpoint deleteAll (ks : list string) (m : gmap string REntry)
  : nat * gmap string REntry :=
  match ks with
  | [] => (0%nat, m)
  | key :: rest =>
      let '(n, m') := deleteAll rest (delete key m) in
      ((match m !! key with Some _ => 1 | None => 0 end) + n, m')%nat
  end.

(** DEL key [key ...] *)
Definition r_del (now : Z) (ks : list string) (r : RedisClient)
  : outcome nat * RedisClient :=
  if isOpen r then
    let '(n, m) := deleteAll ks (r_live now (server r)) in
    (Ok n, withServer r m)
  else (Throw ClientClosedError, r).

(** FLUSHDB *)
Definition r_flushDb (r : RedisClient) : outcome unit * RedisClient :=
  if isOpen r then (Ok tt, withServer r ∅) else (Throw ClientClosedError, r).

(** [JSON.parse]; [null] reads as the text of [null]. *)
Definition JSON_parse (s : option rtext) : outcome jsval :=
  match s with
  | Some (Ser x) => Ok x
  | Some (Raw _) => Throw SyntaxError
  | None => Ok JNull
  end.

(** The truth value of a reply of GET: [null] and the empty text are falsy. *)
Definition truthyText (s : option rtext) : bool :=
  match s with
  | None => false
  | Some (Ser _) => true
  | Some (Raw raw) => negb (String.eqb raw EmptyString)
  end.

(** ** The world and the monad of the request path *)

Inductive LogMsg : Type :=
| MemoryCacheHit (key : string)
| RedisCacheHit (key : string)
| CacheSetMsg (key : string) (ttl : Z)
| RedisSetError (e : error)
| CacheMiddlewareError (e : error)
| ClearedCachePattern (pattern : string) (count : nat)
| ClearCacheError (e : error)
| AllCacheCleared
| ClearAllCacheError (e : error)
| SetCacheError (e : error)
| GetCacheError (e : error)
| RedisConnected
| DatabaseConnected
| FailedToStartServer (e : error)
| FailedToConnectRedis (e : error)
| TooManyRetriesMsg
| GlobalError (e : error).

Inductive Event : Type :=
| LogDebug (m : LogMsg)
| LogInfo (m : LogMsg)
| LogError (m : LogMsg)
| HandlerRan
| Sent (status : Z) (body : jsval)
| Listening.

(** The process-wide state: the clock, the two singletons of the cache
    module, whether the database answers, and what the process has logged
    and sent so far (newest last). *)
Record World : Type := mkWorld
  { now : Z;
    memoryCache : NodeCache;
    redisClient : RedisClient;
    dbReachable : bool;
    trace : list Event }.

Definition withMemory (w : World) (c : NodeCache) : World :=
  mkWorld (now w) c (redisClient w) (dbReachable w) (trace w).

Definition withRedis (w : World) (r : RedisClient) : World :=
  mkWorld (now w) (memoryCache w) r (dbReachable w) (trace w).

Definition withNow (w : World) (n : Z) : World :=
  mkWorld n (memoryCache w) (redisClient w) (dbReachable w) (trace w).

Definition emit (ev : Event) (w : World) : World :=
  mkWorld (now w) (memoryCache w) (redisClient w) (dbReachable w)
          (trace w ++ [ev])%list.

Definition M (A : Type) : Type := World -> outcome A * World.

Definition ret {A} (a : A) : M A := fun w => (Ok a, w).

Definition bind {A B} (c : M A) (k : A -> M B) : M B :=
  fun w => match c w with
           | (Ok a, w') => k a w'
           | (Throw e, w') => (Throw e, w')
           | (Exit code, w') => (Exit code, w')
           end.

Definition throw {A} (e : error) : M A := fun w => (Throw e, w).

(** [process.exit(code)] *)
Definition process_exit {A} (code : Z) : M A := fun w => (Exit code, w).

(** [try { c } catch (e) { h e }]: what [c] did before it threw stays done. *)
Definition tryCatch {A} (c : M A) (h : error -> M A) : M A :=
  fun w => match c w with
           | (Throw e, w') => h e w'
           | other => other
           end.

Notation "x <- c ;; k" := (bind c (fun x => k))
  (at level 62, c at next level, right associativity).
Notation "c ;;; k" := (bind c (fun _ => k))
  (at level 62, right associativity).

Definition logger_debug (m : LogMsg) : M unit := fun w => (Ok tt, emit (LogDebug m) w).
Definition logger_info (m : LogMsg) : M unit := fun w => (Ok tt, emit (LogInfo m) w).
Definition logger_error (m : LogMsg) : M unit := fun w => (Ok tt, emit (LogError m) w).

(** The calls on the two singletons. *)
Definition memoryCache_get (key : string) : M jsval :=
  fun w => let '(r, c) := nc_get (now w) key (memoryCache w) in
           (Ok r, withMemory w c).

Definition memoryCache_set (key : string) (value : jsval) (ttl : Z) : M unit :=
  fun w => match nc_set (now w) key value ttl (memoryCache w) with
           | Ok c => (Ok tt, withMemory w c)
           | Throw e => (Throw e, w)
           | Exit code => (Exit code, w)
           end.

Definition memoryCache_keys : M (list string) :=
  fun w => (Ok (nc_keys (memoryCache w)), w).

Definition memoryCache_del (ks : list string) : M nat :=
  fun w => let '(n, c) := nc_del ks (memoryCache w) in (Ok n, withMemory w c).

Definition memoryCache_flushAll : M unit :=
  fun w => (Ok tt, withMemory w (nc_flushAll (memoryCache w))).

Definition redisClient_isOpen : M bool :=
  fun w => (Ok (isOpen (redisClient w)), w).

Definition liftRedis {A} (op : Z -> RedisClient -> outcome A * RedisClient) : M A :=
  fun w => let '(r, c) := op (now w) (redisClient w) in (r, withRedis w c).

Definition redisClient_get (key : string) : M (option rtext) :=
  liftRedis (fun n => r_get n key).

Definition redisClient_setEx (key : string) (seconds : Z) (value : option rtext)
  : M unit :=
  match value with
  | Some text => liftRedis (fun n => r_setEx n key seconds text)
  | None => throw TypeError
  end.

Definition redisClient_keys (pattern : string) : M (list string) :=
  liftRedis (fun n => r_keys n pattern).

Definition redisClient_del (ks : list string) : M nat :=
  liftRedis (fun n => r_del n ks).

Definition redisClient_flushDb : M unit :=
  liftRedis (fun _ => r_flushDb).

(** [JSON.stringify(data)]: text, or [undefined] for [undefined]. *)
Definition JSON_stringify (value : jsval) : M (option rtext) :=
  fun w => (Ok (match value with
                | JUndefined => None
                | _ => Some (Ser (written (stats (memoryCache w)) value))
                end), w).

Definition parseJSON (s : option rtext) : M jsval :=
  fun w => (JSON_parse s, w).

(** ** The facade of cache.js *)

(** [clearCacheByPattern(pattern)].  The function has no [return]: the count
    goes to the debug log, and only when the client is open. *)
Definition clearCacheByPattern (pattern : string) : M jsval :=
  tryCatch
    (memoryKeys <- memoryCache_keys ;;
     let keysToDelete := List.filter (fun key => includes key pattern) memoryKeys in
     memoryCache_del keysToDelete ;;;
     open <- redisClient_isOpen ;;
     (if open then
        redisKeys <- redisClient_keys ("*" ++ pattern ++ "*") ;;
        (if (0 <? List.length redisKeys)%nat
         then redisClient_del redisKeys ;;; ret tt
         else ret tt) ;;;
        logger_debug (ClearedCachePattern pattern
                        (List.length keysToDelete + List.length redisKeys))
      else ret tt) ;;;
     ret JUndefined)
    (fun e => logger_error (ClearCacheError e) ;;; ret JUndefined).

(** [clearAllCache()] *)
Definition clearAllCache : M jsval :=
  tryCatch
    (memoryCache_flushAll ;;;
     open <- redisClient_isOpen ;;
     (if open then redisClient_flushDb else ret tt) ;;;
     logger_debug AllCacheCleared ;;;
     ret JUndefined)
    (fun e => logger_error (ClearAllCacheError e) ;;; ret JUndefined).

(** The object that [getCacheStats()] returns: [memory] is the live counters
    object itself. *)
Definition cacheStatsOf (r : RedisClient) : jsval :=
  JObj [("memory", JStatsRef);
        ("redis", JStr (if isOpen r then "connected" else "disconnected"))].

(** [getCacheStats()] *)
Definition getCacheStats : M jsval :=
  fun w => (Ok (cacheStatsOf (redisClient w)), w).

(** [setCache(key, data, ttl = 300, useRedis = true)] *)
Definition setCache (key : string) (value : jsval) (ttl : Z) (useRedis : bool)
  : M jsval :=
  tryCatch
    (memoryCache_set key value (Z.min ttl 300) ;;;
     open <- redisClient_isOpen ;;
     (if useRedis && open then
        text <- JSON_stringify value ;;
        redisClient_setEx key ttl text
      else ret tt) ;;;
     ret JUndefined)
    (fun e => logger_error (SetCacheError e) ;;; ret JUndefined).

(** [getCache(key, useRedis = true)]: the value, or [null]. *)
Definition getCache (key : string) (useRedis : bool) : M jsval :=
  tryCatch
    (memoryData <- memoryCache_get key ;;
     if truthy memoryData then ret memoryData
     else
       open <- redisClient_isOpen ;;
       (if useRedis && open then
          redisData <- redisClient_get key ;;
          if truthyText redisData then
            x <- parseJSON redisData ;;
            memoryCache_set key x 60 ;;;
            ret x
          else ret JNull
        else ret JNull))
    (fun e => logger_error (GetCacheError e) ;;; ret JNull).

(** ** The response-cache middleware *)

Record Request : Type := mkRequest { method : string; originalUrl : string }.

(** [res.json]: called as [json statusCode data], where [statusCode] is what
    [res.statusCode] holds at the time of the call. *)
Definition JsonFn : Type := Z -> jsval -> M unit.

(** The response object: its status, and its (replaceable) [json] method. *)
Record Response : Type := mkResponse { statusCode : Z; json : JsonFn }.

(** The [res.json] of the framework: the body is written out and sent. *)
Definition express_json : JsonFn :=
  fun status body w =>
    (Ok tt, emit (Sent status (written (stats (memoryCache w)) body)) w).

Definition freshResponse : Response := mkResponse 200 express_json.

Definition Handler : Type := Request -> Response -> M unit.

(** The function that the middleware installs as [res.json] on a miss. *)
Definition patchedJson (key : string) (duration : Z) (useRedis : bool)
    (originalJson : JsonFn) : JsonFn :=
  fun status value =>
    (if (200 <=? status) && (status <? 300) then
       memoryCache_set key value (Z.min duration 300) ;;;
       open <- redisClient_isOpen ;;
       (if useRedis && open then
          text <- JSON_stringify value ;;
          tryCatch (redisClient_setEx key duration text)
                   (fun err => logger_error (RedisSetError err))
        else ret tt) ;;;
       logger_debug (CacheSetMsg key duration)
     else ret tt) ;;;
    originalJson status value.

(** [cacheMiddleware(duration = 300, useRedis = true)(req, res, next)].

    The [try] block ends either with the response sent ([None]) or with the
    response object to hand to [next()].  The framework's [next()] traps what
    the downstream handlers throw and routes it to the error-handling
    middleware, so the [catch] clause only ever sees the exceptions of the
    lookup; [next] therefore runs after the [try] here. *)
Definition cacheMiddleware (duration : Z) (useRedis : bool)
    (req : Request) (res : Response) (next : Response -> M unit) : M unit :=
  if negb (String.eqb (method req) "GET") then next res
  else
    let key := "cache:" ++ originalUrl req in
    step <-
      tryCatch
        (memoryCached <- memoryCache_get key ;;
         if truthy memoryCached then
           logger_debug (MemoryCacheHit key) ;;;
           json res (statusCode res) memoryCached ;;;
           ret None
         else
           open <- redisClient_isOpen ;;
           served <-
             (if useRedis && open then
                redisCached <- redisClient_get key ;;
                if truthyText redisCached then
                  value <- parseJSON redisCached ;;
                  logger_debug (RedisCacheHit key) ;;;
                  memoryCache_set key value 60 ;;;
                  json res (statusCode res) value ;;;
                  ret true
                else ret false
              else ret false) ;;
           if served then ret None
           else ret (Some (mkResponse (statusCode res)
                             (patchedJson key duration useRedis (json res)))))
        (fun e => logger_error (CacheMiddlewareError e) ;;; ret (Some res)) ;;
    match step with
    | None => ret tt
    | Some res' => next res'
    end.

(** A domain handler with an invocation counter: each run leaves a
    [HandlerRan] mark. *)
Definition counted (h : Handler) : Handler :=
  fun req res w => h req res (emit HandlerRan w).

(** ** The operator routes of app.js *)

(** What the handlers read from the process and the clock. *)
Record ProcessInfo : Type := mkProcessInfo
  { memoryUsage : jsval;
    uptime : Z -> Z;
    NODE_ENV : jsval;
    toISOString : Z -> string;
    messageOf : error -> string;
    stackOf : error -> string }.

(** The object that the handler of [GET /api/performance] builds. *)
Definition performanceBody (p : ProcessInfo) (cacheStats : jsval) (n : Z) : jsval :=
  JObj [("status", JStr "OK");
        ("cache", cacheStats);
        ("memory", memoryUsage p);
        ("uptime", JNum (uptime p n));
        ("environment", NODE_ENV p);
        ("timestamp", JStr (toISOString p n))].

(** The modules that app.js can reach by a relative path.  The file lies
    in [src/], next to the directories [middleware], [routes] and [utils]:
    these are the paths of its imports at the top of the file. *)
Definition appModules : list string :=
  ["./middleware/cache"; "./utils/logger"; "./routes/auth.routes";
   "./routes/product.routes"; "./routes/user.routes";
   "./routes/category.routes"; "./routes/product-status.routes";
   "./routes/color.routes"; "./routes/subCategory.routes";
   "./routes/productFit.routes"; "./routes/brand.routes";
   "./routes/sustainability.routes"; "./routes/size.routes";
   "./routes/certification.routes"; "./middleware/rateLimit";
   "./middleware/upload"].

(** [require(path)] in app.js: a path that names no module throws. *)
Definition require (path : string) : M unit :=
  if existsb (String.eqb path) appModules then ret tt
  else throw MODULE_NOT_FOUND.

(** The handler of [GET /api/performance].  It starts with a [require] of
    its own, of the path ['./src/middleware/cache']. *)
Definition performanceHandler (p : ProcessInfo) : Handler :=
  fun req res =>
    require "./src/middleware/cache" ;;;
    cacheStats <- getCacheStats ;;
    (fun w => json res 200 (performanceBody p cacheStats (now w)) w).

(** The global error handler: [error.status] is not set on the errors of
    the cache, so the status is 500. *)
Definition globalErrorHandler (p : ProcessInfo) (e : error) : Handler :=
  fun req res =>
    logger_error (GlobalError e) ;;;
    (fun w =>
       json res 500
         (JObj ([("success", JBool false);
                 ("message", JStr (if String.eqb (messageOf p e) EmptyString
                                   then "Internal server error"
                                   else messageOf p e));
                 ("path", JStr (originalUrl req));
                 ("timestamp", JStr (toISOString p (now w)));
                 ("version", JStr "2.0.0")]
                ++ match NODE_ENV p with
                   | JStr "development" =>
                       [("error", JStr (messageOf p e));
                        ("stack", JStr (stackOf p e))]
                   | _ => []
                   end)%list) w).

(** [handleMulterError], the error-handling middleware mounted before the
    global one.  The errors of the model are no [MulterError]; one whose
    message contains ["Only"] is answered 400, any other is passed on. *)
Definition handleMulterError (p : ProcessInfo) (e : error) : Handler :=
  fun req res =>
    if includes (messageOf p e) "Only" then
      json res 400 (JObj [("success", JBool false);
                          ("message", JStr (messageOf p e))])
    else globalErrorHandler p e req res.

(** What [next()] does with the last handler of a route: an exception it
    throws goes to the error-handling middleware, with the same response
    object. *)
Definition expressNext (p : ProcessInfo) (req : Request) (h : Handler)
  : Response -> M unit :=
  fun res => tryCatch (h req res) (fun e => handleMulterError p e req res).

(** [app.get('/api/performance', cacheMiddleware(30, false), handler)] *)
Definition performanceRoute (p : ProcessInfo) (req : Request) : M unit :=
  cacheMiddleware 30 false req freshResponse
    (expressNext p req (counted (performanceHandler p))).

(** ** Start-up: server.js, database.js and the Redis wrapper class *)

(** The [reconnectStrategy] of the client: the delay before the next
    attempt, or the error that ends the attempts. *)
Definition reconnectStrategy (retries : Z) : M Z :=
  if 10 <? retries then
    logger_error TooManyRetriesMsg ;;; throw TooManyRetries
  else ret (Z.min (retries * 100) 3000).

Definition openClient (w : World) : World :=
  withRedis w (mkRedisClient true (reachable (redisClient w))
                             (attemptTime (redisClient w))
                             (server (redisClient w))).

(** [connectTimeout: 60000]: an attempt that has not failed sooner is given
    up after 60 s. *)
Definition connectTimeout : Z := 60000.

(** The time that the attempt after [retries] retries takes to fail. *)
Definition failedAttempt (r : RedisClient) (retries : Z) : Z :=
  Z.min connectTimeout (Z.max 0 (attemptTime r retries)).

(** The time of [n] failed attempts, the first after [retries] retries. *)
Fixpoint attemptsTime (r : RedisClient) (retries : Z) (n : nat) : Z :=
  match n with
  | O => 0
  | S n' => failedAttempt r retries + attemptsTime r (retries + 1) n'
  end.

(** [redisClient.connect()]: an attempt that fails takes its time; the
    client then asks the strategy, waits the delay it names and tries
    again, or rejects with the error the strategy returns.  [budget] bounds
    the attempts of the model.  The listeners on 'connect', 'error' and
    'reconnecting' only log; their lines are left out of the trace. *)
Fixpoint connectLoop (budget : nat) (retries : Z) : M unit :=
  fun w =>
    if reachable (redisClient w) then (Ok tt, openClient w)
    else
      match reconnectStrategy retries
              (withNow w (now w + failedAttempt (redisClient w) retries)) with
      | (Ok delay, w1) =>
          match budget with
          | S budget' =>
              connectLoop budget' (retries + 1) (withNow w1 (now w1 + delay))
          | O => (Throw RetryBudgetSpent, w1)
          end
      | (Throw e, w1) => (Throw e, w1)
      | (Exit code, w1) => (Exit code, w1)
      end.

Definition redisClient_connect : M unit := connectLoop 16 0.

(** [connectDB()] of database.js: a failure ends the process there. *)
Definition connectDB : M unit :=
  tryCatch
    (fun w => if dbReachable w then (Ok tt, w) else (Throw MongoError, w))
    (fun e => process_exit 1).

(** [createUploadDirs()]: the file system is not modelled, the call
    succeeds. *)
Definition createUploadDirs : M unit := ret tt.

(** [startServer()] of server.js, up to [app.listen]; the socket and the
    signal handlers that follow are registered only once the server
    listens. *)
Definition startServer : M unit :=
  tryCatch
    (createUploadDirs ;;;
     redisClient_connect ;;;
     logger_info RedisConnected ;;;
     connectDB ;;;
     logger_info DatabaseConnected ;;;
     (fun w => (Ok tt, emit Listening w)))
    (fun e => logger_error (FailedToStartServer e) ;;; process_exit 1).

(** [RedisClient.connect()] of the wrapper class in config/redis.js: a
    client with the same strategy (the client of the world stands for it),
    but a failure is logged and answered with [null] ([false] here), never
    thrown: "Don't throw error - allow app to run without Redis". *)
Definition RedisClient_connect : M bool :=
  tryCatch
    (redisClient_connect ;;; ret true)
    (fun e => logger_error (FailedToConnectRedis e) ;;; ret false).

(** The literal tokens of a pattern without operators. *)
Fixpoint lits (p : string) : list gtok :=
  match p with
  | EmptyString => []
  | String c p' => GLit c :: lits p'
  end.

(** ** Vocabulary of the statements *)

(** [after] is [before] without the keys that contain [p]. *)
Definition removedExactly {A} (p : string) (before after : gmap string A) : Prop :=
  forall k, after !! k = if includes k p then None else before !! k.

(** The number of entries that went away between two states of a store. *)
Definition removedCount {A} (before after : gmap string A) : nat :=
  (size before - size after)%nat.

(** [key] is in neither tier of [w'] that a call on [w] could reach. *)
Definition goneFrom (key : string) (w w' : World) : Prop :=
  data (memoryCache w') !! key = None
  /\ if isOpen (redisClient w) then server (redisClient w') !! key = None
     else redisClient w' = redisClient w.


(** The key counter of the memory tier agrees with its store. *)
Definition nc_consistent (c : NodeCache) : Prop :=
  keys (stats c) = Z.of_nat (size (data c)).

(** The capacity test of [set] lets a write through. *)
Definition belowCapacity (c : NodeCache) : Prop :=
  maxKeys (options c) <= -1 \/ keys (stats c) < maxKeys (options c).

(** [obj[name]]: the first field of that name, [undefined] if there is none. *)
Fixpoint fieldOf (name : string) (fields : list (string * jsval)) : jsval :=
  match fields with
  | [] => JUndefined
  | (k, x) :: rest => if String.eqb k name then x else fieldOf name rest
  end.

Definition prop (name : string) (x : jsval) : jsval :=
  match x with
  | JObj fields => fieldOf name fields
  | _ => JUndefined
  end.

(** ** States used in the examples *)

(** The world after a computation. *)
Definition after {A} (c : M A) (w : World) : World := snd (c w).

(** A fresh process at time 0: both tiers empty, the Redis server and the
    database reachable; [connected] tells whether the client is open. *)
Definition freshWorld (connected : bool) : World :=
  mkWorld 0 (newNodeCache memoryCacheOptions)
          (mkRedisClient connected true (fun _ => 0) ∅) true [].

(** The 'end' event of the client: the connection is gone. *)
Definition redisEnd (w : World) : World :=
  withRedis w (mkRedisClient false (reachable (redisClient w))
                             (attemptTime (redisClient w))
                             (server (redisClient w))).

Definition sampleList : jsval :=
  JObj [("products", JArr [JObj [("title", JStr "Shirt")]]);
        ("pagination", JObj [("page", JNum 1); ("total", JNum 1)])].

(** The keys of section 8 of the specification, written to both tiers. *)
Definition threeKeys : World :=
  after (setCache "products:a" sampleList 300 true ;;;
         setCache "products:b" sampleList 300 true ;;;
         setCache "other:c" sampleList 300 true)
        (freshWorld true).

(** Two cached responses, one of them for a URL with a query string. *)
Definition twoUrls : World :=
  after (setCache "cache:/api/v1/brands" sampleList 300 true ;;;
         setCache "cache:/api/v1/products?page=2" sampleList 300 true)
        (freshWorld true).


(** A product that another instance wrote to the distributed tier only. *)
Definition sharedOnly : World :=
  after (redisClient_setEx "product:64b7f0c2a1" 600 (Some (Ser sampleList)))
        (freshWorld true).

(** A product cached for 400 s at time 0, seen again at 350 s: the memory
    tier (ceiling 300 s) has dropped it, the distributed tier has 50 s left. *)
Definition lateRead : World :=
  withNow (after (setCache "product:64b7f0c2a1" sampleList 400 true)
                 (freshWorld true))
          350000.

Definition getProducts : Request := mkRequest "GET" "/api/v1/products".
Definition getPerformance : Request := mkRequest "GET" "/api/performance".
Definition getNewPage : Request :=
  mkRequest "GET" "/api/v1/products?page=5000".

(** A domain handler that answers 200 with the product list. *)
Definition listHandler : Handler := fun req res => json res 200 sampleList.

(** A handler that answers 200 with the number of products, here none. *)
Definition getCount : Request := mkRequest "GET" "/api/v1/products/count".
Definition countHandler : Handler := fun req res => json res 200 (JNum 0).

(** A production process started at time 0; the time stamps are exact at
    the two instants that the examples use, 0 s and 10 s. *)
Definition sampleProcess : ProcessInfo :=
  mkProcessInfo (JObj [("rss", JNum 50000000); ("heapUsed", JNum 20000000)])
                (fun n => n / 1000)
                (JStr "production")
                (fun n => if n <? 10000 then "1970-01-01T00:00:00.000Z"
                          else "1970-01-01T00:00:10.000Z")
                (fun e => match e with
                          | ECACHEFULL => "Cache max keys amount exceeded"
                          | MODULE_NOT_FOUND =>
                              "Cannot find module './src/middleware/cache'"
                          | _ => "Error"
                          end)
                (fun e => "Error").

(** The status and body of the last response sent. *)
Fixpoint lastSent (tr : list Event) : option (Z * jsval) :=
  match tr with
  | [] => None
  | ev :: rest =>
      match lastSent rest with
      | Some r => Some r
      | None => match ev with
                | Sent status body => Some (status, body)
                | _ => None
                end
      end
  end.

(** Two requests for the count, one second apart, in a process whose
    Redis client is closed. *)
Definition countedTwice : World :=
  after (cacheMiddleware 300 true getCount freshResponse
           (counted countHandler getCount))
    (withNow
       (after (cacheMiddleware 300 true getCount freshResponse
                 (counted countHandler getCount))
              (freshWorld false))
       1000).

(** Whether the process got as far as [app.listen]. *)
Definition listens (tr : list Event) : bool :=
  existsb (fun ev => match ev with Listening => true | _ => false end) tr.

(** A process that starts while the Redis server is down; every attempt
    is refused within 2 ms. *)
Definition redisDown : World :=
  mkWorld 0 (newNodeCache memoryCacheOptions)
          (mkRedisClient false false (fun _ => 2) ∅) true [].

Definition digit (n : N) : ascii := ascii_of_N (48 + n).

(** The decimal digits of [n], most significant first; [fuel] bounds the
    number of digits. *)
Fixpoint decimal (fuel : nat) (n : N) (acc : string) : string :=
  match fuel with
  | O => acc
  | S fuel' =>
      let acc' := String (digit (n mod 10)) acc in
      if (n <? 10)%N then acc' else decimal fuel' (n / 10) acc'
  end.

Definition pageUrl (n : N) : string :=
  "cache:/api/v1/products?page=" ++ decimal 8 n EmptyString.

(** [count] further cached pages in the memory tier, numbered from
    [first]. *)
Fixpoint cachePages (count : nat) (first : N) (w : World) : World :=
  match count with
  | O => w
  | S m =>
      cachePages m (first + 1)
        (after (setCache (pageUrl first) sampleList 300 false) w)
  end.

(** A process whose memory tier holds [maxKeys] entries. *)
Definition fullWorld : World := cachePages 5000 0 (freshWorld true).

(** The same, after another instance has stored the product list in the
    distributed tier. *)
Definition fullWorldSharedHit : World :=
  after (redisClient_setEx "cache:/api/v1/products" 300 (Some (Ser sampleList)))
        fullWorld.

(** ** More of app.js: the cache-clear route and the health check *)

(** A line that goes to the console, or a line of the logger that [LogMsg]
    has no name for: the trace does not record it. *)
Definition console_log : M unit := ret tt.

(** The handler of [DELETE /api/cache/clear].  [pattern] is
    [req.query.pattern], absent or a string; the empty string is falsy.
    With a pattern the handler calls the [clearCacheByPattern] that the top
    of the file imports; without one it first requires the cache module by
    the path ['./src/middleware/cache']. *)
Definition cacheClearHandler (pattern : option string) : Handler :=
  fun req res =>
    tryCatch
      (match pattern with
       | Some (String _ _ as p) =>
           clearCacheByPattern p ;;;
           json res (statusCode res)
             (JObj [("success", JBool true);
                    ("message", JStr ("Cache cleared for pattern: " ++ p))])
       | _ =>
           require "./src/middleware/cache" ;;;
           clearAllCache ;;;
           json res (statusCode res)
             (JObj [("success", JBool true);
                    ("message", JStr "All cache cleared")])
       end)
      (fun error =>
         console_log ;;;
         json res 500 (JObj [("success", JBool false);
                             ("message", JStr "Failed to clear cache")])).

(** The object that the handler of [GET /health] builds. *)
Definition healthBody (p : ProcessInfo) (r : RedisClient) (n : Z) : jsval :=
  JObj [("status", JStr "OK");
        ("timestamp", JStr (toISOString p n));
        ("uptime", JNum (uptime p n));
        ("environment", NODE_ENV p);
        ("memory", memoryUsage p);
        ("redis", JStr (if isOpen r then "connected" else "disconnected"));
        ("version", JStr "2.0.0")].

(** The handler of [GET /health]; it too starts with a [require] of the
    path ['./src/middleware/cache']. *)
Definition healthHandler (p : ProcessInfo) : Handler :=
  fun req res =>
    require "./src/middleware/cache" ;;;
    (fun w => json res 200 (healthBody p (redisClient w) (now w)) w).

(** [app.get('/health', cacheMiddleware(30, false), handler)] *)
Definition healthRoute (p : ProcessInfo) (req : Request) : M unit :=
  cacheMiddleware 30 false req freshResponse
    (expressNext p req (counted (healthHandler p))).

(** ** More of database.js *)

(** [testConnection()] *)
Definition testConnection : M bool :=
  tryCatch (connectDB ;;; console_log ;;; ret true)
           (fun error => console_log ;;; ret false).

(** ** More of config/redis.js: the methods of the wrapper class *)

(** EXISTS key *)
Definition r_exists (now : Z) (key : string) (r : RedisClient)
  : outcome Z * RedisClient :=
  if isOpen r then
    let m := r_live now (server r) in
    (Ok (match m !! key with Some _ => 1 | None => 0 end), withServer r m)
  else (Throw ClientClosedError, r).

(** QUIT *)
Definition r_quit (r : RedisClient) : outcome unit * RedisClient :=
  if isOpen r
  then (Ok tt, mkRedisClient false (reachable r) (attemptTime r) (server r))
  else (Throw ClientClosedError, r).

(** The methods run on the client of the world, which stands for the one
    that the wrapper holds once [connect()] has been called; [isConnected]
    is its [isOpen]. *)
Definition RedisClient_get (key : string) : M jsval :=
  isConnected <- redisClient_isOpen ;;
  if negb isConnected then ret JNull
  else
    tryCatch
      (value <- redisClient_get key ;;
       if truthyText value then parseJSON value else ret JNull)
      (fun error => console_log ;;; ret JNull).

Definition RedisClient_set (key : string) (value : jsval) (expireInSeconds : Z)
  : M bool :=
  isConnected <- redisClient_isOpen ;;
  if negb isConnected then ret false
  else
    tryCatch
      (text <- JSON_stringify value ;;
       redisClient_setEx key expireInSeconds text ;;;
       ret true)
      (fun error => console_log ;;; ret false).

Definition RedisClient_del (key : string) : M bool :=
  isConnected <- redisClient_isOpen ;;
  if negb isConnected then ret false
  else
    tryCatch (redisClient_del [key] ;;; ret true)
             (fun error => console_log ;;; ret false).

Definition RedisClient_exists (key : string) : M bool :=
  isConnected <- redisClient_isOpen ;;
  if negb isConnected then ret false
  else
    tryCatch (result <- liftRedis (fun n => r_exists n key) ;;
              ret (result =? 1))
             (fun error => console_log ;;; ret false).

Definition RedisClient_flushPattern (pattern : string) : M bool :=
  isConnected <- redisClient_isOpen ;;
  if negb isConnected then ret false
  else
    tryCatch
      (keys <- redisClient_keys pattern ;;
       (if (0 <? List.length keys)%nat
        then redisClient_del keys ;;; ret tt
        else ret tt) ;;;
       ret true)
      (fun error => console_log ;;; ret false).

Definition RedisClient_disconnect : M unit :=
  liftRedis (fun _ => r_quit).

(** ** More of server.js: the listeners that shut the process down *)

(** [redisClient.quit()] on the client of the cache module *)
Definition redisClient_quit : M unit := liftRedis (fun _ => r_quit).

(** The listener of ['unhandledRejection'] logs, awaits [quit()] and then
    closes the server and exits with code 1.  The listener is an [async]
    function: when [quit()] rejects, the promise of the listener is itself a
    rejection that nothing handles, and the runtime calls the listener
    again.  [rounds] bounds the number of calls that the model follows;
    [None] says that the listener is still being called after that many. *)
Fixpoint onUnhandledRejection (rounds : nat)
  : World -> option (outcome unit) * World :=
  fun w =>
    match rounds with
    | O => (None, w)
    | S rounds' =>
        match (console_log ;;; console_log ;;; redisClient_quit) w with
        | (Ok _, w') => (Some (Exit 1), w')
        | (Throw _, w') => onUnhandledRejection rounds' w'
        | (Exit code, w') => (Some (Exit code), w')
        end
    end.

(** The listener of ['SIGTERM']: the memory tier is flushed, the client
    quits, the server closes. *)
Definition onSIGTERM (rounds : nat) : World -> option (outcome unit) * World :=
  fun w =>
    match (console_log ;;; memoryCache_flushAll ;;; redisClient_quit) w with
    | (Ok _, w') => (Some (Ok tt), w')
    | (Throw _, w') => onUnhandledRejection rounds w'
    | (Exit code, w') => (Some (Exit code), w')
    end.

(** The listener of ['uncaughtException'] *)
Definition onUncaughtException (rounds : nat)
  : World -> option (outcome unit) * World :=
  fun w =>
    match (console_log ;;; console_log ;;; redisClient_quit) w with
    | (Ok _, w') => (Some (Exit 1), w')
    | (Throw _, w') => onUnhandledRejection rounds w'
    | (Exit code, w') => (Some (Exit code), w')
    end.

(** ** auth.js and the user model *)

(** The calls of these files do not touch the cache; they run in the bare
    exception monad. *)
Definition andThen {A B} (r : outcome A) (k : A -> outcome B) : outcome B :=
  match r with
  | Ok a => k a
  | Throw e => Throw e
  | Exit code => Exit code
  end.

Definition orElse {A} (r : outcome A) (h : error -> outcome A) : outcome A :=
  match r with
  | Throw e => h e
  | other => other
  end.

(** [s.split(sep)] for a separator of one character. *)
Fixpoint splitOn (sep : ascii) (s : string) : list string :=
  match s with
  | EmptyString => [EmptyString]
  | String a s' =>
      if Ascii.eqb a sep then EmptyString :: splitOn sep s'
      else match splitOn sep s' with
           | word :: words => String a word :: words
           | [] => [String a EmptyString]
           end
  end.

(** [ROLES] and [PERMISSIONS] of config/constants.js *)
Definition ROLES_USER : string := "user".
Definition ROLES_SELLER : string := "seller".
Definition ROLES_MODERATOR : string := "moderator".
Definition ROLES_ADMIN : string := "admin".

Definition PERMISSIONS : list (string * list string) :=
  [("USER", ["read_products"; "create_order"; "read_own_orders";
             "update_profile"]);
   ("SELLER", ["read_products"; "create_order"; "read_own_orders";
               "update_profile"; "manage_own_products"; "view_sales";
               "manage_own_inventory"]);
   ("MODERATOR", ["read_products"; "create_order"; "read_own_orders";
                  "update_profile"; "manage_products"; "manage_users";
                  "manage_orders"; "manage_blogs"; "view_analytics";
                  "manage_comments"]);
   ("ADMIN", ["all"])].

Definition PERMISSIONS_USER : list string :=
  ["read_products"; "create_order"; "read_own_orders"; "update_profile"].

(** How a middleware ends: it calls [next()], with [req.user] as it then
    is, or it answers [{ success: false, message }] with a status. *)
Inductive Verdict : Type :=
| Next (user : jsval)
| Reply (status : Z) (message : string).

(** [s.toUpperCase()] on ASCII text. *)
Definition upper (c : ascii) : ascii :=
  let n := nat_of_ascii c in
  if ((97 <=? n) && (n <=? 122))%nat then ascii_of_nat (n - 32) else c.

Fixpoint toUpperCase (s : string) : string :=
  match s with
  | EmptyString => EmptyString
  | String c s' => String (upper c) (toUpperCase s')
  end.

Fixpoint lookupPermissions (name : string) (table : list (string * list string))
  : option (list string) :=
  match table with
  | [] => None
  | (k, ps) :: rest => if String.eqb k name then Some ps
                       else lookupPermissions name rest
  end.

(** [xs.includes(s)] for a string [s]: membership in an array, a substring
    test on a string, a TypeError on anything else. *)
Definition jsIncludes (xs : jsval) (s : string) : outcome bool :=
  match xs with
  | JArr items =>
      Ok (existsb (fun x => match x with
                            | JStr y => String.eqb y s
                            | _ => false
                            end) items)
  | JStr text => Ok (includes text s)
  | _ => Throw TypeError
  end.

(** [{ ...fields, name: x }]: a field that is there keeps its place. *)
Fixpoint assign (name : string) (x : jsval) (fields : list (string * jsval))
  : list (string * jsval) :=
  match fields with
  | [] => [(name, x)]
  | (k, y) :: rest => if String.eqb k name then (k, x) :: rest
                      else (k, y) :: assign name x rest
  end.

Section UserModel.
(** [jwt.verify(token, secret).userId] *)
Variable jwt_verify : string -> outcome jsval.
(** [collection.findOne({ _id: new ObjectId(id) })]: the document, or
    [null]. *)
Variable findById : jsval -> outcome jsval.
(** [collection.insertOne(document)] *)
Variable insertOne : jsval -> outcome jsval.
(** [new Date()] *)
Variable today : jsval.

(** [UserModel.getDefaultPermissions(role)] *)
Definition getDefaultPermissions (role : jsval) : outcome (list string) :=
  match role with
  | JStr r =>
      Ok (match lookupPermissions (toUpperCase r) PERMISSIONS with
          | Some ps => ps
          | None => PERMISSIONS_USER
          end)
  | _ => Throw TypeError
  end.

(** The document that [UserModel.create(userData)] inserts. *)
Definition newUser (userData : list (string * jsval)) : outcome jsval :=
  andThen (getDefaultPermissions (fieldOf "role" userData))
    (fun defaultPermissions =>
       Ok (JObj
             (assign "updatedAt" today
                (assign "createdAt" today
                   (assign "emailVerified" (JBool false)
                      (assign "isActive" (JBool true)
                         (assign "permissions"
                            (if truthy (fieldOf "permissions" userData)
                             then fieldOf "permissions" userData
                             else JArr (List.map JStr defaultPermissions))
                            (assign "role"
                               (if truthy (fieldOf "role" userData)
                                then fieldOf "role" userData
                                else JStr ROLES_USER)
                               userData)))))))).

(** [UserModel.create(userData)] *)
Definition create (userData : list (string * jsval)) : outcome jsval :=
  andThen (newUser userData) insertOne.

(** [UserModel.hasPermission(userId, permission)] *)
Definition hasPermission (userId : jsval) (permission : string) : outcome bool :=
  andThen (findById userId)
    (fun user =>
       if negb (truthy user) then Ok false
       else if match prop "role" user with
               | JStr r => String.eqb r ROLES_ADMIN
               | _ => false
               end
       then Ok true
       else
         andThen (jsIncludes (prop "permissions" user) permission)
           (fun has =>
              if has then Ok true
              else jsIncludes (prop "permissions" user) "all")).

(** [authenticateToken]; [authorization] is [req.headers['authorization']]. *)
Definition authenticateToken (authorization : option string) : outcome Verdict :=
  let token :=
    match authorization with
    | Some authHeader =>
        if truthy (JStr authHeader)
        then nth_error (splitOn " " authHeader) 1
        else Some authHeader
    | None => None
    end in
  match token with
  | None | Some EmptyString => Ok (Reply 401 "Access token required")
  | Some token =>
      orElse
        (andThen (jwt_verify token)
           (fun userId =>
              andThen (findById userId)
                (fun user =>
                   if negb (truthy user) || negb (truthy (prop "isActive" user))
                   then Ok (Reply 401 "User not found or inactive")
                   else Ok (Next user))))
        (fun error => Ok (Reply 403 "Invalid or expired token"))
  end.

(** [authorizeRoles(...roles)]; [user] is [req.user]. *)
Definition authorizeRoles (roles : list string) (user : jsval) : Verdict :=
  if negb (truthy user) then Reply 401 "Authentication required"
  else if negb (match prop "role" user with
                | JStr r => existsb (String.eqb r) roles
                | _ => false
                end)
       then Reply 403 "Insufficient role permissions"
       else Next user.

(** [authorizePermission(permission)] *)
Definition authorizePermission (permission : string) (user : jsval)
  : outcome Verdict :=
  orElse
    (if negb (truthy user) then Ok (Reply 401 "Authentication required")
     else
       andThen (hasPermission (prop "_id" user) permission)
         (fun has =>
            if negb has then Ok (Reply 403 "Insufficient permissions")
            else Ok (Next user)))
    (fun error => Ok (Reply 500 "Permission check failed")).

(** A chain [[authenticateToken, authorizeRoles(...roles)]]: the second
    middleware runs when the first has called [next()]. *)
Definition requireRoles (roles : list string) (authorization : option string)
  : outcome Verdict :=
  andThen (authenticateToken authorization)
    (fun verdict =>
       match verdict with
       | Next user => Ok (authorizeRoles roles user)
       | reply => Ok reply
       end).

Definition requireAdmin := requireRoles [ROLES_ADMIN].
Definition requireModerator := requireRoles [ROLES_ADMIN; ROLES_MODERATOR].
Definition requireSeller :=
  requireRoles [ROLES_ADMIN; ROLES_MODERATOR; ROLES_SELLER].
Definition requireUser :=
  requireRoles [ROLES_ADMIN; ROLES_MODERATOR; ROLES_SELLER; ROLES_USER].
End UserModel.

(** ** upload.js: where a file goes and which files are let in *)

Record File : Type := mkFile
  { mimetype : string; fieldname : string; originalname : string }.

(** The directories that [createUploadDirs] makes sure of. *)
Definition directories : list string :=
  ["uploads/temp"; "uploads/products"; "uploads/blogs"; "uploads/banners";
   "uploads/orders"; "uploads/size_charts"; "uploads/pdfs"].

(** The [destination] of the disk storage. *)
Definition destination (file : File) : string :=
  if String.eqb (mimetype file) "application/pdf" then "uploads/pdfs"
  else if includes (fieldname file) "product" then "uploads/products"
  else if includes (fieldname file) "blog" then "uploads/blogs"
  else if includes (fieldname file) "banner" then "uploads/banners"
  else "uploads/temp".

Definition ALLOWED_IMAGE_TYPES : list string :=
  ["image/jpeg"; "image/jpg"; "image/png"; "image/webp"].

(** What a file filter hands to its callback. *)
Inductive Filtered : Type :=
| Accepted
| Rejected (message : string).

Definition imageFilter (file : File) : Filtered :=
  if existsb (String.eqb (mimetype file)) ALLOWED_IMAGE_TYPES then Accepted
  else Rejected "Only image files (JPEG, JPG, PNG, WEBP) are allowed!".

Definition pdfFilter (file : File) : Filtered :=
  if String.eqb (mimetype file) "application/pdf" then Accepted
  else Rejected "Only PDF files are allowed!".

Definition mixedFilter (file : File) : Filtered :=
  let allowedTypes := (ALLOWED_IMAGE_TYPES ++ ["application/pdf"])%list in
  if existsb (String.eqb (mimetype file)) allowedTypes then Accepted
  else Rejected "Only image and PDF files are allowed!".

(** The errors that reach [handleMulterError] from an upload: one of
    multer's own, with its code, or another [Error]. *)
Inductive UploadError : Type :=
| MulterError (code message : string)
| OtherError (message : string).

Definition uploadMessage (error : UploadError) : string :=
  match error with
  | MulterError _ message => message
  | OtherError message => message
  end.

(** [handleMulterError] on those errors: the status and message of the
    answer, or [None] when the error goes on to [next]. *)
Definition handleUploadError (error : UploadError) : option (Z * string) :=
  match (match error with
         | MulterError code _ =>
             if String.eqb code "LIMIT_FILE_SIZE"
             then Some (400, "File too large. Maximum size is 10MB.")
             else if String.eqb code "LIMIT_FILE_COUNT"
             then Some (400, "Too many files.")
             else if String.eqb code "LIMIT_UNEXPECTED_FILE"
             then Some (400, "Unexpected field.")
             else None
         | OtherError _ => None
         end) with
  | Some answer => Some answer
  | None =>
      if includes (uploadMessage error) "Only"
      then Some (400, uploadMessage error)
      else None
  end.

(** ** product.controller.js *)

(** [s.toLowerCase()] on ASCII text. *)
Definition lower (c : ascii) : ascii :=
  let n := nat_of_ascii c in
  if ((65 <=? n) && (n <=? 90))%nat then ascii_of_nat (n + 32) else c.

Fixpoint toLowerCase (s : string) : string :=
  match s with
  | EmptyString => EmptyString
  | String c s' => String (lower c) (toLowerCase s')
  end.

(** The classes [\s] and [\w] on ASCII text, and the hyphen. *)
Definition isSpace (c : ascii) : bool :=
  let n := nat_of_ascii c in
  (((9 <=? n) && (n <=? 13)) || (n =? 32))%nat.

Definition isWord (c : ascii) : bool :=
  let n := nat_of_ascii c in
  (((48 <=? n) && (n <=? 57)) || ((65 <=? n) && (n <=? 90))
   || ((97 <=? n) && (n <=? 122)) || (n =? 95))%nat.

Definition isDash (c : ascii) : bool := Ascii.eqb c "-".

Fixpoint dropWhile (f : ascii -> bool) (s : string) : string :=
  match s with
  | EmptyString => EmptyString
  | String c s' => if f c then dropWhile f s' else s
  end.

Fixpoint dropWhileEnd (f : ascii -> bool) (s : string) : string :=
  match s with
  | EmptyString => EmptyString
  | String c s' =>
      match dropWhileEnd f s' with
      | EmptyString => if f c then EmptyString else String c EmptyString
      | rest => String c rest
      end
  end.

(** [s.trim()] *)
Definition trim (s : string) : string :=
  dropWhileEnd isSpace (dropWhile isSpace s).

(** [s.replace(/[^...]/g, '')]: the characters of the class stay. *)
Fixpoint keep (f : ascii -> bool) (s : string) : string :=
  match s with
  | EmptyString => EmptyString
  | String c s' => if f c then String c (keep f s') else keep f s'
  end.

(** [s.replace(/[\s_-]+/g, '-')]; [inRun] tells that the run at hand has
    been replaced already. *)
Fixpoint hyphenate (inRun : bool) (s : string) : string :=
  match s with
  | EmptyString => EmptyString
  | String c s' =>
      if isSpace c || Ascii.eqb c "_" || isDash c
      then if inRun then hyphenate true s'
           else String "-" (hyphenate true s')
      else String c (hyphenate false s')
  end.

(** [ProductController.generateSlug(title)] *)
Definition generateSlug (title : jsval) : outcome string :=
  match title with
  | JStr text =>
      Ok (dropWhileEnd isDash
            (dropWhile isDash
               (hyphenate false
                  (keep (fun c => isWord c || isSpace c || isDash c)
                     (trim (toLowerCase text))))))
  | _ => Throw TypeError
  end.

(** A result that does not depend on the world. *)
Definition liftOutcome {A} (r : outcome A) : M A := fun w => (r, w).

Section ProductController.
(** [ApiResponse] of utils/apiResponse.js: the status and the body that
    [success(res, data)] and [error(res, message, status)] pass to
    [res.status(..).json(..)]. *)
Variable successEnvelope : jsval -> Z * jsval.
Variable errorEnvelope : string -> option Z -> Z * jsval.
(** [ObjectId.isValid(id)] and [product._id.toString()] *)
Variable ObjectId_isValid : string -> bool.
Variable idString : jsval -> string.
(** Whether [getCollection('products')] returns the collection, and what
    its queries answer: [findOne({ slug })], [findOne({ _id })],
    [updateOne({ _id }, ..)] and the [find] of the popular products. *)
Variable productsCollection : bool.
Variable findBySlug : string -> outcome jsval.
Variable findOne : string -> outcome jsval.
Variable updateOne : string -> outcome unit.
Variable findPopular : string -> outcome jsval.
Variable p : ProcessInfo.

Definition ApiResponse_success (res : Response) (data : jsval) : M unit :=
  json res (fst (successEnvelope data)) (snd (successEnvelope data)).

Definition ApiResponse_error (res : Response) (message : string)
    (status : option Z) : M unit :=
  json res (fst (errorEnvelope message status))
           (snd (errorEnvelope message status)).

(** [ProductController.updateProductViews(productId)] *)
Definition updateProductViews (productId : string) : M unit :=
  tryCatch
    (if negb productsCollection then ret tt
     else
       liftOutcome (updateOne productId) ;;;
       clearCacheByPattern ("product:" ++ productId) ;;;
       ret tt)
    (fun error => console_log).

(** [ProductController.getProductById(req, res)]; [id] is [req.params.id].
    [this] is the receiver of the call, if there is one: the method reads
    [this.updateProductViews].  The view update is started and not awaited;
    it runs once the response has been sent. *)
Definition getProductById (this : option (string -> M unit)) (id : string)
    (res : Response) : M unit :=
  tryCatch
    (if String.eqb id EmptyString || String.eqb id "undefined"
        || String.eqb id "null"
     then ApiResponse_error res "Invalid product ID" (Some 400)
     else if negb (ObjectId_isValid id) then
       (if negb productsCollection then throw TypeError else ret tt) ;;;
       productBySlug <- liftOutcome (findBySlug id) ;;
       if truthy productBySlug then ApiResponse_success res productBySlug
       else ApiResponse_error res "Invalid product ID format" (Some 400)
     else
       let cacheKey := "product:" ++ id in
       served <-
         tryCatch
           (cachedProduct <- getCache cacheKey true ;;
            if truthy cachedProduct
            then ApiResponse_success res cachedProduct ;;; ret true
            else ret false)
           (fun cacheError => console_log ;;; ret false) ;;
       if served then ret tt
       else if negb productsCollection
       then ApiResponse_error res "Products collection not available" (Some 500)
       else
         product <- liftOutcome (findOne id) ;;
         if negb (truthy product)
         then ApiResponse_error res "Product not found" (Some 404)
         else
           tryCatch (setCache cacheKey product 600 true ;;; ret tt)
                    (fun cacheError => console_log) ;;;
           match this with
           | None => throw TypeError
           | Some self =>
               ApiResponse_success res product ;;;
               tryCatch (self (idString product)) (fun err => console_log)
           end)
    (fun error =>
       match error with
       | MongoError => ApiResponse_error res "Database error" (Some 500)
       | _ => ApiResponse_error res
                ("Failed to fetch product: " ++ messageOf p error) None
       end).

(** [router.get('/:id', ProductController.getProductById)]: the router calls
    the method as a plain function, without a receiver. *)
Definition productByIdRoute (id : string) (res : Response) : M unit :=
  getProductById None id res.

(** [ProductController.getPopularProducts(req, res)]; [limit] is the text of
    [req.query.limit], ["10"] when the query has none. *)
Definition getPopularProducts (limit : string) (res : Response) : M unit :=
  tryCatch
    (let cacheKey := "popular_products:" ++ limit in
     cachedProducts <- getCache cacheKey true ;;
     if truthy cachedProducts
     then console_log ;;; ApiResponse_success res cachedProducts
     else if negb productsCollection
     then ApiResponse_error res "Products collection not available" (Some 500)
     else
       products <- liftOutcome (findPopular limit) ;;
       setCache cacheKey products 600 true ;;;
       ApiResponse_success res products)
    (fun error =>
       console_log ;;; ApiResponse_error res (messageOf p error) None).
End ProductController.

(** ** A protected route behind the response cache *)

Section ProtectedRoute.
Variable jwt_verify : string -> outcome jsval.
Variable findById : jsval -> outcome jsval.
Variable p : ProcessInfo.

(** The middlewares [authenticateToken, authorizeRoles(...roles)] in front
    of a handler that reads [req.user]; [authorization] is the header of the
    request. *)
Definition guarded (roles : list string) (authorization : option string)
    (handler : jsval -> Handler) : Handler :=
  fun req res =>
    verdict <- liftOutcome (requireRoles jwt_verify findById roles authorization) ;;
    match verdict with
    | Next user => handler user req res
    | Reply status message =>
        json res status (JObj [("success", JBool false);
                               ("message", JStr message)])
    end.

(** [app.use('/api/v1/products', cacheMiddleware(300, true))], mounted
    before the router, and behind it
    [router.get('/seller/my-products', authenticateToken,
                authorizeRoles(SELLER, ADMIN, MODERATOR), handler)]. *)
Definition sellerProductsRoute (authorization : option string)
    (handler : jsval -> Handler) (req : Request) : M unit :=
  cacheMiddleware 300 true req freshResponse
    (expressNext p req
       (guarded [ROLES_SELLER; ROLES_ADMIN; ROLES_MODERATOR] authorization
                handler)).
End ProtectedRoute.

(** ** Users of the examples *)

Definition adminUser : jsval :=
  JObj [("_id", JStr "64b7f0c2a1d3e4f5a6b7c8d9"); ("role", JStr "admin");
        ("permissions", JArr [JStr "all"]); ("isActive", JBool true)].

Definition guestUser : jsval :=
  JObj [("_id", JStr "64b7f0c2a1d3e4f5a6b7c8da"); ("role", JStr "guest");
        ("permissions", JArr [JStr "read_products"]); ("isActive", JBool true)].

(** A token service that knows two tokens, and the database behind it. *)
Definition sampleVerify (token : string) : outcome jsval :=
  if String.eqb token "admin.token" then Ok (JStr "64b7f0c2a1d3e4f5a6b7c8d9")
  else if String.eqb token "guest.token" then Ok (JStr "64b7f0c2a1d3e4f5a6b7c8da")
  else Throw SyntaxError.

Definition sampleUsers (id : jsval) : outcome jsval :=
  match id with
  | JStr "64b7f0c2a1d3e4f5a6b7c8d9" => Ok adminUser
  | JStr "64b7f0c2a1d3e4f5a6b7c8da" => Ok guestUser
  | _ => Ok JNull
  end.

(** ** A product catalogue for the examples *)

Definition sampleSuccess (data : jsval) : Z * jsval :=
  (200, JObj [("success", JBool true); ("data", data)]).

Definition sampleFailure (message : string) (status : option Z) : Z * jsval :=
  (match status with Some code => code | None => 500 end,
   JObj [("success", JBool false); ("message", JStr message)]).

Definition sampleProduct : jsval :=
  JObj [("_id", JStr "64b7f0c2a1d3e4f5a6b7c8d9"); ("title", JStr "Shirt");
        ("viewCount", JNum 7)].

Definition sampleIsValid (id : string) : bool :=
  (String.length id =? 24)%nat.

Definition sampleIdString (product : jsval) : string :=
  match prop "_id" product with
  | JStr id => id
  | _ => EmptyString
  end.

Definition sampleFindOne (id : string) : outcome jsval :=
  if String.eqb id "64b7f0c2a1d3e4f5a6b7c8d9" then Ok sampleProduct
  else Ok JNull.

Definition sampleFindBySlug (slug : string) : outcome jsval :=
  if String.eqb slug "shirt" then Ok sampleProduct else Ok JNull.

(** ** Further vocabulary *)

(** The memory tier is within its ceiling and its key counter is right. *)
Definition memoryBounded (c : NodeCache) : Prop :=
  nc_consistent c /\ Z.of_nat (size (data c)) <= maxKeys (options c).

(** A computation keeps the memory tier bounded. *)
Definition keepsBounded {A} (c : M A) : Prop :=
  forall w, memoryBounded (memoryCache w) ->
            memoryBounded (memoryCache (snd (c w))).

(** The number of times a counted handler ran. *)
Fixpoint handlerRuns (tr : list Event) : nat :=
  match tr with
  | [] => 0%nat
  | HandlerRan :: rest => S (handlerRuns rest)
  | _ :: rest => handlerRuns rest
  end.

(** A value that [JSON.stringify] and [JSON.parse] give back as it is: no
    [undefined] and no reference to the live counters inside. *)
Fixpoint plain (x : jsval) : bool :=
  match x with
  | JArr xs => forallb plain xs
  | JObj fields => forallb (fun p => plain (snd p)) fields
  | JStatsRef | JUndefined => false
  | _ => true
  end.

(** The world after a run of [getCache(key, useRedis)] calls, each at its
    own instant. *)
Fixpoint readAt (key : string) (reads : list (Z * bool)) (w : World) : World :=
  match reads with
  | [] => w
  | (n, useRedis) :: rest =>
      readAt key rest (after (getCache key useRedis) (withNow w n))
  end.

(** What the two tiers hold under [key] is bound to go: the entry of the
    distributed tier by the instant [deadline], the entry of the memory tier
    less than 60 s later. *)
Definition expiresBy (deadline : Z) (key : string) (w : World) : Prop :=
  (forall e, data (memoryCache w) !! key = Some e ->
             t e <> 0 /\ t e < deadline + 60 * 1000)
  /\ (forall re, server (redisClient w) !! key = Some re ->
                 expireAt re <= deadline).

(** ** The shape of a slug *)

Fixpoint allChars (f : ascii -> bool) (s : string) : bool :=
  match s with
  | EmptyString => true
  | String c s' => f c && allChars f s'
  end.

(** Text in which every character is below 128. *)
Definition isAscii (s : string) : bool :=
  allChars (fun c => (nat_of_ascii c <? 128)%nat) s.

(** A lower-case letter or a digit. *)
Definition isSlugChar (c : ascii) : bool :=
  let n := nat_of_ascii c in
  (((48 <=? n) && (n <=? 57)) || ((97 <=? n) && (n <=? 122)))%nat.

Definition headIs (f : ascii -> bool) (s : string) : bool :=
  match s with
  | EmptyString => false
  | String c _ => f c
  end.

Fixpoint lastIs (f : ascii -> bool) (s : string) : bool :=
  match s with
  | EmptyString => false
  | String c EmptyString => f c
  | String _ s' => lastIs f s'
  end.

Fixpoint noDoubleDash (s : string) : bool :=
  match s with
  | EmptyString => true
  | String c s' => negb (isDash c && headIs isDash s') && noDoubleDash s'
  end.

(** Lower-case letters, digits and hyphens; no hyphen at either end and no
    two in a row. *)
Definition slugShape (s : string) : bool :=
  allChars (fun c => isDash c || isSlugChar c) s
  && noDoubleDash s && negb (headIs isDash s) && negb (lastIs isDash s).

(** * Properties *)

(** ** Substring search and glob patterns *)

Lemma startsWith_empty (s : string) : startsWith s EmptyString = true.
Proof. destruct s; reflexivity. Qed.

Lemma includes_empty (s : string) : includes s EmptyString = true.
Proof. destruct s; reflexivity. Qed.

Lemma globParse_star (r : string) :
  globParse None (String "*" r) = GStar :: globParse None r.
Proof. reflexivity. Qed.

Lemma globParse_lit (c : ascii) (r : string) :
  isGlobMeta c = false ->
  globParse None (String c r) = GLit c :: globParse None r.
Proof.
  unfold isGlobMeta. intros H.
  apply orb_false_elim in H as [H Hb].
  apply orb_false_elim in H as [H Hc].
  apply orb_false_elim in H as [Ha Hq].
  simpl. rewrite Ha, Hq, Hc, Hb. reflexivity.
Qed.

Lemma globParse_free (p q : string) :
  globFree p = true ->
  globParse None (p ++ q) = (lits p ++ globParse None q)%list.
Proof.
  induction p as [|c p IH]; intros H; [reflexivity|].
  simpl in H. apply andb_prop in H as [Hc Hp].
  apply negb_true_iff in Hc.
  change (String c p ++ q) with (String c (p ++ q)).
  rewrite (globParse_lit _ _ Hc), (IH Hp). reflexivity.
Qed.

Lemma globToks_star_unfold (ts : list gtok) (s : string) :
  globToks (GStar :: ts) s =
  globToks ts s
  || match s with
     | EmptyString => false
     | String _ s' => globToks (GStar :: ts) s'
     end.
Proof. destruct s; reflexivity. Qed.

Lemma globToks_star_nil (s : string) : globToks [GStar] s = true.
Proof.
  induction s as [|a s IH]; [reflexivity|].
  rewrite globToks_star_unfold, IH. apply orb_true_r.
Qed.

Lemma globToks_lits_star (p s : string) :
  globToks (lits p ++ [GStar]) s = startsWith s p.
Proof.
  revert s. induction p as [|c p IH]; intros s.
  - rewrite startsWith_empty. apply globToks_star_nil.
  - destruct s as [|a s]; [reflexivity|].
    simpl. rewrite IH. reflexivity.
Qed.

(** For a pattern without glob operators, [KEYS *pattern*] selects exactly
    the keys that [includes] selects. *)
Lemma globMatch_includes (p key : string) :
  globFree p = true ->
  globMatch ("*" ++ p ++ "*") key = includes key p.
Proof.
  intros H. unfold globMatch.
  change ("*" ++ p ++ "*") with (String "*" (p ++ "*")).
  rewrite globParse_star, (globParse_free _ _ H).
  change (globParse None "*") with [GStar].
  induction key as [|a key IH].
  - rewrite globToks_star_unfold, globToks_lits_star. simpl.
    rewrite orb_false_r. reflexivity.
  - rewrite globToks_star_unfold, globToks_lits_star, IH. reflexivity.
Qed.

(** ** Deleting keys from the two stores *)

Lemma nc_del1_data (key : string) (c : NodeCache) :
  data (snd (nc_del1 key c)) = delete key (data c).
Proof.
  unfold nc_del1. destruct (data c !! key) eqn:E; simpl; [reflexivity|].
  symmetry. by apply delete_id.
Qed.

Lemma nc_del1_options (key : string) (c : NodeCache) :
  options (snd (nc_del1 key c)) = options c.
Proof. unfold nc_del1. by destruct (data c !! key). Qed.

Lemma nc_del_options (ks : list string) (c : NodeCache) :
  options (snd (nc_del ks c)) = options c.
Proof.
  revert c. induction ks as [|key ks IH]; intros c; [reflexivity|].
  simpl. destruct (nc_del1 key c) as [n c1] eqn:E1.
  destruct (nc_del ks c1) as [m c2] eqn:E2. simpl.
  change c2 with (snd (m, c2)). rewrite <- E2, IH.
  change c1 with (snd (n, c1)). rewrite <- E1. apply nc_del1_options.
Qed.

Lemma nc_del_lookup (ks : list string) (c : NodeCache) (k : string) :
  data (snd (nc_del ks c)) !! k =
  if decide (k ∈ ks) then None else data c !! k.
Proof.
  revert c. induction ks as [|key ks IH]; intros c.
  - cbn [nc_del snd]. by rewrite decide_False by set_solver.
  - cbn [nc_del]. destruct (nc_del1 key c) as [n c1] eqn:E1.
    destruct (nc_del ks c1) as [m c2] eqn:E2. cbn [snd].
    change c2 with (snd (m, c2)). rewrite <- E2, IH.
    change c1 with (snd (n, c1)). rewrite <- E1, nc_del1_data.
    destruct (decide (k = key)) as [->|Hne].
    + rewrite lookup_delete_eq.
      destruct (decide (key ∈ ks)), (decide (key ∈ key :: ks)) as [|Hn];
        try done; exfalso; apply Hn, elem_of_cons; by left.
    + rewrite lookup_delete_ne by done.
      destruct (decide (k ∈ ks)) as [Hi|Hi], (decide (k ∈ key :: ks)) as [Hc|Hc];
        try done.
      * exfalso. apply Hc, elem_of_cons. by right.
      * apply elem_of_cons in Hc as [?|?]; done.
Qed.

(** The count that [del] returns is the number of entries that went away. *)
Lemma nc_del_count (ks : list string) (c : NodeCache) :
  (fst (nc_del ks c) + size (data (snd (nc_del ks c))) = size (data c))%nat.
Proof.
  revert c. induction ks as [|key ks IH]; intros c; [reflexivity|].
  simpl. destruct (nc_del1 key c) as [n c1] eqn:E1.
  destruct (nc_del ks c1) as [m c2] eqn:E2. simpl.
  specialize (IH c1). rewrite E2 in IH. simpl in IH.
  unfold nc_del1 in E1. destruct (data c !! key) eqn:E.
  - inversion E1; subst; clear E1. simpl in IH.
    rewrite map_size_delete_Some in IH by eauto.
    assert (size (data c) ≠ 0%nat).
    { apply map_size_non_empty_iff. intros He. rewrite He in E.
      by rewrite lookup_empty in E. }
    lia.
  - inversion E1; subst; clear E1. lia.
Qed.

(** When every listed key is stored and none is listed twice, all of them
    are counted. *)
Lemma nc_del_count_all (ks : list string) (c : NodeCache) :
  NoDup ks -> (forall k, k ∈ ks -> is_Some (data c !! k)) ->
  fst (nc_del ks c) = List.length ks.
Proof.
  revert c. induction ks as [|key ks IH]; intros c Hnd Hin; [reflexivity|].
  simpl. destruct (nc_del1 key c) as [n c1] eqn:E1.
  destruct (nc_del ks c1) as [m c2] eqn:E2. simpl.
  apply NoDup_cons in Hnd as [Hnotin Hnd].
  assert (Hc1 : data c1 = delete key (data c)).
  { change c1 with (snd (n, c1)). rewrite <- E1. apply nc_del1_data. }
  assert (Hm : m = List.length ks).
  { change m with (fst (m, c2)). rewrite <- E2. apply IH; [done|].
    intros k Hk. rewrite Hc1, lookup_delete_ne; [apply Hin; set_solver|].
    intros ->. done. }
  destruct (Hin key) as [e He]; [set_solver|].
  unfold nc_del1 in E1. rewrite He in E1. inversion E1; subst. reflexivity.
Qed.

Lemma deleteAll_lookup (ks : list string) (m : gmap string REntry) (k : string) :
  snd (deleteAll ks m) !! k = if decide (k ∈ ks) then None else m !! k.
Proof.
  revert m. induction ks as [|key ks IH]; intros m.
  - cbn [deleteAll snd]. by rewrite decide_False by set_solver.
  - cbn [deleteAll]. destruct (deleteAll ks (delete key m)) as [n m'] eqn:E.
    cbn [snd]. change m' with (snd (n, m')). rewrite <- E, IH.
    destruct (decide (k = key)) as [->|Hne].
    + rewrite lookup_delete_eq.
      destruct (decide (key ∈ ks)), (decide (key ∈ key :: ks)) as [|Hn];
        try done; exfalso; apply Hn, elem_of_cons; by left.
    + rewrite lookup_delete_ne by done.
      destruct (decide (k ∈ ks)) as [Hi|Hi], (decide (k ∈ key :: ks)) as [Hc|Hc];
        try done.
      * exfalso. apply Hc, elem_of_cons. by right.
      * apply elem_of_cons in Hc as [?|?]; done.
Qed.

Lemma deleteAll_count (ks : list string) (m : gmap string REntry) :
  (fst (deleteAll ks m) + size (snd (deleteAll ks m)) = size m)%nat.
Proof.
  revert m. induction ks as [|key ks IH]; intros m; [reflexivity|].
  simpl. destruct (deleteAll ks (delete key m)) as [n m'] eqn:E. simpl.
  specialize (IH (delete key m)). rewrite E in IH. simpl in IH.
  destruct (m !! key) eqn:Ek.
  - rewrite map_size_delete_Some in IH by eauto.
    assert (size m ≠ 0%nat).
    { apply map_size_non_empty_iff. intros He. rewrite He in Ek.
      by rewrite lookup_empty in Ek. }
    lia.
  - rewrite map_size_delete_None in IH by done. lia.
Qed.

Lemma deleteAll_count_all (ks : list string) (m : gmap string REntry) :
  NoDup ks -> (forall k, k ∈ ks -> is_Some (m !! k)) ->
  fst (deleteAll ks m) = List.length ks.
Proof.
  revert m. induction ks as [|key ks IH]; intros m Hnd Hin; [reflexivity|].
  simpl. destruct (deleteAll ks (delete key m)) as [n m'] eqn:E. simpl.
  apply NoDup_cons in Hnd as [Hnotin Hnd].
  assert (Hn : n = List.length ks).
  { change n with (fst (n, m')). rewrite <- E. apply IH; [done|].
    intros k Hk. rewrite lookup_delete_ne; [apply Hin; set_solver|].
    intros ->. done. }
  destruct (Hin key) as [e He]; [set_solver|]. rewrite He. lia.
Qed.

(** The keys that [filter] keeps out of the key list of a map. *)
Lemma elem_of_filter_keys {A} (f : string -> bool) (m : gmap string A) (k : string) :
  k ∈ List.filter f (map_to_list m).*1 <-> f k = true /\ is_Some (m !! k).
Proof.
  rewrite list_elem_of_In, List.filter_In, <- list_elem_of_In.
  rewrite list_elem_of_fmap. split.
  - intros [[[k' x] [-> Hx]] Hf]. split; [done|].
    apply elem_of_map_to_list in Hx. eauto.
  - intros [Hf [x Hx]]. split; [|done].
    exists (k, x). split; [done|]. by apply elem_of_map_to_list.
Qed.

Lemma NoDup_filter_keys {A} (f : string -> bool) (m : gmap string A) :
  NoDup (List.filter f (map_to_list m).*1).
Proof. apply NoDup_ListNoDup, List.NoDup_filter, NoDup_ListNoDup, NoDup_fst_map_to_list. Qed.

Lemma r_live_lookup (n : Z) (m : gmap string REntry) (k : string) :
  r_live n m !! k =
  match m !! k with
  | Some e => if decide (n < expireAt e) then Some e else None
  | None => None
  end.
Proof.
  unfold r_live. rewrite map_lookup_filter.
  destruct (m !! k) as [e|]; simpl; [|done].
  destruct (decide (n < expireAt e)).
  - by rewrite option_guard_True.
  - by rewrite option_guard_False.
Qed.

Lemma r_live_idem (n : Z) (m : gmap string REntry) :
  r_live n (r_live n m) = r_live n m.
Proof.
  apply map_eq. intros k. rewrite !r_live_lookup.
  destruct (m !! k) as [e|]; [|done].
  destruct (decide (n < expireAt e)) as [H|H]; [|done].
  by rewrite decide_True.
Qed.

(** ** Pattern invalidation *)

(** Running a computation of the monad: unfold its combinators and the
    calls on the two singletons, keep the store operations folded. *)
Create HintDb cache_run.
#[local] Hint Unfold tryCatch bind ret throw process_exit logger_debug
  logger_info logger_error memoryCache_get memoryCache_set memoryCache_keys
  memoryCache_del memoryCache_flushAll redisClient_isOpen redisClient_get
  redisClient_setEx redisClient_keys redisClient_del redisClient_flushDb
  liftRedis JSON_stringify parseJSON r_get r_setEx r_keys r_del r_flushDb
  : cache_run.

Ltac run_monad :=
  repeat progress
    (autounfold with cache_run;
     cbn -[r_live nc_del deleteAll globMatch includes nc_keys nc_get nc_set
           written map_to_list connectLoop Z.min Z.mul Z.add Z.leb Z.ltb]).

Ltac run_with H := repeat progress (run_monad; rewrite ?H).

(** What [clearCacheByPattern] does, step by step, with the client open. *)
Lemma clearCacheByPattern_open (p : string) (w : World) :
  isOpen (redisClient w) = true ->
  let kd := List.filter (fun key => includes key p) (nc_keys (memoryCache w)) in
  let live := r_live (now w) (server (redisClient w)) in
  let rk := List.filter (globMatch ("*" ++ p ++ "*")) (map_to_list live).*1 in
  clearCacheByPattern p w =
  (Ok JUndefined,
   emit (LogDebug (ClearedCachePattern p (List.length kd + List.length rk)))
     (withRedis (withMemory w (snd (nc_del kd (memoryCache w))))
        (withServer (redisClient w) (snd (deleteAll rk live))))).
Proof.
  intros Hopen kd live rk.
  unfold clearCacheByPattern. run_monad.
  fold kd. destruct (nc_del kd (memoryCache w)) as [n c'] eqn:Ed.
  run_with Hopen. fold live. fold rk.
  destruct rk as [|k0 rk0] eqn:Erk.
  - reflexivity.
  - run_with Hopen.
    replace (r_live (now w) live) with live by (symmetry; apply r_live_idem).
    destruct (deleteAll (k0 :: rk0) live) as [nr m'] eqn:Edr.
    reflexivity.
Qed.

(** With the client closed the distributed tier is not contacted and nothing
    is logged. *)
Lemma clearCacheByPattern_closed (p : string) (w : World) :
  isOpen (redisClient w) = false ->
  let kd := List.filter (fun key => includes key p) (nc_keys (memoryCache w)) in
  clearCacheByPattern p w =
  (Ok JUndefined, withMemory w (snd (nc_del kd (memoryCache w)))).
Proof.
  intros Hopen kd.
  unfold clearCacheByPattern. run_monad.
  fold kd. destruct (nc_del kd (memoryCache w)) as [n c'] eqn:Ed.
  run_with Hopen. reflexivity.
Qed.

Lemma nc_del_removedExactly (p : string) (c : NodeCache) :
  removedExactly p (data c)
    (data (snd (nc_del (List.filter (fun key => includes key p) (nc_keys c)) c))).
Proof.
  intros k. rewrite nc_del_lookup. unfold nc_keys.
  destruct (decide (k ∈ List.filter (λ key, includes key p) (map_to_list (data c)).*1))
    as [Hin|Hnin].
  - apply elem_of_filter_keys in Hin as [-> _]. done.
  - destruct (includes k p) eqn:Ei; [|done].
    destruct (data c !! k) as [e|] eqn:Ek; [|done].
    exfalso. apply Hnin, elem_of_filter_keys. eauto.
Qed.

Lemma deleteAll_removedExactly (f : string -> bool) (p : string)
    (m : gmap string REntry) :
  (forall k, f k = includes k p) ->
  removedExactly p m (snd (deleteAll (List.filter f (map_to_list m).*1) m)).
Proof.
  intros Hf k. rewrite deleteAll_lookup.
  destruct (decide (k ∈ List.filter f (map_to_list m).*1)) as [Hin|Hnin].
  - apply elem_of_filter_keys in Hin as [Hk _]. by rewrite <- Hf, Hk.
  - destruct (includes k p) eqn:Ei; [|done].
    destruct (m !! k) as [e|] eqn:Ek; [|done].
    exfalso. apply Hnin, elem_of_filter_keys. rewrite Hf. eauto.
Qed.

Lemma nc_del_filter_count (f : string -> bool) (c : NodeCache) :
  List.length (List.filter f (nc_keys c)) =
  removedCount (data c) (data (snd (nc_del (List.filter f (nc_keys c)) c))).
Proof.
  unfold removedCount.
  pose proof (nc_del_count (List.filter f (nc_keys c)) c) as Hc.
  rewrite nc_del_count_all in Hc.
  - lia.
  - apply NoDup_filter_keys.
  - intros k Hk. by apply elem_of_filter_keys in Hk as [_ ?].
Qed.

Lemma deleteAll_filter_count (f : string -> bool) (m : gmap string REntry) :
  List.length (List.filter f (map_to_list m).*1) =
  removedCount m (snd (deleteAll (List.filter f (map_to_list m).*1) m)).
Proof.
  unfold removedCount.
  pose proof (deleteAll_count (List.filter f (map_to_list m).*1) m) as Hc.
  rewrite deleteAll_count_all in Hc.
  - lia.
  - apply NoDup_filter_keys.
  - intros k Hk. by apply elem_of_filter_keys in Hk as [_ ?].
Qed.

(** C1 (as amended).  For a pattern without glob operators,
    [clearCacheByPattern] removes from the memory tier and, when the client
    is open, from the distributed tier exactly the keys that contain the
    pattern, and leaves every other key as it was.  It returns [undefined]:
    the combined count of the keys removed goes to the debug log, when the
    client is open.  With the client closed the distributed tier is left
    alone and nothing is logged. *)
Theorem clearCacheByPattern_removes_matching (p : string) (w : World) :
  globFree p = true ->
  exists w',
    clearCacheByPattern p w = (Ok JUndefined, w')
    /\ removedExactly p (data (memoryCache w)) (data (memoryCache w'))
    /\ if isOpen (redisClient w) then
         removedExactly p (r_live (now w) (server (redisClient w)))
                        (server (redisClient w'))
         /\ trace w' =
            (trace w ++
             [LogDebug (ClearedCachePattern p
                (removedCount (data (memoryCache w)) (data (memoryCache w'))
                 + removedCount (r_live (now w) (server (redisClient w)))
                                (server (redisClient w'))))])%list
       else redisClient w' = redisClient w /\ trace w' = trace w.
Proof.
  intros Hp. destruct (isOpen (redisClient w)) eqn:Hopen.
  - eexists. split; [apply (clearCacheByPattern_open p w Hopen)|].
    cbn [emit withRedis withMemory memoryCache redisClient trace withServer server].
    split; [apply nc_del_removedExactly|]. split.
    + apply deleteAll_removedExactly. intros k. by apply globMatch_includes.
    + by rewrite <- nc_del_filter_count, <- deleteAll_filter_count.
  - eexists. split; [apply (clearCacheByPattern_closed p w Hopen)|].
    cbn [withMemory memoryCache redisClient trace].
    split; [apply nc_del_removedExactly|]. done.
Qed.

(** The keys of section 8: ["products"] clears the first two in both tiers
    and leaves ["other:c"]; the log shows a count of 4. *)
Lemma clearCacheByPattern_removes_matching_witness :
  globFree "products" = true
  /\ exists w',
       clearCacheByPattern "products" threeKeys = (Ok JUndefined, w')
       /\ removedExactly "products" (data (memoryCache threeKeys))
                         (data (memoryCache w'))
       /\ if isOpen (redisClient threeKeys) then
            removedExactly "products"
              (r_live (now threeKeys) (server (redisClient threeKeys)))
              (server (redisClient w'))
            /\ trace w' =
               (trace threeKeys ++
                [LogDebug (ClearedCachePattern "products"
                   (removedCount (data (memoryCache threeKeys))
                                 (data (memoryCache w'))
                    + removedCount
                        (r_live (now threeKeys) (server (redisClient threeKeys)))
                        (server (redisClient w'))))])%list
          else redisClient w' = redisClient threeKeys
               /\ trace w' = trace threeKeys.
Proof.
  split; [reflexivity|].
  apply (clearCacheByPattern_removes_matching "products" threeKeys).
  reflexivity.
Defined.

(** C1 (as stated) fails.  With two cached responses in both tiers,
    [clearCacheByPattern("?")] removes ["cache:/api/v1/brands"] from the
    distributed tier although the key holds no question mark (the memory
    tier keeps it), and the call returns [undefined], not a count. *)
Lemma clearCacheByPattern_counterexample :
  includes "cache:/api/v1/brands" "?" = false
  /\ is_Some (r_live (now twoUrls) (server (redisClient twoUrls))
               !! "cache:/api/v1/brands")
  /\ server (redisClient (after (clearCacheByPattern "?") twoUrls))
       !! "cache:/api/v1/brands" = None
  /\ is_Some (data (memoryCache (after (clearCacheByPattern "?") twoUrls))
               !! "cache:/api/v1/brands")
  /\ fst (clearCacheByPattern "?" twoUrls) = Ok JUndefined.
Proof.
  split; [reflexivity|]. split; [vm_compute; eauto|].
  split; [vm_compute; reflexivity|]. split; [vm_compute; eauto|].
  vm_compute; reflexivity.
Qed.

(** The three effects of [clearCacheByPattern], one store at a time. *)
Lemma clearCacheByPattern_memory (p : string) (w : World) :
  removedExactly p (data (memoryCache w))
                 (data (memoryCache (after (clearCacheByPattern p) w))).
Proof.
  unfold after. destruct (isOpen (redisClient w)) eqn:Hopen.
  - rewrite (clearCacheByPattern_open p w Hopen). apply nc_del_removedExactly.
  - rewrite (clearCacheByPattern_closed p w Hopen). apply nc_del_removedExactly.
Qed.

Lemma clearCacheByPattern_redis_open (p : string) (w : World) :
  globFree p = true -> isOpen (redisClient w) = true ->
  removedExactly p (r_live (now w) (server (redisClient w)))
                 (server (redisClient (after (clearCacheByPattern p) w))).
Proof.
  intros Hp Hopen. unfold after. rewrite (clearCacheByPattern_open p w Hopen).
  apply deleteAll_removedExactly. intros k. by apply globMatch_includes.
Qed.

Lemma clearCacheByPattern_redis_closed (p : string) (w : World) :
  isOpen (redisClient w) = false ->
  redisClient (after (clearCacheByPattern p) w) = redisClient w.
Proof.
  intros Hopen. unfold after. by rewrite (clearCacheByPattern_closed p w Hopen).
Qed.

Lemma clearCacheByPattern_returns (p : string) (w : World) :
  fst (clearCacheByPattern p w) = Ok JUndefined.
Proof.
  destruct (isOpen (redisClient w)) eqn:Hopen.
  - by rewrite (clearCacheByPattern_open p w Hopen).
  - by rewrite (clearCacheByPattern_closed p w Hopen).
Qed.

Lemma removedExactly_all {A} (before after : gmap string A) :
  removedExactly EmptyString before after -> after = ∅.
Proof.
  intros H. apply map_empty. intros k. by rewrite H, includes_empty.
Qed.

Lemma clearAllCache_run (w : World) :
  clearAllCache w =
  (Ok JUndefined,
   emit (LogDebug AllCacheCleared)
     (withRedis (withMemory w (nc_flushAll (memoryCache w)))
        (if isOpen (redisClient w) then withServer (redisClient w) ∅
         else redisClient w))).
Proof.
  unfold clearAllCache. destruct (isOpen (redisClient w)) eqn:Hopen;
    run_with Hopen; reflexivity.
Qed.

(** C10.  [clearCacheByPattern] with the empty pattern is total eviction.
    For every state the call returns without raising, the memory tier is
    empty afterwards, and with the client open so is the distributed
    keyspace; on the stored keys this is what [clearAllCache] leaves.  With
    the client closed neither function touches the distributed tier. *)
Theorem clearCacheByPattern_empty_pattern_total (w : World) :
  fst (clearCacheByPattern EmptyString w) = Ok JUndefined
  /\ data (memoryCache (after (clearCacheByPattern EmptyString) w)) = ∅
  /\ data (memoryCache (after (clearCacheByPattern EmptyString) w))
     = data (memoryCache (after clearAllCache w))
  /\ if isOpen (redisClient w) then
       server (redisClient (after (clearCacheByPattern EmptyString) w)) = ∅
       /\ server (redisClient (after (clearCacheByPattern EmptyString) w))
          = server (redisClient (after clearAllCache w))
     else
       redisClient (after (clearCacheByPattern EmptyString) w) = redisClient w
       /\ redisClient (after clearAllCache w) = redisClient w.
Proof.
  assert (Hm : data (memoryCache (after (clearCacheByPattern EmptyString) w)) = ∅)
    by (eapply removedExactly_all, clearCacheByPattern_memory).
  split; [apply clearCacheByPattern_returns|]. split; [exact Hm|].
  split.
  { rewrite Hm. unfold after. by rewrite clearAllCache_run. }
  destruct (isOpen (redisClient w)) eqn:Hopen.
  - assert (Hr : server (redisClient (after (clearCacheByPattern EmptyString) w)) = ∅)
      by (eapply removedExactly_all, clearCacheByPattern_redis_open; done).
    split; [exact Hr|]. rewrite Hr. unfold after.
    by rewrite clearAllCache_run, Hopen.
  - split; [by apply clearCacheByPattern_redis_closed|].
    unfold after. by rewrite clearAllCache_run, Hopen.
Qed.

(** ** Which keys a pattern reaches *)


Lemma startsWith_spec (s p : string) :
  startsWith s p = true <-> exists b, s = p ++ b.
Proof.
  revert s. induction p as [|c p IH]; intros s.
  - rewrite startsWith_empty. split; [eauto|done].
  - destruct s as [|a s]; simpl.
    + split; [done|]. by intros [b Hb].
    + rewrite andb_true_iff, IH, Ascii.eqb_eq. split.
      * intros [-> [b ->]]. eauto.
      * intros [b Hb]. inversion Hb; subst. eauto.
Qed.

Lemma includes_spec (s p : string) :
  includes s p = true <-> exists a b, s = a ++ p ++ b.
Proof.
  induction s as [|x s IH].
  - cbn [includes]. rewrite orb_false_r, startsWith_spec. split.
    + intros [b Hb]. by exists EmptyString, b.
    + intros [a [b Hb]]. destruct a; [eauto|done].
  - cbn [includes]. rewrite orb_true_iff, IH, startsWith_spec. split.
    + intros [[b Hb]|[a [b Hb]]].
      * by exists EmptyString, b.
      * exists (String x a), b. by rewrite Hb.
    + intros [a [b Hb]]. destruct a as [|y a].
      * left. eauto.
      * right. inversion Hb; subst. eauto.
Qed.


Lemma clearCacheByPattern_goneFrom (p key : string) (w : World) :
  globFree p = true -> includes key p = true ->
  goneFrom key w (after (clearCacheByPattern p) w).
Proof.
  intros Hp Hk. split.
  - by rewrite (clearCacheByPattern_memory p w key), Hk.
  - destruct (isOpen (redisClient w)) eqn:Hopen.
    + by rewrite (clearCacheByPattern_redis_open p w Hp Hopen key), Hk.
    + by apply clearCacheByPattern_redis_closed.
Qed.





(** ** The memory tier: capacity, writes and reads *)

Lemma nc_set_full (n : Z) (key : string) (x : jsval) (ttl : Z) (c : NodeCache) :
  0 <= maxKeys (options c) -> maxKeys (options c) <= keys (stats c) ->
  nc_set n key x ttl c = Throw ECACHEFULL.
Proof.
  intros H0 H1. unfold nc_set.
  replace (-1 <? maxKeys (options c)) with true by (symmetry; apply Z.ltb_lt; lia).
  replace (maxKeys (options c) <=? keys (stats c)) with true
    by (symmetry; apply Z.leb_le; lia).
  reflexivity.
Qed.

Lemma nc_set_below (n : Z) (key : string) (x : jsval) (ttl : Z) (c : NodeCache) :
  belowCapacity c ->
  exists c',
    nc_set n key x ttl c = Ok c'
    /\ data c' = <[key := _wrap n x ttl]> (data c)
    /\ options c' = options c
    /\ keys (stats c') = match data c !! key with
                         | Some _ => keys (stats c)
                         | None => keys (stats c) + 1
                         end.
Proof.
  intros Hb. unfold nc_set.
  assert ((-1 <? maxKeys (options c)) && (maxKeys (options c) <=? keys (stats c))
          = false) as ->.
  { apply andb_false_iff. destruct Hb as [Hb|Hb].
    - left. apply Z.ltb_ge. lia.
    - right. apply Z.leb_gt. lia. }
  destruct (data c !! key); eexists; repeat split; reflexivity.
Qed.

(** A write keeps the key counter in step with the store, and the store
    within the configured ceiling. *)
Lemma nc_set_bounded (n : Z) (key : string) (x : jsval) (ttl : Z) (c c' : NodeCache) :
  0 <= maxKeys (options c) ->
  nc_consistent c -> Z.of_nat (size (data c)) <= maxKeys (options c) ->
  nc_set n key x ttl c = Ok c' ->
  nc_consistent c' /\ Z.of_nat (size (data c')) <= maxKeys (options c').
Proof.
  unfold nc_consistent. intros H0 Hc Hs Hset.
  destruct (Z.le_gt_cases (maxKeys (options c)) (keys (stats c))) as [Hfull|Hroom].
  - by rewrite nc_set_full in Hset.
  - destruct (nc_set_below n key x ttl c) as (c2 & E & Hd & Ho & Hk);
      [by right|].
    rewrite E in Hset. inversion Hset; subst c2. rewrite Hd, Ho, Hk.
    destruct (data c !! key) as [e|] eqn:Ek.
    + rewrite map_size_insert_Some by eauto. lia.
    + rewrite map_size_insert_None by done. lia.
Qed.

Lemma nc_get_absent (n : Z) (key : string) (c : NodeCache) :
  data c !! key = None -> nc_get n key c = (JUndefined, bumpMisses c).
Proof. intros H. unfold nc_get. by rewrite H. Qed.

Lemma nc_get_live (n : Z) (key : string) (c : NodeCache) (e : Entry) :
  data c !! key = Some e -> t e = 0 \/ n <= t e ->
  nc_get n key c = (v e, bumpHits c).
Proof.
  intros H Hl. unfold nc_get, _check. rewrite H.
  assert (negb (t e =? 0) && (t e <? n) = false) as ->; [|reflexivity].
  apply andb_false_iff. destruct Hl as [Hl|Hl].
  - left. apply negb_false_iff, Z.eqb_eq, Hl.
  - right. apply Z.ltb_ge, Hl.
Qed.

Lemma wrap_live (n : Z) (x : jsval) (ttl : Z) :
  0 <= ttl -> t (_wrap n x ttl) = 0 \/ n <= t (_wrap n x ttl).
Proof.
  intros H. unfold _wrap. destruct (ttl =? 0); simpl; [by left|right; lia].
Qed.

Lemma wrap_value (n : Z) (x : jsval) (ttl : Z) : v (_wrap n x ttl) = x.
Proof. unfold _wrap. by destruct (ttl =? 0). Qed.

(** ** The facade: [setCache] and [getCache] *)

(** Whatever the distributed tier does, [setCache] below capacity leaves the
    memory tier as [set] made it. *)
Lemma setCache_memory (key : string) (x : jsval) (ttl : Z) (useRedis : bool)
    (w : World) (c' : NodeCache) :
  nc_set (now w) key x (Z.min ttl 300) (memoryCache w) = Ok c' ->
  memoryCache (after (setCache key x ttl useRedis) w) = c'
  /\ now (after (setCache key x ttl useRedis) w) = now w.
Proof.
  intros E. unfold after, setCache. run_with E.
  destruct (useRedis && isOpen (redisClient w)) eqn:Eu; [|by run_monad].
  apply andb_prop in Eu as [_ Hopen].
  destruct x; run_with Hopen; try (destruct (ttl <=? 0); by run_monad).
Qed.

Lemma getCache_memory_hit (key : string) (useRedis : bool) (w : World) (e : Entry) :
  data (memoryCache w) !! key = Some e ->
  t e = 0 \/ now w <= t e ->
  truthy (v e) = true ->
  getCache key useRedis w = (Ok (v e), withMemory w (bumpHits (memoryCache w))).
Proof.
  intros Hk Hl Ht. unfold getCache. run_monad.
  rewrite (nc_get_live _ _ _ _ Hk Hl). run_with Ht. reflexivity.
Qed.

(** C7 (as amended).  For every key, every truthy value [x] (an object, an
    array, a non-empty string, a non-zero number, [true]) and every
    [ttl > 0], after [setCache(k, x, ttl)] on a memory tier below capacity an
    immediate [getCache(k)] returns [x]. *)
Theorem setCache_then_getCache (w : World) (key : string) (x : jsval)
    (ttl : Z) (useRedis useRedis' : bool) :
  0 < ttl -> truthy x = true -> belowCapacity (memoryCache w) ->
  fst (getCache key useRedis' (after (setCache key x ttl useRedis) w)) = Ok x.
Proof.
  intros Httl Hx Hb.
  destruct (nc_set_below (now w) key x (Z.min ttl 300) (memoryCache w) Hb)
    as (c' & E & Hd & _ & _).
  destruct (setCache_memory key x ttl useRedis w c' E) as [Hm Hn].
  erewrite getCache_memory_hit.
  - simpl. by rewrite wrap_value.
  - rewrite Hm, Hd. apply lookup_insert_eq.
  - rewrite Hn. apply wrap_live. lia.
  - by rewrite wrap_value.
Qed.

Lemma setCache_then_getCache_witness :
  0 < 600 /\ truthy sampleList = true
  /\ belowCapacity (memoryCache (freshWorld false))
  /\ fst (getCache "product:64b7f0c2a1" true
            (after (setCache "product:64b7f0c2a1" sampleList 600 true)
                   (freshWorld false)))
     = Ok sampleList.
Proof.
  assert (Hb : belowCapacity (memoryCache (freshWorld false)))
    by (right; reflexivity).
  split; [reflexivity|]. split; [reflexivity|]. split; [exact Hb|].
  apply (setCache_then_getCache (freshWorld false) "product:64b7f0c2a1"
           sampleList 600 true true); [reflexivity|reflexivity|exact Hb].
Defined.

(** C7 (as stated) fails for a falsy value.  With the distributed tier not
    connected, [setCache("stock:42", 0, 300)] stores the number in the memory
    tier and the [getCache("stock:42")] that follows returns [null]. *)
Lemma setCache_then_getCache_counterexample :
  let w1 := after (setCache "stock:42" (JNum 0) 300 true) (freshWorld false) in
  belowCapacity (memoryCache (freshWorld false))
  /\ data (memoryCache w1) !! "stock:42" = Some (mkEntry 300000 (JNum 0))
  /\ fst (getCache "stock:42" true w1) = Ok JNull.
Proof.
  split; [right; reflexivity|]. split; vm_compute; reflexivity.
Qed.

(** At capacity [setCache] only logs. *)
Lemma setCache_full (w : World) (key : string) (x : jsval) (ttl : Z)
    (useRedis : bool) :
  0 <= maxKeys (options (memoryCache w)) ->
  maxKeys (options (memoryCache w)) <= keys (stats (memoryCache w)) ->
  setCache key x ttl useRedis w =
  (Ok JUndefined, emit (LogError (SetCacheError ECACHEFULL)) w).
Proof.
  intros H0 H1. unfold setCache. run_monad. by rewrite nc_set_full.
Qed.

(** C5 (as amended).  When the memory tier holds its configured maximum of
    5000 keys, [set] does not evict: the write of a new key is rejected with
    ECACHEFULL, which [setCache] logs and absorbs.  The key is not stored,
    every existing entry stays, the key count stays at the ceiling, and the
    distributed tier is not written either. *)
Theorem setCache_at_capacity (w : World) (key : string) (x : jsval) (ttl : Z)
    (useRedis : bool) :
  options (memoryCache w) = memoryCacheOptions ->
  nc_consistent (memoryCache w) ->
  size (data (memoryCache w)) = 5000%nat ->
  data (memoryCache w) !! key = None ->
  setCache key x ttl useRedis w =
  (Ok JUndefined, emit (LogError (SetCacheError ECACHEFULL)) w)
  /\ data (memoryCache (after (setCache key x ttl useRedis) w)) !! key = None
  /\ size (data (memoryCache (after (setCache key x ttl useRedis) w))) = 5000%nat.
Proof.
  intros Ho Hc Hs Hk.
  assert (E : setCache key x ttl useRedis w =
              (Ok JUndefined, emit (LogError (SetCacheError ECACHEFULL)) w)).
  { apply setCache_full.
    - rewrite Ho. simpl. lia.
    - rewrite Ho, Hc, Hs. simpl. lia. }
  split; [exact E|]. unfold after. rewrite E. simpl. by split.
Qed.

Lemma setCache_at_capacity_witness :
  options (memoryCache fullWorld) = memoryCacheOptions
  /\ nc_consistent (memoryCache fullWorld)
  /\ size (data (memoryCache fullWorld)) = 5000%nat
  /\ data (memoryCache fullWorld) !! "product:64b7f0c2a1" = None
  /\ setCache "product:64b7f0c2a1" sampleList 600 true fullWorld =
     (Ok JUndefined, emit (LogError (SetCacheError ECACHEFULL)) fullWorld)
  /\ data (memoryCache
             (after (setCache "product:64b7f0c2a1" sampleList 600 true) fullWorld))
       !! "product:64b7f0c2a1" = None
  /\ size (data (memoryCache
             (after (setCache "product:64b7f0c2a1" sampleList 600 true) fullWorld)))
     = 5000%nat.
Proof.
  assert (H1 : options (memoryCache fullWorld) = memoryCacheOptions)
    by (vm_compute; reflexivity).
  assert (H2 : nc_consistent (memoryCache fullWorld))
    by (vm_compute; reflexivity).
  assert (H3 : size (data (memoryCache fullWorld)) = 5000%nat)
    by (vm_compute; reflexivity).
  assert (H4 : data (memoryCache fullWorld) !! "product:64b7f0c2a1" = None)
    by (vm_compute; reflexivity).
  split; [exact H1|]. split; [exact H2|]. split; [exact H3|]. split; [exact H4|].
  exact (setCache_at_capacity fullWorld "product:64b7f0c2a1" sampleList 600 true
           H1 H2 H3 H4).
Defined.

(** C5 (as stated) fails.  With 5000 cached pages in the memory tier,
    [setCache] of a new key stores nothing and evicts nothing: the key is
    absent afterwards and the 5000 entries from before are still there. *)
Lemma setCache_at_capacity_counterexample :
  size (data (memoryCache fullWorld)) = 5000%nat
  /\ data (memoryCache fullWorld) !! "product:64b7f0c2a1" = None
  /\ data (memoryCache
             (after (setCache "product:64b7f0c2a1" sampleList 600 true) fullWorld))
       !! "product:64b7f0c2a1" = None
  /\ size (data (memoryCache
             (after (setCache "product:64b7f0c2a1" sampleList 600 true) fullWorld)))
     = 5000%nat.
Proof.
  split; [vm_compute; reflexivity|].
  split; [vm_compute; reflexivity|].
  split; vm_compute; reflexivity.
Qed.

(** ** Time-to-live in the two tiers *)

Lemma belowCapacity_bumpMisses (c : NodeCache) :
  belowCapacity c -> belowCapacity (bumpMisses c).
Proof. intros H. exact H. Qed.

(** A write through [setCache] with the client open: the entry of each
    tier. *)
Lemma setCache_both_tiers (w : World) (key : string) (x : jsval) (ttl : Z) :
  0 < ttl -> x <> JUndefined -> belowCapacity (memoryCache w) ->
  isOpen (redisClient w) = true ->
  let w' := after (setCache key x ttl true) w in
  data (memoryCache w') !! key
  = Some (mkEntry (now w + Z.min ttl 300 * 1000) x)
  /\ server (redisClient w') !! key
     = Some (mkREntry (Ser (written (stats (memoryCache w')) x))
                      (now w + ttl * 1000)).
Proof.
  intros Httl Hx Hb Hopen.
  destruct (nc_set_below (now w) key x (Z.min ttl 300) (memoryCache w) Hb)
    as (c' & E & Hd & _ & _).
  assert (Hle : (ttl <=? 0) = false) by (apply Z.leb_gt; lia).
  assert (Hw : _wrap (now w) x (Z.min ttl 300)
               = mkEntry (now w + Z.min ttl 300 * 1000) x).
  { unfold _wrap. replace (Z.min ttl 300 =? 0) with false; [done|].
    symmetry. apply Z.eqb_neq. lia. }
  unfold after, setCache.
  destruct x; try done;
    repeat progress (run_monad; rewrite ?E, ?Hopen, ?Hle);
    rewrite Hd, Hw, !lookup_insert_eq; done.
Qed.

(** A read through [getCache] that finds the key in the distributed tier
    only: the value comes back and enters the memory tier for 60 seconds. *)
Lemma getCache_backfill (w : World) (key : string) (y : jsval) (e : Z) :
  data (memoryCache w) !! key = None ->
  belowCapacity (memoryCache w) ->
  isOpen (redisClient w) = true ->
  r_live (now w) (server (redisClient w)) !! key = Some (mkREntry (Ser y) e) ->
  fst (getCache key true w) = Ok y
  /\ data (memoryCache (after (getCache key true) w)) !! key
     = Some (mkEntry (now w + 60 * 1000) y).
Proof.
  intros Hk Hb Hopen Hr.
  destruct (nc_set_below (now w) key y 60 (bumpMisses (memoryCache w))
              (belowCapacity_bumpMisses _ Hb)) as (c' & E & Hd & _ & _).
  unfold after, getCache.
  repeat progress (run_monad; rewrite ?(nc_get_absent _ _ _ Hk), ?Hopen, ?Hr, ?E).
  rewrite Hd, lookup_insert_eq. done.
Qed.

(** C6 (as amended).  A write through [setCache] with [ttl > 0] gives the
    memory-tier entry the expiry [now + min(ttl, 300) s] and the
    distributed-tier entry the expiry [now + ttl s], so the memory tier
    expires first.  A distributed-tier hit backfills the memory tier with a
    fixed 60 s, which is below the local ceiling of 300 s and does not
    depend on the time the distributed entry has left. *)
Theorem tier_ttl_order (w : World) (key : string) (x : jsval) (ttl : Z)
    (w2 : World) (y : jsval) (e : Z) :
  0 < ttl -> x <> JUndefined -> belowCapacity (memoryCache w) ->
  isOpen (redisClient w) = true ->
  data (memoryCache w2) !! key = None ->
  belowCapacity (memoryCache w2) ->
  isOpen (redisClient w2) = true ->
  r_live (now w2) (server (redisClient w2)) !! key = Some (mkREntry (Ser y) e) ->
  (exists em er,
      data (memoryCache (after (setCache key x ttl true) w)) !! key = Some em
      /\ server (redisClient (after (setCache key x ttl true) w)) !! key = Some er
      /\ t em = now w + Z.min ttl 300 * 1000
      /\ expireAt er = now w + ttl * 1000
      /\ t em <= expireAt er)
  /\ fst (getCache key true w2) = Ok y
  /\ (exists em,
        data (memoryCache (after (getCache key true) w2)) !! key = Some em
        /\ t em = now w2 + 60 * 1000
        /\ t em <= now w2 + 300 * 1000).
Proof.
  intros Httl Hx Hb Hopen Hk2 Hb2 Hopen2 Hr2.
  destruct (setCache_both_tiers w key x ttl Httl Hx Hb Hopen) as [Hm Hr].
  destruct (getCache_backfill w2 key y e Hk2 Hb2 Hopen2 Hr2) as [Hg Hm2].
  split; [|split].
  - eexists _, _. split; [exact Hm|]. split; [exact Hr|]. simpl. lia.
  - exact Hg.
  - eexists. split; [exact Hm2|]. simpl. lia.
Qed.

Lemma tier_ttl_order_witness :
  0 < 600 /\ sampleList <> JUndefined
  /\ belowCapacity (memoryCache (freshWorld true))
  /\ isOpen (redisClient (freshWorld true)) = true
  /\ data (memoryCache sharedOnly) !! "product:64b7f0c2a1" = None
  /\ belowCapacity (memoryCache sharedOnly)
  /\ isOpen (redisClient sharedOnly) = true
  /\ r_live (now sharedOnly) (server (redisClient sharedOnly))
       !! "product:64b7f0c2a1" = Some (mkREntry (Ser sampleList) 600000)
  /\ (exists em er,
        data (memoryCache (after (setCache "product:64b7f0c2a1" sampleList 600 true)
                                 (freshWorld true)))
          !! "product:64b7f0c2a1" = Some em
        /\ server (redisClient (after (setCache "product:64b7f0c2a1" sampleList
                                                600 true) (freshWorld true)))
             !! "product:64b7f0c2a1" = Some er
        /\ t em = now (freshWorld true) + Z.min 600 300 * 1000
        /\ expireAt er = now (freshWorld true) + 600 * 1000
        /\ t em <= expireAt er)
  /\ fst (getCache "product:64b7f0c2a1" true sharedOnly) = Ok sampleList
  /\ (exists em,
        data (memoryCache (after (getCache "product:64b7f0c2a1" true) sharedOnly))
          !! "product:64b7f0c2a1" = Some em
        /\ t em = now sharedOnly + 60 * 1000
        /\ t em <= now sharedOnly + 300 * 1000).
Proof.
  assert (H1 : 0 < 600) by reflexivity.
  assert (H2 : sampleList <> JUndefined) by discriminate.
  assert (H3 : belowCapacity (memoryCache (freshWorld true)))
    by (right; reflexivity).
  assert (H4 : isOpen (redisClient (freshWorld true)) = true) by reflexivity.
  assert (H5 : data (memoryCache sharedOnly) !! "product:64b7f0c2a1" = None)
    by reflexivity.
  assert (H6 : belowCapacity (memoryCache sharedOnly)) by (right; reflexivity).
  assert (H7 : isOpen (redisClient sharedOnly) = true) by reflexivity.
  assert (H8 : r_live (now sharedOnly) (server (redisClient sharedOnly))
                 !! "product:64b7f0c2a1" = Some (mkREntry (Ser sampleList) 600000))
    by (vm_compute; reflexivity).
  repeat (split; [assumption|]).
  exact (tier_ttl_order (freshWorld true) "product:64b7f0c2a1" sampleList 600
           sharedOnly sampleList 600000 H1 H2 H3 H4 H5 H6 H7 H8).
Defined.

(** C6 (as stated) fails.  A product is cached for 400 s; at 350 s the
    memory tier no longer has it and the distributed entry has 50 s left.
    The read backfills the memory tier for 60 s: the memory-tier entry then
    expires at 410 s, after the distributed entry, which expires at 400 s. *)
Lemma tier_ttl_order_counterexample :
  now lateRead = 350000
  /\ fst (getCache "product:64b7f0c2a1" true lateRead) = Ok sampleList
  /\ t <$> data (memoryCache (after (getCache "product:64b7f0c2a1" true) lateRead))
             !! "product:64b7f0c2a1" = Some 410000
  /\ expireAt <$> server (redisClient (after (getCache "product:64b7f0c2a1" true)
                                             lateRead))
                    !! "product:64b7f0c2a1" = Some 400000.
Proof. repeat split; vm_compute; reflexivity. Qed.

(** ** The response-cache middleware *)

Ltac run_rw tac := repeat progress (run_monad; tac).

Lemma cacheMiddleware_not_get (duration : Z) (useRedis : bool) (req : Request)
    (res : Response) (next : Response -> M unit) (w : World) :
  method req <> "GET" ->
  cacheMiddleware duration useRedis req res next w = next res w.
Proof.
  intros H. unfold cacheMiddleware.
  apply String.eqb_neq in H. by rewrite H.
Qed.

Lemma cacheMiddleware_memory_hit (duration : Z) (useRedis : bool) (req : Request)
    (res : Response) (next : Response -> M unit) (w : World) (e : Entry) :
  method req = "GET" -> json res = express_json ->
  data (memoryCache w) !! ("cache:" ++ originalUrl req) = Some e ->
  t e = 0 \/ now w <= t e ->
  truthy (v e) = true ->
  cacheMiddleware duration useRedis req res next w =
  (Ok tt,
   emit (Sent (statusCode res) (written (stats (bumpHits (memoryCache w))) (v e)))
     (emit (LogDebug (MemoryCacheHit ("cache:" ++ originalUrl req)))
        (withMemory w (bumpHits (memoryCache w))))).
Proof.
  intros Hm Hj Hk Hl Ht. unfold cacheMiddleware. rewrite Hm, Hj.
  run_rw ltac:(rewrite ?(nc_get_live _ _ _ _ Hk Hl), ?Ht).
  unfold express_json. reflexivity.
Qed.

Lemma cacheMiddleware_redis_hit (duration : Z) (req : Request)
    (res : Response) (next : Response -> M unit) (w : World) (y : jsval) (e : Z) :
  method req = "GET" -> json res = express_json ->
  data (memoryCache w) !! ("cache:" ++ originalUrl req) = None ->
  belowCapacity (memoryCache w) ->
  isOpen (redisClient w) = true ->
  r_live (now w) (server (redisClient w)) !! ("cache:" ++ originalUrl req)
  = Some (mkREntry (Ser y) e) ->
  exists w',
    cacheMiddleware duration true req res next w = (Ok tt, w')
    /\ trace w' = (trace w ++
                   [LogDebug (RedisCacheHit ("cache:" ++ originalUrl req));
                    Sent (statusCode res) (written (stats (memoryCache w')) y)])%list
    /\ data (memoryCache w') !! ("cache:" ++ originalUrl req)
       = Some (mkEntry (now w + 60 * 1000) y).
Proof.
  intros Hm Hj Hk Hb Hopen Hr.
  destruct (nc_set_below (now w) ("cache:" ++ originalUrl req) y 60
              (bumpMisses (memoryCache w)) (belowCapacity_bumpMisses _ Hb))
    as (c' & E & Hd & _ & _).
  unfold cacheMiddleware. rewrite Hm, Hj.
  run_rw ltac:(rewrite ?(nc_get_absent _ _ _ Hk), ?Hopen, ?Hr, ?E).
  unfold express_json. eexists. split; [reflexivity|].
  cbn [trace emit memoryCache withMemory withRedis].
  split; [by rewrite <- app_assoc|].
  rewrite Hd, lookup_insert_eq. done.
Qed.

(** On a miss the middleware hands [next] a response whose [json] is the
    patched function; nothing else has happened but the lookups. *)
Lemma cacheMiddleware_miss (duration : Z) (useRedis : bool) (req : Request)
    (res : Response) (next : Response -> M unit) (w : World) :
  method req = "GET" ->
  data (memoryCache w) !! ("cache:" ++ originalUrl req) = None ->
  (useRedis && isOpen (redisClient w) = true ->
   r_live (now w) (server (redisClient w)) !! ("cache:" ++ originalUrl req) = None) ->
  cacheMiddleware duration useRedis req res next w =
  next (mkResponse (statusCode res)
          (patchedJson ("cache:" ++ originalUrl req) duration useRedis (json res)))
       (withRedis (withMemory w (bumpMisses (memoryCache w)))
          (if useRedis && isOpen (redisClient w)
           then withServer (redisClient w) (r_live (now w) (server (redisClient w)))
           else redisClient w)).
Proof.
  intros Hm Hk Hr. unfold cacheMiddleware. rewrite Hm.
  destruct (useRedis && isOpen (redisClient w)) eqn:Eu.
  - specialize (Hr eq_refl). apply andb_prop in Eu as [-> Hopen].
    run_rw ltac:(rewrite ?(nc_get_absent _ _ _ Hk), ?Hopen, ?Hr). reflexivity.
  - run_rw ltac:(rewrite ?(nc_get_absent _ _ _ Hk), ?Eu).
    destruct w as [n m r d tr]. destruct r. reflexivity.
Qed.

(** A response outside the 2xx range goes straight to the original
    [res.json]. *)
Lemma patchedJson_not_2xx (key : string) (duration : Z) (useRedis : bool)
    (originalJson : JsonFn) (status : Z) (x : jsval) (w : World) :
  status < 200 \/ 300 <= status ->
  patchedJson key duration useRedis originalJson status x w
  = originalJson status x w.
Proof.
  intros H. unfold patchedJson.
  assert ((200 <=? status) && (status <? 300) = false) as ->.
  { apply andb_false_iff. destruct H; [left; by apply Z.leb_gt|right; by apply Z.ltb_ge]. }
  run_monad. by destruct (originalJson status x w) as [[]].
Qed.

(** A 2xx response below capacity: the original [res.json] runs in a world
    where the memory tier has the payload for [min(duration, 300)] seconds
    and, with [useRedis] and an open client, the distributed tier has its
    text for [duration] seconds. *)
Lemma patchedJson_2xx (key : string) (duration : Z) (useRedis : bool)
    (originalJson : JsonFn) (status : Z) (x : jsval) (w : World) :
  200 <= status < 300 -> 0 < duration -> x <> JUndefined ->
  belowCapacity (memoryCache w) ->
  exists w1,
    patchedJson key duration useRedis originalJson status x w
    = originalJson status x w1
    /\ data (memoryCache w1) !! key
       = Some (mkEntry (now w + Z.min duration 300 * 1000) x)
    /\ (if useRedis && isOpen (redisClient w) then
          server (redisClient w1) !! key
          = Some (mkREntry (Ser (written (stats (memoryCache w1)) x))
                           (now w + duration * 1000))
        else redisClient w1 = redisClient w)
    /\ trace w1 = (trace w ++ [LogDebug (CacheSetMsg key duration)])%list.
Proof.
  intros Hs Hd Hx Hb.
  destruct (nc_set_below (now w) key x (Z.min duration 300) (memoryCache w) Hb)
    as (c' & E & Hdata & _ & _).
  assert (Hle : (duration <=? 0) = false) by (apply Z.leb_gt; lia).
  assert (Hw : _wrap (now w) x (Z.min duration 300)
               = mkEntry (now w + Z.min duration 300 * 1000) x).
  { unfold _wrap. replace (Z.min duration 300 =? 0) with false; [done|].
    symmetry. apply Z.eqb_neq. lia. }
  assert (Hin : (200 <=? status) && (status <? 300) = true).
  { apply andb_true_iff. split; [apply Z.leb_le|apply Z.ltb_lt]; lia. }
  unfold patchedJson. rewrite Hin.
  destruct (useRedis && isOpen (redisClient w)) eqn:Eu.
  - apply andb_prop in Eu as [-> Hopen].
    destruct x; try done;
      run_rw ltac:(rewrite ?E, ?Hopen, ?Hle);
      (eexists; split;
       [reflexivity|];
       cbn [memoryCache redisClient trace emit withMemory withRedis withServer
            server];
       rewrite Hdata, Hw, !lookup_insert_eq; done).
  - run_rw ltac:(rewrite ?E, ?Eu).
    eexists; split; [reflexivity|].
    cbn [memoryCache redisClient trace emit withMemory withRedis].
    rewrite Hdata, Hw, lookup_insert_eq. done.
Qed.

(** At capacity the patched [res.json] throws into the handler that called
    it, before anything is sent. *)
Lemma patchedJson_full (key : string) (duration : Z) (useRedis : bool)
    (originalJson : JsonFn) (status : Z) (x : jsval) (w : World) :
  200 <= status < 300 ->
  0 <= maxKeys (options (memoryCache w)) ->
  maxKeys (options (memoryCache w)) <= keys (stats (memoryCache w)) ->
  patchedJson key duration useRedis originalJson status x w
  = (Throw ECACHEFULL, w).
Proof.
  intros Hs H0 H1.
  assert (Hin : (200 <=? status) && (status <? 300) = true).
  { apply andb_true_iff. split; [apply Z.leb_le|apply Z.ltb_lt]; lia. }
  unfold patchedJson. rewrite Hin. run_monad. by rewrite nc_set_full.
Qed.

(** A distributed-tier hit at capacity: the backfill throws, the [catch]
    clause logs it and the request goes on to the handler, uncached. *)
Lemma cacheMiddleware_redis_hit_full (duration : Z) (req : Request)
    (res : Response) (next : Response -> M unit) (w : World) (y : jsval) (e : Z) :
  method req = "GET" ->
  data (memoryCache w) !! ("cache:" ++ originalUrl req) = None ->
  0 <= maxKeys (options (memoryCache w)) ->
  maxKeys (options (memoryCache w)) <= keys (stats (memoryCache w)) ->
  isOpen (redisClient w) = true ->
  r_live (now w) (server (redisClient w)) !! ("cache:" ++ originalUrl req)
  = Some (mkREntry (Ser y) e) ->
  cacheMiddleware duration true req res next w =
  next res
    (emit (LogError (CacheMiddlewareError ECACHEFULL))
       (emit (LogDebug (RedisCacheHit ("cache:" ++ originalUrl req)))
          (withRedis (withMemory w (bumpMisses (memoryCache w)))
             (withServer (redisClient w)
                (r_live (now w) (server (redisClient w))))))).
Proof.
  intros Hm Hk H0 H1 Hopen Hr.
  assert (E : nc_set (now w) ("cache:" ++ originalUrl req) y 60
                (bumpMisses (memoryCache w)) = Throw ECACHEFULL)
    by (by apply nc_set_full).
  unfold cacheMiddleware. rewrite Hm.
  run_rw ltac:(rewrite ?(nc_get_absent _ _ _ Hk), ?Hopen, ?Hr, ?E).
  reflexivity.
Qed.

(** What the memory tier answers to the lookup of the middleware:
    [memoryCache.get(key)] at the instant of the request, and the tier
    after it. *)
Lemma cacheMiddleware_truthy_hit (duration : Z) (useRedis : bool) (req : Request)
    (res : Response) (next : Response -> M unit) (w : World) :
  method req = "GET" -> json res = express_json ->
  truthy (fst (nc_get (now w) ("cache:" ++ originalUrl req) (memoryCache w)))
  = true ->
  cacheMiddleware duration useRedis req res next w =
  (Ok tt,
   emit (Sent (statusCode res)
              (written (stats (snd (nc_get (now w) ("cache:" ++ originalUrl req)
                                           (memoryCache w))))
                       (fst (nc_get (now w) ("cache:" ++ originalUrl req)
                                    (memoryCache w)))))
     (emit (LogDebug (MemoryCacheHit ("cache:" ++ originalUrl req)))
        (withMemory w (snd (nc_get (now w) ("cache:" ++ originalUrl req)
                                   (memoryCache w)))))).
Proof.
  intros Hm Hj Ht. unfold cacheMiddleware. rewrite Hm, Hj.
  destruct (nc_get (now w) ("cache:" ++ originalUrl req) (memoryCache w))
    as [m c1] eqn:E.
  cbn [fst snd] in *. run_rw ltac:(rewrite ?E, ?Ht).
  unfold express_json. reflexivity.
Qed.

Lemma cacheMiddleware_falsy_miss (duration : Z) (useRedis : bool) (req : Request)
    (res : Response) (next : Response -> M unit) (w : World) :
  method req = "GET" ->
  truthy (fst (nc_get (now w) ("cache:" ++ originalUrl req) (memoryCache w)))
  = false ->
  (useRedis && isOpen (redisClient w) = true ->
   truthyText (payload <$> r_live (now w) (server (redisClient w))
                           !! ("cache:" ++ originalUrl req)) = false) ->
  cacheMiddleware duration useRedis req res next w =
  next (mkResponse (statusCode res)
          (patchedJson ("cache:" ++ originalUrl req) duration useRedis (json res)))
       (withRedis
          (withMemory w (snd (nc_get (now w) ("cache:" ++ originalUrl req)
                                     (memoryCache w))))
          (if useRedis && isOpen (redisClient w)
           then withServer (redisClient w) (r_live (now w) (server (redisClient w)))
           else redisClient w)).
Proof.
  intros Hm Ht Hr. unfold cacheMiddleware. rewrite Hm.
  destruct (nc_get (now w) ("cache:" ++ originalUrl req) (memoryCache w))
    as [m c1] eqn:E.
  cbn [fst snd] in *.
  destruct (useRedis && isOpen (redisClient w)) eqn:Eu.
  - specialize (Hr eq_refl). apply andb_prop in Eu as [-> Hopen].
    run_rw ltac:(rewrite ?E, ?Ht, ?Hopen, ?Hr). reflexivity.
  - run_rw ltac:(rewrite ?E, ?Ht, ?Eu).
    destruct w as [n m0 r d tr]. destruct r. reflexivity.
Qed.

Lemma cacheMiddleware_redis_hit_after (duration : Z) (req : Request)
    (res : Response) (next : Response -> M unit) (w : World) (y : jsval) (e : Z) :
  method req = "GET" -> json res = express_json ->
  truthy (fst (nc_get (now w) ("cache:" ++ originalUrl req) (memoryCache w)))
  = false ->
  belowCapacity (snd (nc_get (now w) ("cache:" ++ originalUrl req)
                             (memoryCache w))) ->
  isOpen (redisClient w) = true ->
  r_live (now w) (server (redisClient w)) !! ("cache:" ++ originalUrl req)
  = Some (mkREntry (Ser y) e) ->
  exists w',
    cacheMiddleware duration true req res next w = (Ok tt, w')
    /\ trace w' = (trace w ++
                   [LogDebug (RedisCacheHit ("cache:" ++ originalUrl req));
                    Sent (statusCode res) (written (stats (memoryCache w')) y)])%list
    /\ data (memoryCache w') !! ("cache:" ++ originalUrl req)
       = Some (mkEntry (now w + 60 * 1000) y).
Proof.
  intros Hm Hj Ht Hb Hopen Hr.
  destruct (nc_get (now w) ("cache:" ++ originalUrl req) (memoryCache w))
    as [m c1] eqn:E.
  cbn [fst snd] in *.
  destruct (nc_set_below (now w) ("cache:" ++ originalUrl req) y 60 c1 Hb)
    as (c' & Es & Hd & _ & _).
  unfold cacheMiddleware. rewrite Hm, Hj.
  run_rw ltac:(rewrite ?E, ?Ht, ?Hopen, ?Hr, ?Es).
  unfold express_json. eexists. split; [reflexivity|].
  cbn [trace emit memoryCache withMemory withRedis].
  split; [by rewrite <- app_assoc|].
  rewrite Hd, lookup_insert_eq. done.
Qed.

(** C2 (as amended).  The middleware lets every request that is not a GET
    through untouched.  For a GET with key ["cache:" + originalUrl]:
    when [memoryCache.get(key)] returns a truthy payload, that payload is
    sent and [next] is never reached;
    when it returns none, or a falsy one, and the distributed tier, asked
    with [useRedis] and an open client, holds the text of a payload, that
    payload is sent after a 60 s backfill, provided the memory tier has room
    for it;
    when neither tier answers (the memory tier has no live entry or a falsy
    one, the distributed tier is not asked or has nothing), [next] receives
    a response whose [json] is patched, so that, with the memory tier below
    capacity, a payload with a status in [200, 300) is in the memory tier
    for [min(duration, 300)] s and, with [useRedis] and an open client, in
    the distributed tier for [duration] s by the time the original [json]
    sends it; a payload with any other status goes to the original [json]
    with neither tier written.
    In particular a live entry with a falsy payload is no hit: the handler
    runs again. *)
Theorem cacheMiddleware_protocol (duration : Z) (useRedis : bool)
    (req : Request) (res : Response) (next : Response -> M unit) (w : World) :
  json res = express_json -> 0 < duration ->
  let key := "cache:" ++ originalUrl req in
  let found := fst (nc_get (now w) key (memoryCache w)) in
  let memory := snd (nc_get (now w) key (memoryCache w)) in
  (method req <> "GET" ->
   cacheMiddleware duration useRedis req res next w = next res w)
  /\ (method req = "GET" -> truthy found = true ->
      cacheMiddleware duration useRedis req res next w =
      (Ok tt,
       emit (Sent (statusCode res) (written (stats memory) found))
         (emit (LogDebug (MemoryCacheHit key)) (withMemory w memory))))
  /\ (method req = "GET" ->
      forall e,
        data (memoryCache w) !! key = Some e ->
        t e = 0 \/ now w <= t e ->
        found = v e /\ memory = bumpHits (memoryCache w))
  /\ (method req = "GET" -> useRedis = true -> truthy found = false ->
      forall y e,
        belowCapacity memory ->
        isOpen (redisClient w) = true ->
        r_live (now w) (server (redisClient w)) !! key
        = Some (mkREntry (Ser y) e) ->
        exists w',
          cacheMiddleware duration useRedis req res next w = (Ok tt, w')
          /\ trace w' =
             (trace w ++
              [LogDebug (RedisCacheHit key);
               Sent (statusCode res) (written (stats (memoryCache w')) y)])%list
          /\ data (memoryCache w') !! key
             = Some (mkEntry (now w + 60 * 1000) y))
  /\ (method req = "GET" -> truthy found = false ->
      (useRedis && isOpen (redisClient w) = true ->
       truthyText (payload <$> r_live (now w) (server (redisClient w)) !! key)
       = false) ->
      cacheMiddleware duration useRedis req res next w =
      next (mkResponse (statusCode res)
              (patchedJson key duration useRedis (json res)))
           (withRedis (withMemory w memory)
              (if useRedis && isOpen (redisClient w)
               then withServer (redisClient w)
                      (r_live (now w) (server (redisClient w)))
               else redisClient w)))
  /\ (forall status x w0,
        200 <= status < 300 -> x <> JUndefined ->
        belowCapacity (memoryCache w0) ->
        exists w1,
          patchedJson key duration useRedis (json res) status x w0
          = json res status x w1
          /\ data (memoryCache w1) !! key
             = Some (mkEntry (now w0 + Z.min duration 300 * 1000) x)
          /\ (if useRedis && isOpen (redisClient w0) then
                server (redisClient w1) !! key
                = Some (mkREntry (Ser (written (stats (memoryCache w1)) x))
                                 (now w0 + duration * 1000))
              else redisClient w1 = redisClient w0)
          /\ trace w1 =
             (trace w0 ++ [LogDebug (CacheSetMsg key duration)])%list)
  /\ (forall status x w0,
        status < 200 \/ 300 <= status ->
        patchedJson key duration useRedis (json res) status x w0
        = json res status x w0).
Proof.
  intros Hj Hd key found memory.
  split; [by apply cacheMiddleware_not_get|].
  split; [intros Hm Ht; by apply cacheMiddleware_truthy_hit|].
  split.
  { intros Hm e Hk Hl. subst found memory key.
    by rewrite (nc_get_live _ _ _ _ Hk Hl). }
  split.
  { intros Hm -> Ht y e Hb Hopen Hr.
    by apply (cacheMiddleware_redis_hit_after duration req res next w y e). }
  split; [intros Hm Ht Hr; by apply cacheMiddleware_falsy_miss|].
  split.
  - intros status x w0 Hs Hx Hb. by apply patchedJson_2xx.
  - intros status x w0 Hs. by apply patchedJson_not_2xx.
Qed.

(** The first [GET /api/v1/products] of a fresh process: a miss, and the
    handler receives the patched response. *)
Lemma cacheMiddleware_protocol_witness :
  json freshResponse = express_json /\ 0 < 300
  /\ cacheMiddleware 300 true getProducts freshResponse
       (counted listHandler getProducts) (freshWorld true)
     = counted listHandler getProducts
         (mkResponse 200 (patchedJson "cache:/api/v1/products" 300 true express_json))
         (withRedis
            (withMemory (freshWorld true)
               (bumpMisses (memoryCache (freshWorld true))))
            (withServer (redisClient (freshWorld true))
               (r_live 0 (server (redisClient (freshWorld true)))))).
Proof.
  split; [reflexivity|]. split; [reflexivity|].
  destruct (cacheMiddleware_protocol 300 true getProducts freshResponse
              (counted listHandler getProducts) (freshWorld true)
              eq_refl eq_refl) as (_ & _ & _ & _ & Hmiss & _).
  apply Hmiss; reflexivity.
Defined.

(** C2 (as stated) fails, in two ways.  The memory tier is full and the
    distributed tier holds the product list: the GET finds it there, but
    the backfill of the memory tier throws; the error is logged and the
    domain handler runs, and its answer is what the caller gets.  And with
    the client closed, a handler that answers 200 with the payload [0] is
    run again by the next request for the same URL, although the payload is
    in the memory tier: the middleware tests the payload it found for
    truth. *)
Lemma cacheMiddleware_counterexample :
  (payload <$> r_live (now fullWorldSharedHit)
                      (server (redisClient fullWorldSharedHit))
                 !! "cache:/api/v1/products" = Some (Ser sampleList)
   /\ trace (after (cacheMiddleware 300 true getProducts freshResponse
                      (counted listHandler getProducts))
                   fullWorldSharedHit)
      = [LogDebug (RedisCacheHit "cache:/api/v1/products");
         LogError (CacheMiddlewareError ECACHEFULL);
         HandlerRan;
         Sent 200 sampleList])
  /\ (v <$> data (memoryCache countedTwice) !! "cache:/api/v1/products/count"
      = Some (JNum 0)
      /\ handlerRuns (trace countedTwice) = 2%nat).
Proof.
  split; [split; vm_compute; reflexivity|].
  split; vm_compute; reflexivity.
Qed.

(** C3 fails on the code.  The memory tier is full and a GET for a page
    that is in neither tier reaches the handler, which answers 200.  The
    patched [res.json] calls [memoryCache.set] outside any [try]: ECACHEFULL
    is thrown into the handler, and nothing has been sent.  Through the
    framework's error path the caller receives a 500. *)
Theorem patched_json_throws_at_capacity :
  data (memoryCache fullWorld) !! ("cache:" ++ originalUrl getNewPage) = None
  /\ keys (stats (memoryCache fullWorld)) = 5000
  /\ fst (cacheMiddleware 300 true getNewPage freshResponse
            (counted listHandler getNewPage) fullWorld)
     = Throw ECACHEFULL
  /\ trace (after (cacheMiddleware 300 true getNewPage freshResponse
                     (counted listHandler getNewPage))
                  fullWorld)
     = [HandlerRan]
  /\ fst <$> lastSent
               (trace (after (cacheMiddleware 300 true getNewPage freshResponse
                                (expressNext sampleProcess getNewPage
                                   (counted listHandler)))
                             fullWorld))
     = Some 500.
Proof.
  split; [vm_compute; reflexivity|].
  split; [vm_compute; reflexivity|].
  split; [vm_compute; reflexivity|].
  split; vm_compute; reflexivity.
Qed.



(** ** The performance report *)

Lemma performanceBody_fields (p : ProcessInfo) (r : RedisClient) (n : Z) (s : Stats) :
  prop "status" (written s (performanceBody p (cacheStatsOf r) n)) = JStr "OK"
  /\ prop "cache" (written s (performanceBody p (cacheStatsOf r) n))
     = JObj [("memory", statsJson s);
             ("redis", JStr (if isOpen r then "connected" else "disconnected"))].
Proof. split; reflexivity. Qed.

(** A key for which the memory tier has no truthy payload has none at any
    later instant either, as long as nothing is written. *)
Lemma nc_get_falsy_stays (n n' : Z) (key : string) (c : NodeCache) :
  truthy (fst (nc_get n key c)) = false ->
  truthy (fst (nc_get n' key (snd (nc_get n key c)))) = false.
Proof.
  unfold nc_get, _check. destruct (data c !! key) as [e|] eqn:Ek.
  - destruct (negb (t e =? 0) && (t e <? n)) eqn:Ex; cbn [fst snd].
    + intros _. unfold nc_del1. rewrite Ek. cbn [snd bumpMisses data].
      by rewrite lookup_delete_eq.
    + intros Hv. cbn [bumpHits data]. rewrite Ek.
      by destruct (negb (t e =? 0) && (t e <? n')).
  - intros _. cbn [snd bumpMisses data]. by rewrite Ek.
Qed.

(** The test [process.env.NODE_ENV === 'development'] goes one of two
    ways. *)
Lemma development_or_not {A} (x : jsval) (a b : A) :
  match x with JStr "development" => a | _ => b end = a
  \/ match x with JStr "development" => a | _ => b end = b.
Proof.
  destruct x as [| | |s| | | |]; try (by right).
  repeat (first [ by right | by left
                | match goal with
                  | |- context [match ?s with
                                | EmptyString => _
                                | String _ _ => _
                                end] => destruct s
                  | |- context [match ?c with Ascii _ _ _ _ _ _ _ _ => _ end] =>
                      destruct c
                  | |- context [if ?b then _ else _] => destruct b
                  end ]).
Qed.

(** A route behind [cacheMiddleware(duration, false)] whose handler starts
    with [require('./src/middleware/cache')]: on a miss the handler runs,
    the [require] throws, and the error-handling middleware answers 500
    through the patched [res.json], which stores nothing. *)
Lemma broken_require_route (p : ProcessInfo) (duration : Z) (req : Request)
    (rest : Handler) (w : World) :
  method req = "GET" ->
  truthy (fst (nc_get (now w) ("cache:" ++ originalUrl req) (memoryCache w)))
  = false ->
  includes (messageOf p MODULE_NOT_FOUND) "Only" = false ->
  exists body,
    cacheMiddleware duration false req freshResponse
      (expressNext p req
         (counted (fun rq rs => require "./src/middleware/cache" ;;; rest rq rs)))
      w
    = (Ok tt,
       emit (Sent 500 body)
         (emit (LogError (GlobalError MODULE_NOT_FOUND))
            (emit HandlerRan
               (withMemory w
                  (snd (nc_get (now w) ("cache:" ++ originalUrl req)
                               (memoryCache w)))))))
    /\ prop "success" body = JBool false
    /\ prop "message" body
       = JStr (if String.eqb (messageOf p MODULE_NOT_FOUND) EmptyString
               then "Internal server error"
               else messageOf p MODULE_NOT_FOUND)
    /\ prop "path" body = JStr (originalUrl req)
    /\ forall name,
         ~ In name ["success"; "message"; "path"; "timestamp"; "version";
                    "error"; "stack"] ->
         prop name body = JUndefined.
Proof.
  intros Hm Ht Ho.
  rewrite cacheMiddleware_falsy_miss; [|done|done|discriminate].
  unfold expressNext, counted, tryCatch, bind, require, throw.
  cbn [existsb appModules String.eqb Ascii.eqb Bool.eqb orb andb].
  unfold handleMulterError. rewrite Ho.
  unfold globalErrorHandler, bind, logger_error.
  cbn [json statusCode freshResponse].
  rewrite patchedJson_not_2xx by lia.
  unfold express_json. eexists. split; [reflexivity|].
  match goal with
  | |- context [match NODE_ENV p with _ => _ end] =>
      destruct (development_or_not (NODE_ENV p)
                  [("error", JStr (messageOf p MODULE_NOT_FOUND));
                   ("stack", JStr (stackOf p MODULE_NOT_FOUND))] [])
        as [-> | ->]
  end;
    cbn [written List.flat_map snd fst app prop fieldOf];
    (split; [reflexivity|]; split; [reflexivity|]; split; [reflexivity|];
     intros name Hn;
     repeat match goal with
            | |- context [String.eqb ?k name] =>
                let E := fresh "E" in
                destruct (String.eqb k name) eqn:E;
                  [apply String.eqb_eq in E; exfalso; apply Hn; subst name;
                   cbn [In]; tauto|]
            end;
     reflexivity).
Qed.

(** C9 fails on the code.  The handler of [GET /api/performance] begins
    with [require('./src/middleware/cache')].  The file app.js lies in
    [src/], where the top of the file finds the same module as
    ['./middleware/cache'], so the path of the handler names no module: the
    [require] throws on every request that reaches the handler.  The
    error-handling middleware answers 500 with [success: false] and the
    message of the error, no report is sent and nothing is stored, so the
    next request for the URL reaches the handler again. *)
Theorem performance_route_answers_500 (p : ProcessInfo) (req : Request)
    (w : World) :
  method req = "GET" ->
  truthy (fst (nc_get (now w) ("cache:" ++ originalUrl req) (memoryCache w)))
  = false ->
  includes (messageOf p MODULE_NOT_FOUND) "Only" = false ->
  exists w' body,
    performanceRoute p req w = (Ok tt, w')
    /\ trace w' = (trace w ++ [HandlerRan;
                               LogError (GlobalError MODULE_NOT_FOUND);
                               Sent 500 body])%list
    /\ prop "success" body = JBool false
    /\ prop "message" body
       = JStr (if String.eqb (messageOf p MODULE_NOT_FOUND) EmptyString
               then "Internal server error"
               else messageOf p MODULE_NOT_FOUND)
    /\ prop "status" body = JUndefined
    /\ prop "cache" body = JUndefined
    /\ memoryCache w'
       = snd (nc_get (now w) ("cache:" ++ originalUrl req) (memoryCache w))
    /\ redisClient w' = redisClient w
    /\ forall n,
         truthy (fst (nc_get n ("cache:" ++ originalUrl req) (memoryCache w')))
         = false.
Proof.
  intros Hm Ht Ho. unfold performanceRoute.
  destruct (broken_require_route p 30 req
              (fun rq rs =>
                 cacheStats <- getCacheStats ;;
                 (fun w0 => json rs 200 (performanceBody p cacheStats (now w0)) w0))
              w Hm Ht Ho) as (body & E & Hs & Hmsg & Hpath & Hnone).
  eexists. exists body. split; [exact E|].
  cbn [trace emit withMemory memoryCache redisClient].
  split; [by rewrite <- !app_assoc|]. split; [exact Hs|]. split; [exact Hmsg|].
  split; [apply Hnone; cbn [In]; intuition discriminate|].
  split; [apply Hnone; cbn [In]; intuition discriminate|].
  split; [reflexivity|]. split; [reflexivity|].
  intros n. by apply nc_get_falsy_stays.
Qed.

(** The first report that a fresh process is asked for. *)
Lemma performance_route_answers_500_witness :
  method getPerformance = "GET"
  /\ truthy (fst (nc_get (now (freshWorld true))
                         ("cache:" ++ originalUrl getPerformance)
                         (memoryCache (freshWorld true)))) = false
  /\ includes (messageOf sampleProcess MODULE_NOT_FOUND) "Only" = false
  /\ exists w' body,
       performanceRoute sampleProcess getPerformance (freshWorld true)
       = (Ok tt, w')
       /\ lastSent (trace w') = Some (500, body)
       /\ prop "success" body = JBool false
       /\ prop "cache" body = JUndefined.
Proof.
  split; [reflexivity|]. split; [reflexivity|]. split; [reflexivity|].
  destruct (performance_route_answers_500 sampleProcess getPerformance
              (freshWorld true) eq_refl eq_refl eq_refl)
    as (w' & body & E & Ht & Hs & _ & _ & Hc & _).
  exists w', body. split; [exact E|]. split; [by rewrite Ht|].
  split; [exact Hs|exact Hc].
Defined.

(** ** Start-up *)

(** With the server unreachable the strategy is asked after every attempt
    and ends them once [retries] passes 10: [connect()] rejects. *)
Lemma connectLoop_unreachable (budget : nat) (retries : Z) (w : World) :
  reachable (redisClient w) = false ->
  11 - retries <= Z.of_nat budget ->
  exists w',
    connectLoop budget retries w = (Throw TooManyRetries, w')
    /\ redisClient w' = redisClient w
    /\ trace w' = (trace w ++ [LogError TooManyRetriesMsg])%list.
Proof.
  revert retries w. induction budget as [|budget IH]; intros retries w Hr Hb.
  - cbn [connectLoop]. rewrite Hr. unfold reconnectStrategy.
    replace (10 <? retries) with true by (symmetry; apply Z.ltb_lt; lia).
    run_monad. eauto.
  - cbn [connectLoop]. rewrite Hr. unfold reconnectStrategy.
    destruct (10 <? retries) eqn:E.
    + run_monad. eauto.
    + run_monad.
      destruct (IH (retries + 1)
                  (withNow w (now w + failedAttempt (redisClient w) retries
                              + Z.min (retries * 100) 3000)))
        as (w' & E' & Hc & Ht); [exact Hr|lia|].
      exists w'. split; [exact E'|]. split; [exact Hc|exact Ht].
Qed.

Lemma connectLoop_not_exit (budget : nat) (retries : Z) (w : World) (code : Z) :
  fst (connectLoop budget retries w) <> Exit code.
Proof.
  revert retries w. induction budget as [|budget IH]; intros retries w;
    cbn [connectLoop]; destruct (reachable (redisClient w)); try done;
    unfold reconnectStrategy; destruct (10 <? retries); run_monad; try done.
Qed.

(** The retry counter of the model is never what ends [connect()]. *)
Lemma connect_never_spends_budget (w : World) :
  fst (redisClient_connect w) <> Throw RetryBudgetSpent.
Proof.
  unfold redisClient_connect.
  destruct (reachable (redisClient w)) eqn:Hr.
  - cbn [connectLoop]. by rewrite Hr.
  - destruct (connectLoop_unreachable 16 0 w Hr) as (w' & E & _); [simpl; lia|].
    by rewrite E.
Qed.

(** Whenever the server is unreachable at start-up, [startServer] ends the
    process with exit code 1 and never listens. *)
Lemma startServer_unreachable (w : World) :
  reachable (redisClient w) = false ->
  exists w',
    startServer w = (Exit 1, w')
    /\ trace w' = (trace w ++ [LogError TooManyRetriesMsg;
                               LogError (FailedToStartServer TooManyRetries)])%list.
Proof.
  intros Hr. unfold startServer, redisClient_connect, createUploadDirs.
  destruct (connectLoop_unreachable 16 0 w Hr) as (w' & E & _ & Ht);
    [simpl; lia|].
  run_rw ltac:(rewrite ?E). eexists. split; [reflexivity|].
  cbn [trace emit]. rewrite Ht. by rewrite <- app_assoc.
Qed.

(** The wrapper class of config/redis.js never throws from [connect()]. *)
Lemma RedisClient_connect_never_throws (w : World) :
  exists b w', RedisClient_connect w = (Ok b, w').
Proof.
  unfold RedisClient_connect, redisClient_connect. run_monad.
  destruct (connectLoop 16 0 w) as [[[]|e|code] w'] eqn:E; run_monad; eauto.
  exfalso. apply (connectLoop_not_exit 16 0 w code). by rewrite E.
Qed.

(** With the client closed no facade call contacts the distributed tier. *)
Lemma closed_client_is_left_alone (w : World) (key pattern : string) (x : jsval)
    (ttl : Z) (useRedis : bool) :
  isOpen (redisClient w) = false ->
  redisClient (after (getCache key useRedis) w) = redisClient w
  /\ redisClient (after (setCache key x ttl useRedis) w) = redisClient w
  /\ redisClient (after (clearCacheByPattern pattern) w) = redisClient w
  /\ redisClient (after clearAllCache w) = redisClient w.
Proof.
  intros Hopen. split; [|split; [|split]].
  - unfold after, getCache. run_monad.
    destruct (nc_get (now w) key (memoryCache w)) as [m c1].
    run_monad. destruct (truthy m); run_rw ltac:(rewrite ?Hopen, ?andb_false_r);
      reflexivity.
  - unfold after, setCache. run_monad.
    destruct (nc_set _ _ _ _ _) as [c2|err|code];
      run_rw ltac:(rewrite ?Hopen, ?andb_false_r); reflexivity.
  - by apply clearCacheByPattern_redis_closed.
  - unfold after. by rewrite clearAllCache_run, Hopen.
Qed.

(** C4 fails on the code.  The Redis server is down when the process
    starts.  The client gives up after the retries that [reconnectStrategy]
    allows, [connect()] rejects, and the [catch] of [startServer] logs
    "Failed to start server" and calls [process.exit(1)]: the process ends
    without listening.  The wrapper class of config/redis.js, started in the
    same state, logs the failure and returns. *)
Theorem startServer_exits_when_redis_is_down :
  reachable (redisClient redisDown) = false
  /\ fst (startServer redisDown) = Exit 1
  /\ last (trace (after startServer redisDown))
     = Some (LogError (FailedToStartServer TooManyRetries))
  /\ listens (trace (after startServer redisDown)) = false
  /\ fst (RedisClient_connect redisDown) = Ok false.
Proof. repeat split; vm_compute; reflexivity. Qed.

(** * Further properties of the cache module *)

(** ** Values that survive serialisation *)

Lemma written_plain (s : Stats) : forall x, plain x = true -> written s x = x.
Proof.
  fix IH 1. intros [| b | n | str | xs | fields | |] Hp; try reflexivity;
    try discriminate.
  - cbn [written]. f_equal. cbn [plain] in Hp.
    induction xs as [|y ys IHys]; [reflexivity|].
    cbn [forallb] in Hp. apply andb_prop in Hp as [Hy Hys].
    cbn [List.map]. rewrite (IH y Hy), (IHys Hys).
    destruct y; try reflexivity; discriminate.
  - cbn [written]. f_equal. cbn [plain] in Hp.
    induction fields as [|[k y] ys IHys]; [reflexivity|].
    cbn [forallb snd] in Hp. apply andb_prop in Hp as [Hy Hys].
    cbn [List.flat_map fst snd]. rewrite (IH y Hy), (IHys Hys).
    destruct y; try reflexivity; discriminate.
Qed.

Lemma plain_not_undefined (x : jsval) : plain x = true -> x <> JUndefined.
Proof. by destruct x. Qed.

(** ** The memory tier stays within its ceiling *)

Lemma nc_del1_bounded (key : string) (c : NodeCache) :
  memoryBounded c -> memoryBounded (snd (nc_del1 key c)).
Proof.
  unfold memoryBounded, nc_consistent, nc_del1. intros [Hc Hs].
  destruct (data c !! key) as [e|] eqn:E; [|done]. cbn.
  assert (size (data c) <> 0%nat).
  { apply map_size_non_empty_iff. intros He. rewrite He in E.
    by rewrite lookup_empty in E. }
  rewrite map_size_delete_Some by eauto. lia.
Qed.

Lemma nc_del_bounded (ks : list string) (c : NodeCache) :
  memoryBounded c -> memoryBounded (snd (nc_del ks c)).
Proof.
  revert c. induction ks as [|key ks IH]; intros c Hb; [done|].
  cbn [nc_del]. destruct (nc_del1 key c) as [n c1] eqn:E1.
  destruct (nc_del ks c1) as [m c2] eqn:E2. cbn [snd].
  change c2 with (snd (m, c2)). rewrite <- E2. apply IH.
  change c1 with (snd (n, c1)). rewrite <- E1. by apply nc_del1_bounded.
Qed.

Lemma nc_get_bounded (n : Z) (key : string) (c : NodeCache) :
  memoryBounded c -> memoryBounded (snd (nc_get n key c)).
Proof.
  intros Hb. unfold nc_get, _check.
  destruct (data c !! key) as [e|]; [|exact Hb].
  destruct (negb (t e =? 0) && (t e <? n)); cbn [snd]; [|exact Hb].
  exact (nc_del1_bounded key c Hb).
Qed.

Lemma nc_set_keeps_bounded (n : Z) (key : string) (x : jsval) (ttl : Z)
    (c c' : NodeCache) :
  memoryBounded c -> nc_set n key x ttl c = Ok c' -> memoryBounded c'.
Proof.
  intros [Hc Hs] E. eapply nc_set_bounded; [|exact Hc|exact Hs|exact E]. lia.
Qed.

Lemma nc_flushAll_bounded (c : NodeCache) :
  memoryBounded c -> memoryBounded (nc_flushAll c).
Proof.
  unfold memoryBounded, nc_consistent. intros [Hc Hs]. cbn.
  rewrite map_size_empty. lia.
Qed.

Lemma keepsBounded_ret {A} (a : A) : keepsBounded (ret a).
Proof. by intros w. Qed.

Lemma keepsBounded_throw {A} (e : error) : keepsBounded (@throw A e).
Proof. by intros w. Qed.

Lemma keepsBounded_bind {A B} (c : M A) (k : A -> M B) :
  keepsBounded c -> (forall a, keepsBounded (k a)) -> keepsBounded (bind c k).
Proof.
  intros Hc Hk w Hw. unfold bind. specialize (Hc w Hw).
  destruct (c w) as [[a|e|code] w1]; cbn [snd] in *; [|done|done].
  by apply Hk.
Qed.

Lemma keepsBounded_tryCatch {A} (c : M A) (h : error -> M A) :
  keepsBounded c -> (forall e, keepsBounded (h e)) -> keepsBounded (tryCatch c h).
Proof.
  intros Hc Hh w Hw. unfold tryCatch. specialize (Hc w Hw).
  destruct (c w) as [[a|e|code] w1]; cbn [snd] in *; [done| |done].
  by apply Hh.
Qed.

Lemma keepsBounded_log (ev : Event) :
  keepsBounded (fun w => (Ok tt, emit ev w)).
Proof. by intros w. Qed.

Lemma keepsBounded_liftRedis {A}
    (op : Z -> RedisClient -> outcome A * RedisClient) :
  keepsBounded (liftRedis op).
Proof.
  intros w Hw. unfold liftRedis.
  by destruct (op (now w) (redisClient w)).
Qed.

Lemma keepsBounded_setEx (key : string) (seconds : Z) (text : option rtext) :
  keepsBounded (redisClient_setEx key seconds text).
Proof.
  destruct text; [apply keepsBounded_liftRedis|apply keepsBounded_throw].
Qed.

Lemma keepsBounded_memory_get (key : string) : keepsBounded (memoryCache_get key).
Proof.
  intros w Hw. unfold memoryCache_get.
  pose proof (nc_get_bounded (now w) key (memoryCache w) Hw) as H.
  by destruct (nc_get (now w) key (memoryCache w)).
Qed.

Lemma keepsBounded_memory_set (key : string) (x : jsval) (ttl : Z) :
  keepsBounded (memoryCache_set key x ttl).
Proof.
  intros w Hw. unfold memoryCache_set.
  destruct (nc_set (now w) key x ttl (memoryCache w)) as [c'|e|code] eqn:E;
    [|done|done].
  exact (nc_set_keeps_bounded _ _ _ _ _ _ Hw E).
Qed.

Lemma keepsBounded_memory_del (ks : list string) :
  keepsBounded (memoryCache_del ks).
Proof.
  intros w Hw. unfold memoryCache_del.
  pose proof (nc_del_bounded ks (memoryCache w) Hw) as H.
  by destruct (nc_del ks (memoryCache w)).
Qed.

Ltac keeps_bounded :=
  repeat first
    [ apply keepsBounded_bind; [|intros ?]
    | apply keepsBounded_tryCatch; [|intros ?]
    | apply keepsBounded_ret
    | apply keepsBounded_throw
    | apply keepsBounded_log
    | apply keepsBounded_liftRedis
    | apply keepsBounded_setEx
    | apply keepsBounded_memory_get
    | apply keepsBounded_memory_set
    | apply keepsBounded_memory_del
    | match goal with
      | |- keepsBounded (if ?b then _ else _) => destruct b
      end
    | (intros w Hw; exact Hw)
    | (intros w Hw; by apply nc_flushAll_bounded) ].

(** Whatever the facade and the patched [res.json] do, the memory tier
    never holds more than [maxKeys] entries and its key counter stays equal
    to the number of entries. *)
Theorem facade_keeps_memory_bounded (key pattern : string) (x : jsval)
    (ttl duration status : Z) (useRedis : bool) (w : World) :
  memoryBounded (memoryCache w) ->
  memoryBounded (memoryCache (after (getCache key useRedis) w))
  /\ memoryBounded (memoryCache (after (setCache key x ttl useRedis) w))
  /\ memoryBounded (memoryCache (after (clearCacheByPattern pattern) w))
  /\ memoryBounded (memoryCache (after clearAllCache w))
  /\ memoryBounded
       (memoryCache (after (patchedJson key duration useRedis express_json
                                        status x) w)).
Proof.
  intros Hw. unfold after.
  split; [|split; [|split; [|split]]].
  - revert w Hw. change (keepsBounded (getCache key useRedis)).
    unfold getCache, logger_error, redisClient_isOpen, redisClient_get,
      parseJSON. keeps_bounded.
  - revert w Hw. change (keepsBounded (setCache key x ttl useRedis)).
    unfold setCache, logger_error, redisClient_isOpen, JSON_stringify.
    keeps_bounded.
  - revert w Hw. change (keepsBounded (clearCacheByPattern pattern)).
    unfold clearCacheByPattern, logger_error, logger_debug, redisClient_isOpen,
      redisClient_keys, redisClient_del, memoryCache_keys. keeps_bounded.
  - revert w Hw. change (keepsBounded clearAllCache).
    unfold clearAllCache, logger_error, logger_debug, redisClient_isOpen,
      redisClient_flushDb, memoryCache_flushAll. keeps_bounded.
  - revert w Hw.
    change (keepsBounded (patchedJson key duration useRedis express_json status x)).
    unfold patchedJson, logger_error, logger_debug, redisClient_isOpen,
      JSON_stringify, express_json. keeps_bounded.
Qed.

Lemma facade_keeps_memory_bounded_witness :
  memoryBounded (memoryCache threeKeys)
  /\ memoryBounded (memoryCache (after (getCache "other:c" true) threeKeys))
  /\ memoryBounded
       (memoryCache (after (setCache "other:c" sampleList 60 true) threeKeys))
  /\ memoryBounded (memoryCache (after (clearCacheByPattern "products") threeKeys))
  /\ memoryBounded (memoryCache (after clearAllCache threeKeys))
  /\ memoryBounded
       (memoryCache (after (patchedJson "other:c" 300 true express_json 200
                                        sampleList) threeKeys)).
Proof.
  assert (H : memoryBounded (memoryCache threeKeys))
    by (split; vm_compute; [reflexivity|discriminate]).
  split; [exact H|].
  exact (facade_keeps_memory_bounded "other:c" "products" sampleList 60 300 200
           true threeKeys H).
Defined.

(** ** Expiry *)

Lemma nc_get_expired (n : Z) (key : string) (c : NodeCache) (e : Entry) :
  data c !! key = Some e -> t e <> 0 -> t e < n ->
  nc_get n key c = (JUndefined, bumpMisses (snd (nc_del1 key c))).
Proof.
  intros H H0 Hl. unfold nc_get, _check. rewrite H.
  assert (negb (t e =? 0) && (t e <? n) = true) as ->; [|reflexivity].
  apply andb_true_iff. split.
  - apply negb_true_iff, Z.eqb_neq, H0.
  - apply Z.ltb_lt, Hl.
Qed.

Lemma nc_get_lookup_same (n : Z) (key : string) (c : NodeCache) (e : Entry) :
  data (snd (nc_get n key c)) !! key = Some e -> data c !! key = Some e.
Proof.
  unfold nc_get, _check. destruct (data c !! key) as [e0|] eqn:Ek.
  - destruct (negb (t e0 =? 0) && (t e0 <? n)); cbn [snd bumpHits bumpMisses data].
    + unfold nc_del1. rewrite Ek. cbn [snd data].
      by rewrite lookup_delete_eq.
    + by rewrite Ek.
  - cbn [snd bumpMisses data]. by rewrite Ek.
Qed.

Lemma nc_set_data (n : Z) (key : string) (x : jsval) (ttl : Z)
    (c c' : NodeCache) :
  nc_set n key x ttl c = Ok c' -> data c' = <[key := _wrap n x ttl]> (data c).
Proof.
  unfold nc_set.
  destruct ((-1 <? maxKeys (options c)) && (maxKeys (options c) <=? keys (stats c)));
    [discriminate|].
  destruct (data c !! key); intros [= <-]; reflexivity.
Qed.

(** A read keeps the deadline: a hit changes no entry, and a backfill
    happens while the entry of the distributed tier lives, so the 60 s that
    it grants end less than 60 s after the deadline. *)
Lemma getCache_keeps_deadline (deadline n : Z) (key : string) (useRedis : bool)
    (w : World) :
  0 <= n -> expiresBy deadline key w ->
  expiresBy deadline key (after (getCache key useRedis) (withNow w n)).
Proof.
  intros Hn [Hmem Hred]. unfold after, getCache. run_monad.
  destruct (nc_get n key (memoryCache w)) as [m c1] eqn:Eg.
  assert (Hc1 : forall e, data c1 !! key = Some e ->
                          t e <> 0 /\ t e < deadline + 60 * 1000).
  { intros e He. apply Hmem, (nc_get_lookup_same n). by rewrite Eg. }
  assert (Hlive : forall re,
             r_live n (server (redisClient w)) !! key = Some re ->
             n < expireAt re <= deadline).
  { intros re Hre. rewrite r_live_lookup in Hre.
    destruct (server (redisClient w) !! key) as [re0|] eqn:Es; [|done].
    destruct (decide (n < expireAt re0)); [|done].
    injection Hre as <-. split; [done|by apply Hred]. }
  assert (Hred' : forall re,
             r_live n (server (redisClient w)) !! key = Some re ->
             expireAt re <= deadline).
  { intros re Hre. by apply Hlive. }
  assert (Hkept : forall tr r,
             (r = redisClient w
              \/ r = withServer (redisClient w)
                               (r_live n (server (redisClient w)))) ->
             expiresBy deadline key
               (mkWorld n c1 r (dbReachable w) tr)).
  { intros tr r [-> | ->]; split; cbn; assumption. }
  run_monad. destruct (truthy m); run_monad; [apply Hkept; by left|].
  destruct (useRedis && isOpen (redisClient w)) eqn:Eu; run_monad;
    [|apply Hkept; by left].
  apply andb_prop in Eu as [_ Hopen]. rewrite Hopen. run_monad.
  destruct (r_live n (server (redisClient w)) !! key) as [re|] eqn:Er;
    cbn [fmap option_fmap option_map]; [|run_monad; apply Hkept; by right].
  destruct (truthyText (Some (payload re))); run_monad;
    [|apply Hkept; by right].
  destruct (payload re) as [y|raw]; run_monad; [|apply Hkept; by right].
  destruct (nc_set n key y 60 c1) as [c2|err|code] eqn:Es; run_monad;
    [|apply Hkept; by right|apply Hkept; by right].
  split; cbn; [|intros re0 Hre0; apply Hred'; by rewrite <- Hre0].
  intros e He.
  rewrite (nc_set_data _ _ _ _ _ _ Es), lookup_insert_eq in He.
  injection He as <-. unfold _wrap. cbn [Z.eqb t].
  destruct (Hlive re eq_refl) as [H1 H2]. lia.
Qed.

Lemma readAt_keeps_deadline (deadline : Z) (key : string)
    (reads : list (Z * bool)) (w : World) :
  Forall (fun r => 0 <= fst r) reads ->
  expiresBy deadline key w -> expiresBy deadline key (readAt key reads w).
Proof.
  revert w. induction reads as [|[n u] reads IH]; intros w Hr Hw; [exact Hw|].
  apply Forall_cons in Hr as [Hn Hr]. cbn [readAt].
  apply IH; [exact Hr|]. by apply getCache_keeps_deadline.
Qed.

Lemma getCache_after_deadline (deadline n : Z) (key : string) (useRedis : bool)
    (w : World) :
  expiresBy deadline key w -> deadline + 60 * 1000 <= n ->
  fst (getCache key useRedis (withNow w n)) = Ok JNull.
Proof.
  intros [Hmem Hred] Hn. unfold getCache. run_monad.
  assert (Hg : fst (nc_get n key (memoryCache w)) = JUndefined).
  { destruct (data (memoryCache w) !! key) as [e|] eqn:Ek.
    - destruct (Hmem e eq_refl) as [H0 H1].
      rewrite (nc_get_expired n key _ e Ek H0); [reflexivity|lia].
    - by rewrite (nc_get_absent _ _ _ Ek). }
  destruct (nc_get n key (memoryCache w)) as [m c1]. cbn [fst] in Hg. subst m.
  run_monad.
  destruct (useRedis && isOpen (redisClient w)) eqn:Eu; run_monad;
    [|reflexivity].
  apply andb_prop in Eu as [_ Hopen]. rewrite Hopen. run_monad.
  rewrite r_live_lookup.
  destruct (server (redisClient w) !! key) as [re|] eqn:Es; [|reflexivity].
  specialize (Hred re eq_refl).
  rewrite decide_False by lia. reflexivity.
Qed.

(** An entry written by [setCache] to both tiers does not outlive its
    [ttl] by more than a backfill.  Read for the first time after
    [now + ttl] s it is gone from both tiers: [getCache] returns [null].
    Reads in between can put it back into the memory tier, for 60 s each
    time and only while the distributed tier still has it; so whatever
    reads of the key there were, from [now + ttl + 60] s on [getCache]
    returns [null]. *)
Theorem setCache_expires (w : World) (key : string) (x : jsval) (ttl : Z)
    (useRedis : bool) :
  0 <= now w -> 0 < ttl -> x <> JUndefined ->
  belowCapacity (memoryCache w) -> isOpen (redisClient w) = true ->
  (forall n,
     now w + ttl * 1000 < n ->
     fst (getCache key useRedis (withNow (after (setCache key x ttl true) w) n))
     = Ok JNull)
  /\ (forall reads n,
        Forall (fun r => 0 <= fst r) reads ->
        now w + ttl * 1000 + 60 * 1000 <= n ->
        fst (getCache key useRedis
               (withNow (readAt key reads (after (setCache key x ttl true) w)) n))
        = Ok JNull).
Proof.
  intros Hnow Httl Hx Hb Hopen.
  destruct (setCache_both_tiers w key x ttl Httl Hx Hb Hopen) as [Hm Hr].
  set (w1 := after (setCache key x ttl true) w) in *.
  split.
  - intros n Hn.
    assert (Ho1 : isOpen (redisClient w1) = true).
    { subst w1. unfold after, setCache.
      destruct (nc_set_below (now w) key x (Z.min ttl 300) (memoryCache w) Hb)
        as (c' & E & _).
      assert (Hle : (ttl <=? 0) = false) by (apply Z.leb_gt; lia).
      destruct x; try done;
        repeat progress (run_monad; rewrite ?E, ?Hopen, ?Hle); done. }
    unfold getCache. run_monad.
    rewrite (nc_get_expired n key (memoryCache w1) _ Hm);
      [|simpl; lia|simpl; lia].
    run_monad. rewrite Ho1.
    destruct useRedis; run_monad; [|reflexivity].
    rewrite r_live_lookup, Hr. cbn [expireAt].
    rewrite decide_False by lia. run_with Ho1. reflexivity.
  - intros reads n Hreads Hn.
    apply (getCache_after_deadline (now w + ttl * 1000)); [|exact Hn].
    apply readAt_keeps_deadline; [exact Hreads|]. split.
    + intros e He. rewrite Hm in He. injection He as <-. cbn [t]. lia.
    + intros re Hre. rewrite Hr in Hre. injection Hre as <-. cbn [expireAt]. lia.
Qed.

(** A value with a TTL of 400 s, read at 350 s and so kept in the memory
    tier until 410 s, is gone at 460 s. *)
Lemma setCache_expires_witness :
  0 <= now (freshWorld true) /\ 0 < 400 /\ sampleList <> JUndefined
  /\ belowCapacity (memoryCache (freshWorld true))
  /\ isOpen (redisClient (freshWorld true)) = true
  /\ fst (getCache "product:64b7f0c2a1" true
            (withNow (after (setCache "product:64b7f0c2a1" sampleList 400 true)
                            (freshWorld true))
                     400001))
     = Ok JNull
  /\ fst (getCache "product:64b7f0c2a1" true
            (withNow (readAt "product:64b7f0c2a1" [(350000, true)]
                        (after (setCache "product:64b7f0c2a1" sampleList 400 true)
                               (freshWorld true)))
                     460000))
     = Ok JNull.
Proof.
  assert (H4 : belowCapacity (memoryCache (freshWorld true)))
    by (right; reflexivity).
  split; [discriminate|]. split; [reflexivity|]. split; [discriminate|].
  split; [exact H4|]. split; [reflexivity|].
  destruct (setCache_expires (freshWorld true) "product:64b7f0c2a1" sampleList
              400 true) as [H1 H2];
    [discriminate|reflexivity|discriminate|exact H4|reflexivity|].
  split.
  - apply H1. reflexivity.
  - apply H2; [|discriminate].
    constructor; [discriminate|constructor].
Defined.

(** A TTL of 0 is no TTL: [setCache(k, x, 0)] leaves in the memory tier an
    entry that never expires, so [getCache] returns a truthy [x] at every
    later instant; the distributed tier refuses the write. *)
Theorem setCache_zero_ttl_never_expires (w : World) (key : string) (x : jsval)
    (n : Z) (useRedis useRedis' : bool) :
  truthy x = true -> belowCapacity (memoryCache w) ->
  fst (getCache key useRedis'
         (withNow (after (setCache key x 0 useRedis) w) n)) = Ok x
  /\ (if isOpen (redisClient w) then
        server (redisClient (after (setCache key x 0 useRedis) w))
        = (if useRedis then r_live (now w) (server (redisClient w))
           else server (redisClient w))
      else redisClient (after (setCache key x 0 useRedis) w) = redisClient w).
Proof.
  intros Hx Hb.
  destruct (nc_set_below (now w) key x (Z.min 0 300) (memoryCache w) Hb)
    as (c' & E & Hd & _ & _).
  destruct (setCache_memory key x 0 useRedis w c' E) as [Hm _].
  split.
  - rewrite (getCache_memory_hit key useRedis' _ (mkEntry 0 x)).
    + reflexivity.
    + cbn [memoryCache withNow]. rewrite Hm, Hd. apply lookup_insert_eq.
    + left. reflexivity.
    + exact Hx.
  - unfold after, setCache.
    destruct (isOpen (redisClient w)) eqn:Hopen, useRedis;
      destruct x; try discriminate;
      repeat progress (run_monad; rewrite ?E, ?Hopen); reflexivity.
Qed.

Lemma setCache_zero_ttl_never_expires_witness :
  truthy sampleList = true /\ belowCapacity (memoryCache (freshWorld true))
  /\ fst (getCache "product_form_data" true
            (withNow (after (setCache "product_form_data" sampleList 0 true)
                            (freshWorld true))
                     86400000)) = Ok sampleList
  /\ (if isOpen (redisClient (freshWorld true)) then
        server (redisClient (after (setCache "product_form_data" sampleList 0 true)
                                   (freshWorld true)))
        = (if true then r_live (now (freshWorld true))
                               (server (redisClient (freshWorld true)))
           else server (redisClient (freshWorld true)))
      else redisClient (after (setCache "product_form_data" sampleList 0 true)
                              (freshWorld true))
           = redisClient (freshWorld true)).
Proof.
  assert (H : belowCapacity (memoryCache (freshWorld true)))
    by (right; reflexivity).
  split; [reflexivity|]. split; [exact H|].
  exact (setCache_zero_ttl_never_expires (freshWorld true) "product_form_data"
           sampleList 86400000 true true eq_refl H).
Defined.

(** ** Reads *)

Ltac run_in H :=
  repeat progress
    (autounfold with cache_run in H;
     cbn -[r_live nc_del deleteAll globMatch includes nc_keys nc_get nc_set
           written map_to_list connectLoop Z.min Z.mul Z.add Z.leb Z.ltb] in H).

Lemma nc_get_truthy (n : Z) (key : string) (c c1 : NodeCache) (m : jsval) :
  nc_get n key c = (m, c1) -> truthy m = true ->
  exists e, data c !! key = Some e /\ (t e = 0 \/ n <= t e)
            /\ m = v e /\ c1 = bumpHits c.
Proof.
  unfold nc_get, _check. intros E Hm.
  destruct (data c !! key) as [e|] eqn:Ek.
  - destruct (negb (t e =? 0) && (t e <? n)) eqn:Ex; cbn in E.
    + inversion E; subst. discriminate.
    + inversion E; subst. exists e. split; [done|]. split; [|done].
      apply andb_false_iff in Ex as [Ex|Ex].
      * left. by apply negb_false_iff, Z.eqb_eq in Ex.
      * right. by apply Z.ltb_ge in Ex.
  - inversion E; subst. discriminate.
Qed.

(** When the memory tier has nothing truthy, a truthy result is a value
    read from the distributed tier and just put into the memory tier. *)
Lemma getCache_truthy_from_redis (w w1 : World) (key : string) (r m : jsval)
    (c1 : NodeCache) (useRedis : bool) :
  nc_get (now w) key (memoryCache w) = (m, c1) -> truthy m = false ->
  getCache key useRedis w = (Ok r, w1) -> truthy r = true ->
  now w1 = now w
  /\ data (memoryCache w1) !! key = Some (_wrap (now w) r 60).
Proof.
  intros Eg Hm E Hr. unfold getCache in E. run_in E.
  rewrite Eg in E. run_in E. rewrite Hm in E. run_in E.
  destruct (useRedis && isOpen (redisClient w)) eqn:Eu; run_in E;
    [|inversion E; subst; discriminate].
  apply andb_prop in Eu as [_ Hopen]. rewrite Hopen in E. run_in E.
  destruct (truthyText _) eqn:Et; run_in E;
    [|inversion E; subst; discriminate].
  destruct (JSON_parse _) as [y|err|code] eqn:Ep; run_in E;
    [|inversion E; subst; discriminate|discriminate].
  destruct (nc_set (now w) key y 60 c1) as [c2|err|code] eqn:Es; run_in E;
    [|inversion E; subst; discriminate|discriminate].
  inversion E; subst r w1; clear E. split; [reflexivity|].
  cbn [memoryCache withMemory withRedis].
  unfold nc_set in Es.
  destruct ((-1 <? maxKeys (options c1)) && (maxKeys (options c1) <=? keys (stats c1)));
    [discriminate|].
  destruct (data c1 !! key); inversion Es; cbn [data]; apply lookup_insert_eq.
Qed.

(** A truthy result of [getCache] is stable: asked again at once, with or
    without the distributed tier, [getCache] returns the same value, from
    the memory tier. *)
Theorem getCache_truthy_is_stable (w w1 : World) (key : string) (r : jsval)
    (useRedis useRedis' : bool) :
  getCache key useRedis w = (Ok r, w1) -> truthy r = true ->
  fst (getCache key useRedis' w1) = Ok r.
Proof.
  intros E Hr.
  destruct (nc_get (now w) key (memoryCache w)) as [m c1] eqn:Eg.
  destruct (truthy m) eqn:Hm.
  - destruct (nc_get_truthy _ _ _ _ _ Eg Hm) as (e & Ek & Hl & -> & ->).
    rewrite (getCache_memory_hit key useRedis w e Ek Hl Hm) in E.
    inversion E; subst r w1; clear E.
    by rewrite (getCache_memory_hit key useRedis' _ e).
  - destruct (getCache_truthy_from_redis w w1 key r m c1 useRedis Eg Hm E Hr)
      as [Hn Hk].
    rewrite (getCache_memory_hit key useRedis' w1 _ Hk).
    + cbn [fst]. by rewrite wrap_value.
    + rewrite Hn. apply wrap_live. lia.
    + by rewrite wrap_value.
Qed.

Lemma getCache_truthy_is_stable_witness :
  getCache "product:64b7f0c2a1" true sharedOnly
  = (Ok sampleList, after (getCache "product:64b7f0c2a1" true) sharedOnly)
  /\ truthy sampleList = true
  /\ fst (getCache "product:64b7f0c2a1" false
            (after (getCache "product:64b7f0c2a1" true) sharedOnly))
     = Ok sampleList.
Proof.
  assert (E : getCache "product:64b7f0c2a1" true sharedOnly
              = (Ok sampleList, after (getCache "product:64b7f0c2a1" true) sharedOnly))
    by (vm_compute; reflexivity).
  split; [exact E|]. split; [reflexivity|].
  exact (getCache_truthy_is_stable sharedOnly _ "product:64b7f0c2a1" sampleList
           true false E eq_refl).
Defined.

(** ** Invalidation, then a read *)

Lemma getCache_absent (w : World) (key : string) (useRedis : bool) :
  data (memoryCache w) !! key = None ->
  (isOpen (redisClient w) = true ->
   r_live (now w) (server (redisClient w)) !! key = None) ->
  fst (getCache key useRedis w) = Ok JNull.
Proof.
  intros Hk Hr. unfold getCache.
  run_rw ltac:(rewrite ?(nc_get_absent _ _ _ Hk)).
  destruct (useRedis && isOpen (redisClient w)) eqn:Eu; run_monad;
    [|reflexivity].
  apply andb_prop in Eu as [_ Hopen]. rewrite Hopen, (Hr Hopen). reflexivity.
Qed.

Lemma r_live_None (n : Z) (m : gmap string REntry) (k : string) :
  m !! k = None -> r_live n m !! k = None.
Proof. intros H. by rewrite r_live_lookup, H. Qed.

(** After [clearCacheByPattern(p)], for a pattern without glob operators,
    every key that contains [p] is a miss for [getCache]. *)
Theorem invalidation_forces_a_miss (w : World) (p key : string) (useRedis : bool) :
  globFree p = true -> includes key p = true ->
  fst (getCache key useRedis (after (clearCacheByPattern p) w)) = Ok JNull.
Proof.
  intros Hp Hk.
  destruct (clearCacheByPattern_goneFrom p key w Hp Hk) as [Hm Hr].
  apply getCache_absent; [exact Hm|].
  destruct (isOpen (redisClient w)) eqn:Hopen.
  - intros _. by apply r_live_None.
  - rewrite Hr. congruence.
Qed.

Lemma invalidation_forces_a_miss_witness :
  globFree "cache:/api/v1/products" = true
  /\ includes "cache:/api/v1/products?page=2" "cache:/api/v1/products" = true
  /\ fst (getCache "cache:/api/v1/products?page=2" true
            (after (clearCacheByPattern "cache:/api/v1/products") twoUrls))
     = Ok JNull.
Proof.
  split; [reflexivity|]. split; [reflexivity|].
  apply invalidation_forces_a_miss; reflexivity.
Defined.


(** ** A cached response is replayed *)

Lemma handlerRuns_app (tr1 tr2 : list Event) :
  handlerRuns (tr1 ++ tr2) = (handlerRuns tr1 + handlerRuns tr2)%nat.
Proof.
  induction tr1 as [|ev tr1 IH]; [reflexivity|].
  destruct ev; cbn [handlerRuns app]; rewrite IH; reflexivity.
Qed.

Lemma lastSent_snoc (tr : list Event) (status : Z) (body : jsval) :
  lastSent (tr ++ [Sent status body]) = Some (status, body).
Proof.
  induction tr as [|ev tr IH]; [reflexivity|].
  cbn [lastSent app]. by rewrite IH.
Qed.

Lemma patchedJson_2xx_clock (key : string) (duration : Z) (useRedis : bool)
    (originalJson : JsonFn) (status : Z) (x : jsval) (w : World) :
  200 <= status < 300 -> 0 < duration -> x <> JUndefined ->
  belowCapacity (memoryCache w) ->
  exists w1,
    patchedJson key duration useRedis originalJson status x w
    = originalJson status x w1
    /\ now w1 = now w
    /\ data (memoryCache w1) !! key
       = Some (mkEntry (now w + Z.min duration 300 * 1000) x)
    /\ trace w1 = (trace w ++ [LogDebug (CacheSetMsg key duration)])%list.
Proof.
  intros Hs Hd Hx Hb.
  destruct (nc_set_below (now w) key x (Z.min duration 300) (memoryCache w) Hb)
    as (c' & E & Hdata & _ & _).
  assert (Hle : (duration <=? 0) = false) by (apply Z.leb_gt; lia).
  assert (Hw : _wrap (now w) x (Z.min duration 300)
               = mkEntry (now w + Z.min duration 300 * 1000) x).
  { unfold _wrap. replace (Z.min duration 300 =? 0) with false; [done|].
    symmetry. apply Z.eqb_neq. lia. }
  assert (Hin : (200 <=? status) && (status <? 300) = true).
  { apply andb_true_iff. split; [apply Z.leb_le|apply Z.ltb_lt]; lia. }
  unfold patchedJson. rewrite Hin.
  destruct (useRedis && isOpen (redisClient w)) eqn:Eu.
  - apply andb_prop in Eu as [-> Hopen].
    destruct x; try done;
      run_rw ltac:(rewrite ?E, ?Hopen, ?Hle);
      (eexists; split;
       [reflexivity|];
       cbn [now memoryCache redisClient trace emit withMemory withRedis
            withServer server];
       rewrite Hdata, Hw, !lookup_insert_eq; done).
  - run_rw ltac:(rewrite ?E, ?Eu).
    eexists; split; [reflexivity|].
    cbn [now memoryCache redisClient trace emit withMemory withRedis].
    rewrite Hdata, Hw, lookup_insert_eq. done.
Qed.

(** A miss whose handler answers [status] and [body], then the same GET
    while the memory-tier entry lives: what the two requests add to the
    trace.  [next1] is any continuation that comes down to one counted call
    of [json]; the continuation of the second request is not looked at. *)
Lemma miss_then_hit (duration status n : Z) (useRedis : bool)
    (req : Request) (body : jsval) (w : World)
    (next1 next2 : Response -> M unit) :
  method req = "GET" -> 0 < duration -> 200 <= status < 300 ->
  plain body = true -> truthy body = true ->
  data (memoryCache w) !! ("cache:" ++ originalUrl req) = None ->
  (useRedis && isOpen (redisClient w) = true ->
   r_live (now w) (server (redisClient w)) !! ("cache:" ++ originalUrl req) = None) ->
  belowCapacity (memoryCache w) ->
  now w <= n <= now w + Z.min duration 300 * 1000 ->
  (forall res' w0,
     fst (json res' status body (emit HandlerRan w0)) = Ok tt ->
     next1 res' w0 = json res' status body (emit HandlerRan w0)) ->
  let first := after (cacheMiddleware duration useRedis req freshResponse next1) w in
  let second := after (cacheMiddleware duration useRedis req freshResponse next2)
                      (withNow first n) in
  trace first
  = (trace w ++ [HandlerRan;
                 LogDebug (CacheSetMsg ("cache:" ++ originalUrl req) duration);
                 Sent status body])%list
  /\ trace second
     = (trace first ++ [LogDebug (MemoryCacheHit ("cache:" ++ originalUrl req));
                        Sent 200 body])%list.
Proof.
  intros Hm Hd Hs Hp Ht Hk Hr Hb Hn Hnext first second.
  assert (Hx : body <> JUndefined) by (by apply plain_not_undefined).
  assert (Hfirst : exists w1,
             first = emit (Sent status body) w1
             /\ trace w1 = (trace w ++
                            [HandlerRan;
                             LogDebug (CacheSetMsg ("cache:" ++ originalUrl req)
                                                   duration)])%list
             /\ data (memoryCache w1) !! ("cache:" ++ originalUrl req)
                = Some (mkEntry (now w + Z.min duration 300 * 1000) body)).
  { subst first. unfold after.
    rewrite cacheMiddleware_miss by done.
    match goal with
    | |- context [next1 ?r ?w0] =>
        destruct (patchedJson_2xx_clock ("cache:" ++ originalUrl req) duration
                    useRedis express_json status body (emit HandlerRan w0))
          as (w1 & E & Hnow & Hdat & Htr);
          [lia|lia|exact Hx|exact Hb|];
        rewrite (Hnext r w0)
    end.
    - cbn [json freshResponse]. rewrite E. unfold express_json. cbn [snd].
      rewrite (written_plain _ _ Hp).
      exists w1. split; [reflexivity|]. split.
      + rewrite Htr. cbn [trace emit withRedis withMemory].
        by rewrite <- app_assoc.
      + exact Hdat.
    - cbn [json freshResponse]. rewrite E. reflexivity. }
  destruct Hfirst as (w1 & Ef & Htr & Hdat).
  split.
  - rewrite Ef. cbn [trace emit]. rewrite Htr. by rewrite <- app_assoc.
  - subst second. unfold after.
    rewrite (cacheMiddleware_memory_hit duration useRedis req freshResponse _
               (withNow first n)
               (mkEntry (now w + Z.min duration 300 * 1000) body)).
    + cbn [snd statusCode freshResponse v trace emit withMemory withNow].
      rewrite (written_plain _ _ Hp). by rewrite <- app_assoc.
    + exact Hm.
    + reflexivity.
    + rewrite Ef. exact Hdat.
    + right. cbn. lia.
    + exact Ht.
Qed.

Lemma lastSent_snoc2 (tr : list Event) (ev : Event) (status : Z) (body : jsval) :
  lastSent (tr ++ [ev; Sent status body]) = Some (status, body).
Proof.
  change [ev; Sent status body] with ([ev] ++ [Sent status body])%list.
  rewrite app_assoc. apply lastSent_snoc.
Qed.

Lemma lastSent_snoc3 (tr : list Event) (ev1 ev2 : Event) (status : Z)
    (body : jsval) :
  lastSent (tr ++ [ev1; ev2; Sent status body]) = Some (status, body).
Proof.
  change [ev1; ev2; Sent status body]
    with ([ev1; ev2] ++ [Sent status body])%list.
  rewrite app_assoc. apply lastSent_snoc.
Qed.

(** A GET that misses both tiers runs a handler that answers with a 2xx
    status and a plain, truthy body.  The same GET, repeated while the
    memory-tier entry lives, is answered from the cache: the handler does not
    run again and the body is the same.  The replay carries the status of the
    response object (200 on a fresh one), not the status the handler chose. *)
Theorem cached_response_is_replayed (duration status n : Z) (useRedis : bool)
    (req : Request) (body : jsval) (w : World) :
  method req = "GET" -> 0 < duration -> 200 <= status < 300 ->
  plain body = true -> truthy body = true ->
  data (memoryCache w) !! ("cache:" ++ originalUrl req) = None ->
  (useRedis && isOpen (redisClient w) = true ->
   r_live (now w) (server (redisClient w)) !! ("cache:" ++ originalUrl req) = None) ->
  belowCapacity (memoryCache w) ->
  now w <= n <= now w + Z.min duration 300 * 1000 ->
  let handler : Handler := counted (fun _ res => json res status body) in
  let first := after (cacheMiddleware duration useRedis req freshResponse
                        (handler req)) w in
  let second := after (cacheMiddleware duration useRedis req freshResponse
                         (handler req)) (withNow first n) in
  handlerRuns (trace first) = S (handlerRuns (trace w))
  /\ lastSent (trace first) = Some (status, body)
  /\ handlerRuns (trace second) = handlerRuns (trace first)
  /\ lastSent (trace second) = Some (200, body).
Proof.
  intros Hm Hd Hs Hp Ht Hk Hr Hb Hn handler first second.
  destruct (miss_then_hit duration status n useRedis req body w
              (handler req) (handler req) Hm Hd Hs Hp Ht Hk Hr Hb Hn)
    as [H1 H2]; [reflexivity|].
  fold first in H1, H2. fold second in H2.
  split; [|split; [|split]].
  - rewrite H1, handlerRuns_app. cbn. lia.
  - rewrite H1. apply lastSent_snoc3.
  - rewrite H2, handlerRuns_app. cbn. lia.
  - rewrite H2. apply lastSent_snoc2.
Qed.

Lemma cached_response_is_replayed_witness :
  let handler : Handler := counted (fun _ res => json res 201 sampleList) in
  let first := after (cacheMiddleware 600 true getProducts freshResponse
                        (handler getProducts)) (freshWorld true) in
  let second := after (cacheMiddleware 600 true getProducts freshResponse
                         (handler getProducts)) (withNow first 1000) in
  handlerRuns (trace first) = S (handlerRuns (trace (freshWorld true)))
  /\ lastSent (trace first) = Some (201, sampleList)
  /\ handlerRuns (trace second) = handlerRuns (trace first)
  /\ lastSent (trace second) = Some (200, sampleList).
Proof.
  apply (cached_response_is_replayed 600 201 1000 true getProducts sampleList
           (freshWorld true)).
  - reflexivity.
  - reflexivity.
  - split; [discriminate|reflexivity].
  - reflexivity.
  - reflexivity.
  - reflexivity.
  - intros _. reflexivity.
  - right. reflexivity.
  - split; discriminate.
Defined.

(** ** The facade and a closed client *)

Lemma closed_client_is_left_alone_witness :
  isOpen (redisClient (redisEnd threeKeys)) = false
  /\ redisClient (after (getCache "products:a" true) (redisEnd threeKeys))
     = redisClient (redisEnd threeKeys)
  /\ redisClient (after (setCache "products:a" sampleList 300 true)
                        (redisEnd threeKeys))
     = redisClient (redisEnd threeKeys)
  /\ redisClient (after (clearCacheByPattern "products") (redisEnd threeKeys))
     = redisClient (redisEnd threeKeys)
  /\ redisClient (after clearAllCache (redisEnd threeKeys))
     = redisClient (redisEnd threeKeys).
Proof.
  split; [reflexivity|].
  apply (closed_client_is_left_alone (redisEnd threeKeys) "products:a"
           "products" sampleList 300 true).
  reflexivity.
Defined.

(** ** Giving up on the connection *)

Lemma failedAttempt_bounds (r : RedisClient) (retries : Z) :
  0 <= failedAttempt r retries <= connectTimeout.
Proof. unfold failedAttempt, connectTimeout. lia. Qed.

Lemma attemptsTime_bounds (r : RedisClient) (n : nat) (retries : Z) :
  0 <= attemptsTime r retries n <= Z.of_nat n * connectTimeout.
Proof.
  revert retries. induction n as [|n IH]; intros retries.
  - cbn [attemptsTime]. lia.
  - cbn [attemptsTime].
    pose proof (failedAttempt_bounds r retries).
    pose proof (IH (retries + 1)). lia.
Qed.

Lemma connectLoop_clock (budget : nat) (retries : Z) (w : World) :
  reachable (redisClient w) = false ->
  0 <= retries <= 11 -> 11 - retries <= Z.of_nat budget ->
  exists w',
    connectLoop budget retries w = (Throw TooManyRetries, w')
    /\ now w' = now w + 50 * (11 - retries) * (retries + 10)
                + attemptsTime (redisClient w) retries (Z.to_nat (12 - retries))
    /\ memoryCache w' = memoryCache w
    /\ redisClient w' = redisClient w.
Proof.
  revert retries w. induction budget as [|budget IH]; intros retries w Hr H0 Hb.
  - assert (retries = 11) as -> by lia.
    cbn [connectLoop]. rewrite Hr. unfold reconnectStrategy. run_monad.
    eexists. split; [reflexivity|].
      cbn [now memoryCache redisClient emit withNow].
      change (Z.to_nat (12 - 11)) with 1%nat. cbn [attemptsTime].
      split; [lia|done].
  - cbn [connectLoop]. rewrite Hr. unfold reconnectStrategy.
    destruct (10 <? retries) eqn:E.
    + apply Z.ltb_lt in E. assert (retries = 11) as -> by lia.
      run_monad. eexists. split; [reflexivity|].
      cbn [now memoryCache redisClient emit withNow].
      change (Z.to_nat (12 - 11)) with 1%nat. cbn [attemptsTime].
      split; [lia|done].
    + apply Z.ltb_ge in E. run_monad.
      destruct (IH (retries + 1)
                  (withNow w (now w + failedAttempt (redisClient w) retries
                              + Z.min (retries * 100) 3000)))
        as (w' & E' & Hn & Hm & Hc); [exact Hr|lia|lia|].
      exists w'. split; [exact E'|]. split; [|split; [exact Hm|exact Hc]].
      rewrite Hn. cbn [now withNow redisClient].
      replace (Z.to_nat (12 - retries))
        with (S (Z.to_nat (12 - (retries + 1)))) by lia.
      cbn [attemptsTime]. rewrite Z.min_l by lia. lia.
Qed.

(** While the server is unreachable [connect()] makes the first attempt and
    eleven more, waits 0, 100, ..., 1000 ms before them, and then rejects
    with the error of the strategy; both tiers are as before.  The time
    that takes is the 5.5 s of the waits and the time of the twelve failed
    attempts: at least 5.5 s, and at most twelve connection timeouts
    more. *)
Theorem connect_gives_up_after_twelve_attempts (w : World) :
  reachable (redisClient w) = false ->
  exists w',
    redisClient_connect w = (Throw TooManyRetries, w')
    /\ now w' = now w + 5500 + attemptsTime (redisClient w) 0 12
    /\ now w + 5500 <= now w' <= now w + 5500 + 12 * connectTimeout
    /\ memoryCache w' = memoryCache w
    /\ redisClient w' = redisClient w.
Proof.
  intros Hr. unfold redisClient_connect.
  destruct (connectLoop_clock 16 0 w Hr) as (w' & E & Hn & Hm & Hc);
    [lia|simpl; lia|].
  change (Z.to_nat (12 - 0)) with 12%nat in Hn.
  pose proof (attemptsTime_bounds (redisClient w) 12 0) as Hb.
  exists w'. split; [exact E|]. split; [rewrite Hn; lia|].
  split; [|done]. rewrite Hn. lia.
Qed.

(** With every attempt refused within 2 ms, [connect()] rejects 5524 ms
    after the call. *)
Lemma connect_gives_up_after_twelve_attempts_witness :
  reachable (redisClient redisDown) = false
  /\ exists w',
       redisClient_connect redisDown = (Throw TooManyRetries, w')
       /\ now w' = now redisDown + 5500 + attemptsTime (redisClient redisDown) 0 12
       /\ now redisDown + 5500 <= now w'
          <= now redisDown + 5500 + 12 * connectTimeout
       /\ memoryCache w' = memoryCache redisDown
       /\ redisClient w' = redisClient redisDown.
Proof.
  split; [reflexivity|].
  apply (connect_gives_up_after_twelve_attempts redisDown). reflexivity.
Defined.

(** The delay that the strategy grants is always [retries * 100]: the
    strategy gives up before the cap of 3000 ms can apply. *)
Theorem reconnectStrategy_cap_never_applies (retries delay : Z) (w w' : World) :
  reconnectStrategy retries w = (Ok delay, w') ->
  delay = retries * 100 /\ delay <= 1000 /\ w' = w.
Proof.
  unfold reconnectStrategy. destruct (10 <? retries) eqn:E.
  - run_monad. discriminate.
  - apply Z.ltb_ge in E. unfold ret. intros [= <- <-].
    rewrite Z.min_l by lia. split; [reflexivity|]. split; [lia|reflexivity].
Qed.

Lemma reconnectStrategy_cap_never_applies_witness :
  reconnectStrategy 10 redisDown = (Ok 1000, redisDown)
  /\ 1000 = 10 * 100 /\ 1000 <= 1000 /\ redisDown = redisDown.
Proof.
  split; [reflexivity|].
  apply (reconnectStrategy_cap_never_applies 10 1000 redisDown redisDown).
  reflexivity.
Defined.

(** ** Start-up *)

Lemma listens_app (tr1 tr2 : list Event) :
  listens (tr1 ++ tr2) = listens tr1 || listens tr2.
Proof. unfold listens. apply existsb_app. Qed.

(** [startServer] comes to listen exactly when both the Redis server and the
    database answer; it then leaves the client open.  In every other case the
    process exits with code 1 without listening. *)
Theorem startServer_outcome (w : World) :
  let up := reachable (redisClient w) && dbReachable w in
  fst (startServer w) = (if up then Ok tt else Exit 1)
  /\ listens (trace (after startServer w)) = listens (trace w) || up
  /\ (up = true -> isOpen (redisClient (after startServer w)) = true).
Proof.
  cbn zeta. destruct (reachable (redisClient w)) eqn:Hr.
  - assert (E : redisClient_connect w = (Ok tt, openClient w)).
    { unfold redisClient_connect. cbn [connectLoop]. by rewrite Hr. }
    unfold after, startServer, createUploadDirs, connectDB.
    run_rw ltac:(rewrite ?E).
    destruct (dbReachable w) eqn:Hd; run_monad.
    + rewrite !listens_app. cbn. rewrite !orb_false_r. done.
    + rewrite !listens_app. cbn. rewrite !orb_false_r. done.
  - destruct (connectLoop_unreachable 16 0 w Hr) as (w' & E & _ & Ht);
      [simpl; lia|].
    unfold after, startServer, createUploadDirs, redisClient_connect.
    run_rw ltac:(rewrite ?E).
    cbn [trace emit]. rewrite Ht, !listens_app. cbn.
    rewrite !orb_false_r. done.
Qed.

(** * The code around the cache module *)

#[local] Hint Unfold console_log r_exists r_quit : cache_run.

(** ** The cache-clear route *)

(** [DELETE /api/cache/clear] clears by pattern only.  With a pattern that
    is not empty the handler runs [clearCacheByPattern] and answers
    [success: true] with the status of the response object, whatever the
    state of the two tiers.  Without a pattern, or with the empty one, the
    [require] of the handler throws inside the [try]: the [catch] clause
    answers 500 with [success: false], [clearAllCache] is not called, and
    both tiers stay as they were. *)
Theorem cacheClear_without_pattern_answers_500 (pattern : option string)
    (req : Request) (res : Response) (w : World) :
  json res = express_json ->
  cacheClearHandler pattern req res w =
  match pattern with
  | Some (String _ _ as p) =>
      (Ok tt,
       emit (Sent (statusCode res)
                  (JObj [("success", JBool true);
                         ("message", JStr ("Cache cleared for pattern: " ++ p))]))
         (after (clearCacheByPattern p) w))
  | _ =>
      (Ok tt,
       emit (Sent 500 (JObj [("success", JBool false);
                             ("message", JStr "Failed to clear cache")])) w)
  end.
Proof.
  intros Hj. unfold cacheClearHandler, after. rewrite Hj.
  assert (Hnone :
            tryCatch
              (require "./src/middleware/cache" ;;;
               clearAllCache ;;;
               express_json (statusCode res)
                 (JObj [("success", JBool true);
                        ("message", JStr "All cache cleared")]))
              (fun _ => console_log ;;;
                 express_json 500
                   (JObj [("success", JBool false);
                          ("message", JStr "Failed to clear cache")])) w =
            (Ok tt,
             emit (Sent 500 (JObj [("success", JBool false);
                                   ("message", JStr "Failed to clear cache")]))
               w)) by reflexivity.
  destruct pattern as [[|c p]|]; [exact Hnone| |exact Hnone].
  unfold tryCatch at 1, bind at 1.
  pose proof (clearCacheByPattern_returns (String c p) w) as Hr.
  destruct (clearCacheByPattern (String c p) w) as [r w1].
  cbn [fst] in Hr. subst r. reflexivity.
Qed.

Lemma cacheClear_without_pattern_answers_500_witness :
  json freshResponse = express_json
  /\ cacheClearHandler None (mkRequest "DELETE" "/api/cache/clear")
                       freshResponse threeKeys
     = (Ok tt,
        emit (Sent 500 (JObj [("success", JBool false);
                              ("message", JStr "Failed to clear cache")]))
          threeKeys).
Proof.
  split; [reflexivity|].
  apply (cacheClear_without_pattern_answers_500 None
           (mkRequest "DELETE" "/api/cache/clear") freshResponse threeKeys).
  reflexivity.
Defined.

(** ** The health check *)

(** [GET /health] does not report health.  Its handler begins with the
    same [require('./src/middleware/cache')] as the performance route: on
    every request that reaches the handler the [require] throws, the
    error-handling middleware answers 500 with [success: false], and
    nothing is stored, so the response cache in front of the route never
    holds a report and the next request reaches the handler again. *)
Theorem health_route_answers_500 (p : ProcessInfo) (req : Request) (w : World) :
  method req = "GET" ->
  truthy (fst (nc_get (now w) ("cache:" ++ originalUrl req) (memoryCache w)))
  = false ->
  includes (messageOf p MODULE_NOT_FOUND) "Only" = false ->
  exists w' body,
    healthRoute p req w = (Ok tt, w')
    /\ trace w' = (trace w ++ [HandlerRan;
                               LogError (GlobalError MODULE_NOT_FOUND);
                               Sent 500 body])%list
    /\ prop "success" body = JBool false
    /\ prop "status" body = JUndefined
    /\ prop "redis" body = JUndefined
    /\ memoryCache w'
       = snd (nc_get (now w) ("cache:" ++ originalUrl req) (memoryCache w))
    /\ forall n,
         truthy (fst (nc_get n ("cache:" ++ originalUrl req) (memoryCache w')))
         = false.
Proof.
  intros Hm Ht Ho. unfold healthRoute.
  destruct (broken_require_route p 30 req
              (fun rq rs w0 =>
                 json rs 200 (healthBody p (redisClient w0) (now w0)) w0)
              w Hm Ht Ho) as (body & E & Hs & Hmsg & Hpath & Hnone).
  eexists. exists body. split; [exact E|].
  cbn [trace emit withMemory memoryCache].
  split; [by rewrite <- !app_assoc|]. split; [exact Hs|].
  split; [apply Hnone; cbn [In]; intuition discriminate|].
  split; [apply Hnone; cbn [In]; intuition discriminate|].
  split; [reflexivity|].
  intros n. by apply nc_get_falsy_stays.
Qed.

Lemma health_route_answers_500_witness :
  method (mkRequest "GET" "/health") = "GET"
  /\ truthy (fst (nc_get (now (freshWorld true))
                         ("cache:" ++ originalUrl (mkRequest "GET" "/health"))
                         (memoryCache (freshWorld true)))) = false
  /\ includes (messageOf sampleProcess MODULE_NOT_FOUND) "Only" = false
  /\ exists w' body,
       healthRoute sampleProcess (mkRequest "GET" "/health") (freshWorld true)
       = (Ok tt, w')
       /\ lastSent (trace w') = Some (500, body)
       /\ prop "success" body = JBool false
       /\ prop "redis" body = JUndefined.
Proof.
  split; [reflexivity|]. split; [reflexivity|]. split; [reflexivity|].
  destruct (health_route_answers_500 sampleProcess (mkRequest "GET" "/health")
              (freshWorld true) eq_refl eq_refl eq_refl)
    as (w' & body & E & Ht & Hs & _ & Hr & _).
  exists w', body. split; [exact E|]. split; [by rewrite Ht|].
  split; [exact Hs|exact Hr].
Defined.

(** ** The connection test of database.js *)

(** [testConnection()] never answers [false]: [connectDB] does not throw
    when the database is down, it ends the process, so the [catch] clause of
    the test is never entered. *)
Theorem testConnection_never_false (w : World) :
  testConnection w = (if dbReachable w then Ok true else Exit 1, w).
Proof.
  unfold testConnection, connectDB. run_monad.
  destruct (dbReachable w); reflexivity.
Qed.

(** ** The wrapper class of config/redis.js *)

Lemma globToks_lits (p s : string) : globToks (lits p) s = String.eqb p s.
Proof.
  revert s. induction p as [|c p IH]; intros [|a s]; try reflexivity.
  cbn [lits globToks]. rewrite IH. cbn [String.eqb].
  destruct (Ascii.eqb c a); reflexivity.
Qed.

Lemma append_empty_r (s : string) : s ++ EmptyString = s.
Proof.
  induction s as [|c s IH]; [reflexivity|].
  change (String c (s ++ EmptyString) = String c s). by rewrite IH.
Qed.

(** A pattern without glob operators matches its own text only. *)
Lemma globMatch_literal (p key : string) :
  globFree p = true -> globMatch p key = String.eqb p key.
Proof.
  intros H. unfold globMatch.
  rewrite <- (append_empty_r p) at 1.
  rewrite (globParse_free p EmptyString H). cbn [globParse].
  rewrite app_nil_r. apply globToks_lits.
Qed.


(** With the client closed the methods of the wrapper answer [null] or
    [false] and leave the world as it is. *)
Theorem wrapper_methods_when_closed (w : World) (key pattern : string)
    (value : jsval) (expireInSeconds : Z) :
  isOpen (redisClient w) = false ->
  RedisClient_get key w = (Ok JNull, w)
  /\ RedisClient_set key value expireInSeconds w = (Ok false, w)
  /\ RedisClient_del key w = (Ok false, w)
  /\ RedisClient_exists key w = (Ok false, w)
  /\ RedisClient_flushPattern pattern w = (Ok false, w).
Proof.
  intros Hopen.
  unfold RedisClient_get, RedisClient_set, RedisClient_del,
    RedisClient_exists, RedisClient_flushPattern.
  run_with Hopen. done.
Qed.

Lemma wrapper_methods_when_closed_witness :
  isOpen (redisClient (redisEnd threeKeys)) = false
  /\ RedisClient_get "products:a" (redisEnd threeKeys)
     = (Ok JNull, redisEnd threeKeys)
  /\ RedisClient_set "products:a" sampleList 3600 (redisEnd threeKeys)
     = (Ok false, redisEnd threeKeys)
  /\ RedisClient_del "products:a" (redisEnd threeKeys)
     = (Ok false, redisEnd threeKeys)
  /\ RedisClient_exists "products:a" (redisEnd threeKeys)
     = (Ok false, redisEnd threeKeys)
  /\ RedisClient_flushPattern "products:*" (redisEnd threeKeys)
     = (Ok false, redisEnd threeKeys).
Proof.
  split; [reflexivity|].
  apply (wrapper_methods_when_closed (redisEnd threeKeys) "products:a"
           "products:*" sampleList 3600).
  reflexivity.
Defined.

(** What [set] of the wrapper stored is what [get] returns until the expiry,
    and [null] from then on.  The value comes back as [JSON.stringify] wrote
    it, also when it is falsy. *)
Theorem wrapper_set_then_get (w : World) (key : string) (value : jsval)
    (expireInSeconds n : Z) :
  isOpen (redisClient w) = true -> 0 < expireInSeconds ->
  value <> JUndefined -> now w <= n ->
  fst (RedisClient_set key value expireInSeconds w) = Ok true
  /\ fst (RedisClient_get key
            (withNow (after (RedisClient_set key value expireInSeconds) w) n))
     = Ok (if n <? now w + expireInSeconds * 1000
           then written (stats (memoryCache w)) value
           else JNull).
Proof.
  intros Hopen Hpos Hx Hn.
  assert (Hle : (expireInSeconds <=? 0) = false) by (apply Z.leb_gt; lia).
  assert (Hset : RedisClient_set key value expireInSeconds w =
                 (Ok true,
                  withRedis w
                    (withServer (redisClient w)
                       (<[key := mkREntry (Ser (written (stats (memoryCache w)) value))
                                          (now w + expireInSeconds * 1000)]>
                          (r_live (now w) (server (redisClient w))))))).
  { unfold RedisClient_set. run_with Hopen.
    destruct value; try done; run_rw ltac:(rewrite ?Hopen, ?Hle); reflexivity. }
  unfold after. rewrite Hset. cbn [fst snd]. split; [reflexivity|].
  unfold RedisClient_get. run_with Hopen.
  rewrite r_live_lookup, lookup_insert_eq. cbn [expireAt].
  destruct (n <? now w + expireInSeconds * 1000) eqn:E.
  - apply Z.ltb_lt in E. rewrite decide_True by exact E.
    reflexivity.
  - apply Z.ltb_ge in E. rewrite decide_False by lia.
    reflexivity.
Qed.

Lemma wrapper_set_then_get_witness :
  isOpen (redisClient (freshWorld true)) = true /\ 0 < 3600
  /\ JBool false <> JUndefined /\ now (freshWorld true) <= 1000
  /\ fst (RedisClient_set "flag:maintenance" (JBool false) 3600 (freshWorld true))
     = Ok true
  /\ fst (RedisClient_get "flag:maintenance"
            (withNow (after (RedisClient_set "flag:maintenance" (JBool false) 3600)
                            (freshWorld true)) 1000))
     = Ok (if 1000 <? now (freshWorld true) + 3600 * 1000
           then written (stats (memoryCache (freshWorld true))) (JBool false)
           else JNull).
Proof.
  split; [reflexivity|]. split; [reflexivity|]. split; [discriminate|].
  split; [discriminate|].
  apply (wrapper_set_then_get (freshWorld true) "flag:maintenance" (JBool false)
           3600 1000); [reflexivity|reflexivity|discriminate|discriminate].
Defined.

Lemma deleteAll_single (k : string) (m : gmap string REntry) :
  snd (deleteAll [k] m) = delete k m.
Proof. reflexivity. Qed.

(** [flushPattern] hands its argument to KEYS as it is.  For a pattern
    without glob operators it therefore removes the one key that equals the
    pattern and nothing else, where [clearCacheByPattern] of the cache module
    removes every key that contains it. *)
Theorem wrapper_flushPattern_literal (w : World) (pattern : string) :
  isOpen (redisClient w) = true -> globFree pattern = true ->
  fst (RedisClient_flushPattern pattern w) = Ok true
  /\ forall k,
       server (redisClient (after (RedisClient_flushPattern pattern) w)) !! k
       = if String.eqb pattern k then None
         else r_live (now w) (server (redisClient w)) !! k.
Proof.
  intros Hopen Hfree.
  set (live := r_live (now w) (server (redisClient w))).
  assert (Hkeys : List.filter (globMatch pattern) (map_to_list live).*1
                  = match live !! pattern with Some _ => [pattern] | None => [] end).
  { assert (Hnd : NoDup (map_to_list live).*1) by apply NoDup_fst_map_to_list.
    assert (Hin : forall k, k ∈ (map_to_list live).*1 <-> is_Some (live !! k)).
    { intros k. rewrite list_elem_of_fmap. split.
      - intros [[k' e] [-> Hel]]. apply elem_of_map_to_list in Hel. by eexists.
      - intros [e He]. exists (k, e). split; [done|].
        by apply elem_of_map_to_list. }
    revert Hnd Hin. generalize ((map_to_list live).*1). intros l Hnd Hin.
    assert (Hf : forall l0 : list string, NoDup l0 ->
               List.filter (globMatch pattern) l0
               = if decide (pattern ∈ l0) then [pattern] else []).
    { induction l0 as [|a l0 IH]; intros Hnd0; [reflexivity|].
      apply NoDup_cons in Hnd0 as [Hna Hnd1]. cbn [List.filter].
      rewrite (globMatch_literal pattern a Hfree), (IH Hnd1).
      destruct (String.eqb pattern a) eqn:Ea.
      - apply String.eqb_eq in Ea. subst a.
        destruct (decide (pattern ∈ l0)) as [Hi|Hi]; [done|].
        destruct (decide (pattern ∈ pattern :: l0)) as [Hj|Hj]; [done|].
        exfalso. apply Hj. by left.
      - apply String.eqb_neq in Ea.
        destruct (decide (pattern ∈ l0)) as [Hi|Hi];
          destruct (decide (pattern ∈ a :: l0)) as [Hj|Hj]; try done.
        + exfalso. apply Hj. by right.
        + apply elem_of_cons in Hj as [Hj|Hj]; done. }
    rewrite (Hf l Hnd).
    destruct (live !! pattern) as [e|] eqn:El.
    - destruct (decide (pattern ∈ l)) as [Hi|Hi]; [reflexivity|].
      exfalso. apply Hi, Hin. by eexists.
    - destruct (decide (pattern ∈ l)) as [Hi|Hi]; [|reflexivity].
      apply Hin in Hi. rewrite El in Hi. by destruct Hi. }
  unfold after, RedisClient_flushPattern. run_with Hopen.
  fold live. rewrite Hkeys.
  destruct (live !! pattern) as [e|] eqn:El.
  - run_with Hopen.
    replace (r_live (now w) live) with live by (symmetry; apply r_live_idem).
    pose proof (deleteAll_single pattern live) as Hs.
    destruct (deleteAll [pattern] live) as [cnt m]. cbn [snd] in Hs. subst m.
    run_monad.
    split; [reflexivity|]. intros k.
    destruct (String.eqb pattern k) eqn:Ek.
    + apply String.eqb_eq in Ek. subst k. apply lookup_delete_eq.
    + apply String.eqb_neq in Ek. by rewrite lookup_delete_ne.
  - run_monad. split; [reflexivity|]. intros k.
    destruct (String.eqb pattern k) eqn:Ek; [|reflexivity].
    apply String.eqb_eq in Ek. by subst k.
Qed.

Lemma wrapper_flushPattern_literal_witness :
  isOpen (redisClient threeKeys) = true /\ globFree "products" = true
  /\ fst (RedisClient_flushPattern "products" threeKeys) = Ok true
  /\ forall k,
       server (redisClient (after (RedisClient_flushPattern "products") threeKeys))
       !! k
       = if String.eqb "products" k then None
         else r_live (now threeKeys) (server (redisClient threeKeys)) !! k.
Proof.
  split; [reflexivity|]. split; [reflexivity|].
  apply (wrapper_flushPattern_literal threeKeys "products"); reflexivity.
Defined.

(** [disconnect] is the one method of the wrapper without a [catch]: it
    closes an open client, and on a closed client the rejection of [quit]
    reaches the caller. *)
Theorem wrapper_disconnect_twice_throws (w : World) :
  isOpen (redisClient w) = true ->
  fst (RedisClient_disconnect w) = Ok tt
  /\ isOpen (redisClient (after RedisClient_disconnect w)) = false
  /\ fst (RedisClient_disconnect (after RedisClient_disconnect w))
     = Throw ClientClosedError.
Proof.
  intros Hopen. unfold after, RedisClient_disconnect. run_with Hopen. done.
Qed.

Lemma wrapper_disconnect_twice_throws_witness :
  isOpen (redisClient threeKeys) = true
  /\ fst (RedisClient_disconnect threeKeys) = Ok tt
  /\ isOpen (redisClient (after RedisClient_disconnect threeKeys)) = false
  /\ fst (RedisClient_disconnect (after RedisClient_disconnect threeKeys))
     = Throw ClientClosedError.
Proof.
  split; [reflexivity|].
  apply (wrapper_disconnect_twice_throws threeKeys). reflexivity.
Defined.

(** ** Authentication and roles *)

Lemma splitOn_word (sep : ascii) (a b : string) :
  includes a (String sep EmptyString) = false ->
  splitOn sep (a ++ String sep b) = a :: splitOn sep b.
Proof.
  induction a as [|c a IH]; intros H.
  - change (splitOn sep (String sep b) = EmptyString :: splitOn sep b).
    cbn [splitOn]. by rewrite Ascii.eqb_refl.
  - change (splitOn sep (String c (a ++ String sep b))
            = String c a :: splitOn sep b).
    cbn [includes startsWith] in H.
    apply orb_false_iff in H as [Hc Ha].
    assert (Hne : Ascii.eqb c sep = false).
    { destruct (Ascii.eqb c sep) eqn:E; [|done].
      apply Ascii.eqb_eq in E. subst c.
      rewrite Ascii.eqb_refl in Hc. by destruct a. }
    cbn [splitOn]. rewrite Hne, (IH Ha). reflexivity.
Qed.

(** [authenticateToken] reads the second word of the header and never
    looks at the first: any scheme word in place of [Bearer] gives the same
    verdict. *)
Theorem authenticateToken_ignores_the_scheme
    (jwt_verify : string -> outcome jsval) (findById : jsval -> outcome jsval)
    (scheme rest : string) :
  includes scheme " " = false ->
  authenticateToken jwt_verify findById (Some (scheme ++ " " ++ rest))
  = authenticateToken jwt_verify findById (Some ("Bearer " ++ rest)).
Proof.
  intros H. unfold authenticateToken.
  assert (Ht : truthy (JStr (scheme ++ " " ++ rest)) = true).
  { cbn [truthy]. destruct scheme; reflexivity. }
  rewrite Ht.
  change (truthy (JStr ("Bearer " ++ rest))) with true. cbv iota.
  change (scheme ++ " " ++ rest) with (scheme ++ String " " rest).
  change ("Bearer " ++ rest) with ("Bearer" ++ String " " rest).
  rewrite (splitOn_word " " scheme rest H).
  rewrite (splitOn_word " " "Bearer" rest) by reflexivity.
  reflexivity.
Qed.

Lemma authenticateToken_ignores_the_scheme_witness :
  includes "Basic" " " = false
  /\ authenticateToken (fun _ => Ok (JStr "64b7f0c2a1")) (fun _ => Ok JNull)
                       (Some ("Basic" ++ " " ++ "abc.def.ghi"))
     = authenticateToken (fun _ => Ok (JStr "64b7f0c2a1")) (fun _ => Ok JNull)
                         (Some ("Bearer " ++ "abc.def.ghi")).
Proof.
  split; [reflexivity|].
  apply (authenticateToken_ignores_the_scheme
           (fun _ => Ok (JStr "64b7f0c2a1")) (fun _ => Ok JNull)
           "Basic" "abc.def.ghi").
  reflexivity.
Defined.

(** [authenticateToken] never throws, and it calls [next()] only with an
    active user that the database returned for the identity of a verified,
    non-empty token.  What [jwt.verify] or the database throws is answered
    403. *)
Theorem authenticateToken_passes_only_active_users
    (jwt_verify : string -> outcome jsval) (findById : jsval -> outcome jsval)
    (authorization : option string) :
  (forall e, authenticateToken jwt_verify findById authorization <> Throw e)
  /\ (forall user,
        authenticateToken jwt_verify findById authorization = Ok (Next user) ->
        truthy (prop "isActive" user) = true
        /\ exists authHeader token userId,
             authorization = Some authHeader
             /\ nth_error (splitOn " " authHeader) 1 = Some token
             /\ token <> EmptyString
             /\ jwt_verify token = Ok userId
             /\ findById userId = Ok user).
Proof.
  unfold authenticateToken.
  destruct authorization as [authHeader|]; [|split; [done|done]].
  destruct (truthy (JStr authHeader)) eqn:Ht.
  - destruct (nth_error (splitOn " " authHeader) 1) as [[|c token]|] eqn:En;
      [split; done| |split; done].
    destruct (jwt_verify (String c token)) as [userId|e|code] eqn:Ev;
      cbn [andThen orElse]; [|split; done|split; done].
    destruct (findById userId) as [user|e|code] eqn:Ef;
      cbn [andThen orElse]; [|split; done|split; done].
    destruct (truthy user) eqn:Hu; cbn [negb orb]; [|split; done].
    destruct (truthy (prop "isActive" user)) eqn:Ha; cbn [negb orb];
      [|split; done].
    split; [done|]. intros user' [= <-]. split; [exact Ha|].
    exists authHeader, (String c token), userId. done.
  - cbn [truthy] in Ht. apply negb_false_iff, String.eqb_eq in Ht. subst.
    split; done.
Qed.

Lemma existsb_eqb_In (r : string) (roles : list string) :
  existsb (String.eqb r) roles = true <-> In r roles.
Proof.
  rewrite existsb_exists. split.
  - intros [x [Hx He]]. apply String.eqb_eq in He. by subst.
  - intros H. exists r. split; [exact H|apply String.eqb_refl].
Qed.

Lemma requireRoles_mono (jwt_verify : string -> outcome jsval)
    (findById : jsval -> outcome jsval) (roles roles' : list string)
    (authorization : option string) (user : jsval) :
  (forall r, In r roles -> In r roles') ->
  requireRoles jwt_verify findById roles authorization = Ok (Next user) ->
  requireRoles jwt_verify findById roles' authorization = Ok (Next user).
Proof.
  intros Hsub. unfold requireRoles.
  destruct (authenticateToken jwt_verify findById authorization)
    as [[u|status message]|e|code]; cbn [andThen]; try done.
  unfold authorizeRoles. destruct (truthy u); cbn [negb]; [|done].
  destruct (prop "role" u) as [| | |r| | | |]; cbn [negb]; try done.
  destruct (existsb (String.eqb r) roles) eqn:E; cbn [negb]; [|done].
  apply existsb_eqb_In, Hsub, existsb_eqb_In in E. by rewrite E.
Qed.

(** The role gates are nested: a request that passes [requireAdmin] passes
    [requireModerator], one that passes [requireModerator] passes
    [requireSeller], and one that passes [requireSeller] passes
    [requireUser], with the same user. *)
Theorem role_gates_are_nested (jwt_verify : string -> outcome jsval)
    (findById : jsval -> outcome jsval) (authorization : option string)
    (user : jsval) :
  (requireAdmin jwt_verify findById authorization = Ok (Next user) ->
   requireModerator jwt_verify findById authorization = Ok (Next user))
  /\ (requireModerator jwt_verify findById authorization = Ok (Next user) ->
      requireSeller jwt_verify findById authorization = Ok (Next user))
  /\ (requireSeller jwt_verify findById authorization = Ok (Next user) ->
      requireUser jwt_verify findById authorization = Ok (Next user)).
Proof.
  unfold requireAdmin, requireModerator, requireSeller, requireUser.
  split; [|split]; apply requireRoles_mono; cbn [In]; tauto.
Qed.

(** The narrowest gate lets nobody through whose stored role is not one of
    the four role names: an active, authenticated user with any other role,
    or with none, is answered 403 by [requireUser]. *)
Theorem requireUser_rejects_other_roles (jwt_verify : string -> outcome jsval)
    (findById : jsval -> outcome jsval) (authorization : option string)
    (user : jsval) :
  authenticateToken jwt_verify findById authorization = Ok (Next user) ->
  (forall r, prop "role" user = JStr r ->
             ~ In r [ROLES_ADMIN; ROLES_MODERATOR; ROLES_SELLER; ROLES_USER]) ->
  requireUser jwt_verify findById authorization
  = Ok (Reply 403 "Insufficient role permissions").
Proof.
  intros Ha Hr. unfold requireUser, requireRoles. rewrite Ha. cbn [andThen].
  destruct (authenticateToken_passes_only_active_users jwt_verify findById
              authorization) as [_ Hact].
  destruct (Hact user Ha) as [Hactive _].
  unfold authorizeRoles.
  assert (Hu : truthy user = true).
  { destruct user; try reflexivity; cbn in Hactive; discriminate. }
  rewrite Hu. cbn [negb].
  destruct (prop "role" user) as [| | |r| | | |] eqn:Er; try reflexivity.
  destruct (existsb (String.eqb r)
              [ROLES_ADMIN; ROLES_MODERATOR; ROLES_SELLER; ROLES_USER]) eqn:E;
    [|reflexivity].
  apply existsb_eqb_In in E. exfalso. exact (Hr r eq_refl E).
Qed.

Lemma authenticateToken_passes_only_active_users_witness :
  authenticateToken sampleVerify sampleUsers (Some "Bearer admin.token")
  = Ok (Next adminUser)
  /\ truthy (prop "isActive" adminUser) = true
  /\ exists authHeader token userId,
       Some "Bearer admin.token" = Some authHeader
       /\ nth_error (splitOn " " authHeader) 1 = Some token
       /\ token <> EmptyString
       /\ sampleVerify token = Ok userId
       /\ sampleUsers userId = Ok adminUser.
Proof.
  assert (E : authenticateToken sampleVerify sampleUsers
                (Some "Bearer admin.token") = Ok (Next adminUser))
    by reflexivity.
  split; [exact E|].
  exact (proj2 (authenticateToken_passes_only_active_users sampleVerify
                  sampleUsers (Some "Bearer admin.token")) adminUser E).
Defined.

Lemma role_gates_are_nested_witness :
  requireAdmin sampleVerify sampleUsers (Some "Bearer admin.token")
  = Ok (Next adminUser)
  /\ requireModerator sampleVerify sampleUsers (Some "Bearer admin.token")
     = Ok (Next adminUser)
  /\ requireSeller sampleVerify sampleUsers (Some "Bearer admin.token")
     = Ok (Next adminUser)
  /\ requireUser sampleVerify sampleUsers (Some "Bearer admin.token")
     = Ok (Next adminUser).
Proof.
  destruct (role_gates_are_nested sampleVerify sampleUsers
              (Some "Bearer admin.token") adminUser) as (H1 & H2 & H3).
  assert (E : requireAdmin sampleVerify sampleUsers (Some "Bearer admin.token")
              = Ok (Next adminUser)) by reflexivity.
  split; [exact E|]. split; [exact (H1 E)|].
  split; [exact (H2 (H1 E))|exact (H3 (H2 (H1 E)))].
Defined.

Lemma requireUser_rejects_other_roles_witness :
  authenticateToken sampleVerify sampleUsers (Some "Bearer guest.token")
  = Ok (Next guestUser)
  /\ requireUser sampleVerify sampleUsers (Some "Bearer guest.token")
     = Ok (Reply 403 "Insufficient role permissions").
Proof.
  assert (E : authenticateToken sampleVerify sampleUsers
                (Some "Bearer guest.token") = Ok (Next guestUser))
    by reflexivity.
  split; [exact E|].
  apply (requireUser_rejects_other_roles sampleVerify sampleUsers
           (Some "Bearer guest.token") guestUser E).
  intros r [= <-]. cbn [In]. unfold ROLES_ADMIN, ROLES_MODERATOR, ROLES_SELLER,
    ROLES_USER. intros [H|[H|[H|[H|[]]]]]; discriminate.
Defined.

(** ** Permissions *)

Lemma fieldOf_assign_eq (name : string) (x : jsval) (fields : list (string * jsval)) :
  fieldOf name (assign name x fields) = x.
Proof.
  induction fields as [|[k y] fields IH]; cbn [assign fieldOf].
  - by rewrite String.eqb_refl.
  - destruct (String.eqb k name) eqn:E; cbn [fieldOf]; by rewrite E.
Qed.

Lemma fieldOf_assign_ne (name other : string) (x : jsval)
    (fields : list (string * jsval)) :
  name <> other ->
  fieldOf name (assign other x fields) = fieldOf name fields.
Proof.
  intros Hne. induction fields as [|[k y] fields IH]; cbn [assign fieldOf].
  - replace (String.eqb other name) with false; [reflexivity|].
    symmetry. apply String.eqb_neq. congruence.
  - destruct (String.eqb k other) eqn:E; cbn [fieldOf].
    + apply String.eqb_eq in E. subst k.
      replace (String.eqb other name) with false; [reflexivity|].
      symmetry. apply String.eqb_neq. congruence.
    + by rewrite IH.
Qed.

(** The administrator role, and the permission ['all'], grant every
    permission: [hasPermission] answers [true] whatever is asked. *)
Theorem admin_has_every_permission (findById : jsval -> outcome jsval)
    (userId user : jsval) (permission : string) :
  findById userId = Ok user -> truthy user = true ->
  prop "role" user = JStr ROLES_ADMIN
  \/ jsIncludes (prop "permissions" user) "all" = Ok true ->
  hasPermission findById userId permission = Ok true.
Proof.
  intros Hf Hu H. unfold hasPermission. rewrite Hf. cbn [andThen].
  rewrite Hu. cbn [negb].
  destruct H as [Hr|Hall].
  - rewrite Hr. by rewrite String.eqb_refl.
  - destruct (match prop "role" user with
              | JStr r => String.eqb r ROLES_ADMIN
              | _ => false
              end); [reflexivity|].
    destruct (jsIncludes (prop "permissions" user) permission)
      as [[]|e|code] eqn:E; cbn [andThen]; try done.
    all: destruct (prop "permissions" user); cbn in E, Hall; discriminate.
Qed.

Lemma admin_has_every_permission_witness :
  sampleUsers (JStr "64b7f0c2a1d3e4f5a6b7c8d9") = Ok adminUser
  /\ truthy adminUser = true
  /\ hasPermission sampleUsers (JStr "64b7f0c2a1d3e4f5a6b7c8d9") "manage_orders"
     = Ok true.
Proof.
  split; [reflexivity|]. split; [reflexivity|].
  apply (admin_has_every_permission sampleUsers
           (JStr "64b7f0c2a1d3e4f5a6b7c8d9") adminUser "manage_orders").
  - reflexivity.
  - reflexivity.
  - left. reflexivity.
Defined.

(** [UserModel.create] reads the default permissions of [userData.role]
    before it defaults the role: without a role that is a string the call
    throws a TypeError and nothing is inserted, so the default role of the
    document is only ever used for the empty string. *)
Theorem create_needs_a_role (insertOne : jsval -> outcome jsval) (today : jsval)
    (userData : list (string * jsval)) :
  (forall r, fieldOf "role" userData <> JStr r) ->
  create insertOne today userData = Throw TypeError.
Proof.
  intros H. unfold create, newUser, getDefaultPermissions.
  destruct (fieldOf "role" userData) as [| | |r| | | |]; try reflexivity.
  by destruct (H r).
Qed.

Lemma create_needs_a_role_witness :
  (forall r, fieldOf "role" [("email", JStr "a@b.c"); ("name", JStr "A")] <> JStr r)
  /\ create (fun doc => Ok doc) (JStr "2024-01-01T00:00:00.000Z")
            [("email", JStr "a@b.c"); ("name", JStr "A")]
     = Throw TypeError.
Proof.
  assert (H : forall r, fieldOf "role" [("email", JStr "a@b.c"); ("name", JStr "A")]
                        <> JStr r) by (intros r; discriminate).
  split; [exact H|].
  exact (create_needs_a_role (fun doc => Ok doc) (JStr "2024-01-01T00:00:00.000Z")
           [("email", JStr "a@b.c"); ("name", JStr "A")] H).
Defined.

Ltac read_fields :=
  repeat first [ rewrite fieldOf_assign_eq
               | rewrite fieldOf_assign_ne by discriminate ].

Lemma default_permissions_cover_user (r p : string) :
  In p PERMISSIONS_USER ->
  let ps := match lookupPermissions (toUpperCase r) PERMISSIONS with
            | Some ps => ps
            | None => PERMISSIONS_USER
            end in
  In p ps \/ In "all" ps.
Proof.
  intros Hp. unfold PERMISSIONS. cbn [lookupPermissions].
  destruct (String.eqb "USER" (toUpperCase r)); [left; exact Hp|].
  destruct (String.eqb "SELLER" (toUpperCase r)).
  { left. unfold PERMISSIONS_USER in Hp. cbn [In] in *. tauto. }
  destruct (String.eqb "MODERATOR" (toUpperCase r)).
  { left. unfold PERMISSIONS_USER in Hp. cbn [In] in *. tauto. }
  destruct (String.eqb "ADMIN" (toUpperCase r)).
  { right. left. reflexivity. }
  left. exact Hp.
Qed.

Lemma jsIncludes_strings (ps : list string) (p : string) :
  In p ps -> jsIncludes (JArr (List.map JStr ps)) p = Ok true.
Proof.
  intros H. cbn [jsIncludes]. f_equal.
  apply existsb_exists. exists (JStr p). split.
  - by apply in_map.
  - apply String.eqb_refl.
Qed.

(** A user created with any role name and without permissions of its own
    is active, unverified, and holds every permission of the USER list,
    whatever was sent as [isActive], [emailVerified] or role name. *)
Theorem new_user_holds_the_user_permissions (today : jsval)
    (userData : list (string * jsval)) (r p : string)
    (findById : jsval -> outcome jsval) (userId : jsval) :
  fieldOf "role" userData = JStr r ->
  truthy (fieldOf "permissions" userData) = false ->
  In p PERMISSIONS_USER ->
  exists user,
    newUser today userData = Ok user
    /\ prop "isActive" user = JBool true
    /\ prop "emailVerified" user = JBool false
    /\ (findById userId = Ok user ->
        hasPermission findById userId p = Ok true).
Proof.
  intros Hr Hp Hin. unfold newUser, getDefaultPermissions.
  rewrite Hr, Hp. cbn [andThen]. eexists. split; [reflexivity|].
  cbn [prop]. read_fields.
  split; [reflexivity|]. split; [reflexivity|].
  intros Hf. unfold hasPermission. rewrite Hf. cbn [andThen truthy negb prop].
  read_fields.
  match goal with
  | |- (if ?b then _ else _) = _ => destruct b; [reflexivity|]
  end.
  destruct (default_permissions_cover_user r p Hin) as [H|H].
  - by rewrite (jsIncludes_strings _ _ H).
  - rewrite (jsIncludes_strings _ "all" H).
    destruct (jsIncludes _ p) as [[]|e|code] eqn:E; cbn [andThen]; try done.
Qed.

Lemma new_user_holds_the_user_permissions_witness :
  let userData := [("email", JStr "a@b.c"); ("role", JStr "Seller");
                   ("isActive", JBool false)] in
  fieldOf "role" userData = JStr "Seller"
  /\ truthy (fieldOf "permissions" userData) = false
  /\ In "create_order" PERMISSIONS_USER
  /\ exists user,
       newUser (JStr "2024-01-01T00:00:00.000Z") userData = Ok user
       /\ prop "isActive" user = JBool true
       /\ prop "emailVerified" user = JBool false
       /\ ((fun _ => newUser (JStr "2024-01-01T00:00:00.000Z") userData)
             (JStr "64b7f0c2a1d3e4f5a6b7c8db") = Ok user ->
           hasPermission
             (fun _ => newUser (JStr "2024-01-01T00:00:00.000Z") userData)
             (JStr "64b7f0c2a1d3e4f5a6b7c8db") "create_order" = Ok true).
Proof.
  cbv zeta. split; [reflexivity|]. split; [reflexivity|].
  split; [right; left; reflexivity|].
  apply (new_user_holds_the_user_permissions (JStr "2024-01-01T00:00:00.000Z")
           [("email", JStr "a@b.c"); ("role", JStr "Seller");
            ("isActive", JBool false)]
           "Seller" "create_order"
           (fun _ => newUser (JStr "2024-01-01T00:00:00.000Z")
                       [("email", JStr "a@b.c"); ("role", JStr "Seller");
                        ("isActive", JBool false)])
           (JStr "64b7f0c2a1d3e4f5a6b7c8db")).
  - reflexivity.
  - reflexivity.
  - right; left; reflexivity.
Defined.

(** * The routes in front of and behind the cache *)

#[local] Hint Unfold liftOutcome : cache_run.

(** ** The response cache and authentication *)

(** The response cache is mounted in front of the router, and its key is the
    URL alone.  Once a permitted user has been answered 200 on the protected
    route, the same URL is answered from the cache for up to 300 s to every
    request, whatever its [Authorization] header, also to one without any:
    the gate and the handler do not run. *)
Theorem cache_answers_before_authentication
    (jwt_verify : string -> outcome jsval) (findById : jsval -> outcome jsval)
    (p : ProcessInfo) (req : Request) (authorization other : option string)
    (user : jsval) (page : jsval -> jsval) (w : World) (n : Z) :
  method req = "GET" ->
  requireRoles jwt_verify findById [ROLES_SELLER; ROLES_ADMIN; ROLES_MODERATOR]
               authorization = Ok (Next user) ->
  plain (page user) = true -> truthy (page user) = true ->
  data (memoryCache w) !! ("cache:" ++ originalUrl req) = None ->
  (isOpen (redisClient w) = true ->
   r_live (now w) (server (redisClient w)) !! ("cache:" ++ originalUrl req) = None) ->
  belowCapacity (memoryCache w) ->
  now w <= n <= now w + 300 * 1000 ->
  let handler := fun u => counted (fun _ res => json res 200 (page u)) in
  let first := after (sellerProductsRoute jwt_verify findById p authorization
                                          handler req) w in
  let second := after (sellerProductsRoute jwt_verify findById p other
                                           handler req) (withNow first n) in
  lastSent (trace second) = Some (200, page user)
  /\ handlerRuns (trace second) = handlerRuns (trace first).
Proof.
  intros Hm Hauth Hp Ht Hk Hr Hb Hn handler first second.
  unfold sellerProductsRoute in first, second.
  destruct (miss_then_hit 300 200 n true req (page user) w
              (expressNext p req
                 (guarded jwt_verify findById
                    [ROLES_SELLER; ROLES_ADMIN; ROLES_MODERATOR]
                    authorization handler))
              (expressNext p req
                 (guarded jwt_verify findById
                    [ROLES_SELLER; ROLES_ADMIN; ROLES_MODERATOR]
                    other handler)))
    as [H1 H2]; try done; try lia.
  - intros res' w0 Hok. unfold expressNext, guarded, tryCatch, bind, liftOutcome.
    rewrite Hauth. unfold handler, counted.
    destruct (json res' 200 (page user) (emit HandlerRan w0)) as [[[]|e|code] w'];
      cbn [fst] in Hok; try discriminate. reflexivity.
  - fold first in H1, H2. fold second in H2. split.
    + rewrite H2. apply lastSent_snoc2.
    + rewrite H2, handlerRuns_app. cbn. lia.
Qed.

Lemma cache_answers_before_authentication_witness :
  let req := mkRequest "GET" "/api/v1/products/seller/my-products" in
  let handler := fun u => counted (fun _ res =>
                   json res 200 (JObj [("seller", prop "_id" u);
                                       ("products", JArr [])])) in
  let first := after (sellerProductsRoute sampleVerify sampleUsers sampleProcess
                        (Some "Bearer admin.token") handler req)
                     (freshWorld true) in
  let second := after (sellerProductsRoute sampleVerify sampleUsers sampleProcess
                         None handler req) (withNow first 1000) in
  lastSent (trace second)
  = Some (200, JObj [("seller", prop "_id" adminUser); ("products", JArr [])])
  /\ handlerRuns (trace second) = handlerRuns (trace first).
Proof.
  apply (cache_answers_before_authentication sampleVerify sampleUsers
           sampleProcess (mkRequest "GET" "/api/v1/products/seller/my-products")
           (Some "Bearer admin.token") None adminUser
           (fun u => JObj [("seller", prop "_id" u); ("products", JArr [])])
           (freshWorld true) 1000).
  - reflexivity.
  - reflexivity.
  - reflexivity.
  - reflexivity.
  - reflexivity.
  - intros _. reflexivity.
  - right. reflexivity.
  - split; discriminate.
Defined.

(** ** The product controller and its cache *)

(** Running a controller: the calls into the cache module stay folded. *)
Ltac run_calls tac :=
  repeat progress
    (autounfold with cache_run;
     cbn -[getCache setCache clearCacheByPattern clearAllCache express_json
           r_live nc_del deleteAll globMatch includes nc_keys nc_get nc_set
           written map_to_list String.append Z.min Z.mul Z.add Z.leb Z.ltb];
     tac).

Lemma getCache_miss_run (w : World) (key : string) (useRedis : bool) :
  data (memoryCache w) !! key = None ->
  (isOpen (redisClient w) = true ->
   r_live (now w) (server (redisClient w)) !! key = None) ->
  exists w0,
    getCache key useRedis w = (Ok JNull, w0)
    /\ data (memoryCache w0) = data (memoryCache w)
    /\ (belowCapacity (memoryCache w) -> belowCapacity (memoryCache w0))
    /\ now w0 = now w
    /\ isOpen (redisClient w0) = isOpen (redisClient w)
    /\ trace w0 = trace w.
Proof.
  intros Hk Hr. unfold getCache.
  destruct (useRedis && isOpen (redisClient w)) eqn:Eu.
  - apply andb_prop in Eu as [-> Hopen].
    run_rw ltac:(rewrite ?(nc_get_absent _ _ _ Hk), ?Hopen, ?(Hr Hopen)).
    eexists. split; [reflexivity|]. cbn.
    repeat split; try done; apply belowCapacity_bumpMisses.
  - run_rw ltac:(rewrite ?(nc_get_absent _ _ _ Hk), ?Eu).
    eexists. split; [reflexivity|]. cbn.
    repeat split; try done; apply belowCapacity_bumpMisses.
Qed.

Lemma setCache_run_below (w : World) (key : string) (x : jsval) (ttl : Z)
    (useRedis : bool) :
  0 < ttl -> belowCapacity (memoryCache w) ->
  exists w1,
    setCache key x ttl useRedis w = (Ok JUndefined, w1)
    /\ data (memoryCache w1) !! key
       = Some (mkEntry (now w + Z.min ttl 300 * 1000) x)
    /\ now w1 = now w
    /\ isOpen (redisClient w1) = isOpen (redisClient w).
Proof.
  intros Httl Hb.
  destruct (nc_set_below (now w) key x (Z.min ttl 300) (memoryCache w) Hb)
    as (c' & E & Hd & _ & _).
  assert (Hw : _wrap (now w) x (Z.min ttl 300)
               = mkEntry (now w + Z.min ttl 300 * 1000) x).
  { unfold _wrap. replace (Z.min ttl 300 =? 0) with false; [done|].
    symmetry. apply Z.eqb_neq. lia. }
  assert (Hle : (ttl <=? 0) = false) by (apply Z.leb_gt; lia).
  unfold setCache.
  destruct (useRedis && isOpen (redisClient w)) eqn:Eu.
  - apply andb_prop in Eu as [-> Hopen].
    destruct x; run_rw ltac:(rewrite ?E, ?Hopen, ?Hle);
      (eexists; split; [reflexivity|]; cbn;
       rewrite Hd, Hw, lookup_insert_eq; done).
  - run_rw ltac:(rewrite ?E, ?Eu).
    eexists. split; [reflexivity|]. cbn.
    rewrite Hd, Hw, lookup_insert_eq. done.
Qed.

(** The router calls [getProductById] without a receiver, so the method
    cannot reach [this.updateProductViews].  A product that is in the
    database and not yet in the cache is stored in the cache and the
    request is then answered through [ApiResponse.error], with the message
    of the TypeError; a repeat within 300 s finds the product in the cache
    and is answered through [ApiResponse.success]. *)
Theorem product_by_id_fails_on_first_fetch
    (successEnvelope : jsval -> Z * jsval)
    (errorEnvelope : string -> option Z -> Z * jsval)
    (ObjectId_isValid : string -> bool) (idString : jsval -> string)
    (findBySlug findOne : string -> outcome jsval) (p : ProcessInfo)
    (id : string) (product : jsval) (res : Response) (w : World) :
  let route := productByIdRoute successEnvelope errorEnvelope ObjectId_isValid
                                idString true findBySlug findOne p id res in
  json res = express_json ->
  String.eqb id EmptyString || String.eqb id "undefined" || String.eqb id "null"
  = false ->
  ObjectId_isValid id = true ->
  findOne id = Ok product -> truthy product = true ->
  data (memoryCache w) !! ("product:" ++ id) = None ->
  (isOpen (redisClient w) = true ->
   r_live (now w) (server (redisClient w)) !! ("product:" ++ id) = None) ->
  belowCapacity (memoryCache w) ->
  (exists w1,
     route w = ApiResponse_error errorEnvelope res
                 ("Failed to fetch product: " ++ messageOf p TypeError) None w1
     /\ data (memoryCache w1) !! ("product:" ++ id)
        = Some (mkEntry (now w + 300 * 1000) product))
  /\ forall n, now w <= n <= now w + 300 * 1000 ->
       exists w2,
         route (withNow (after route w) n)
         = ApiResponse_success successEnvelope res product w2.
Proof.
  intros route Hj Hid Hvalid Hfind Ht Hk Hr Hb.
  destruct (getCache_miss_run w ("product:" ++ id) true Hk Hr)
    as (w0 & Eg & Hd0 & Hb0 & Hn0 & Ho0 & Htr0).
  destruct (setCache_run_below w0 ("product:" ++ id) product 600 true)
    as (w1 & Es & Hd1 & Hn1 & Ho1); [lia|by apply Hb0|].
  assert (Hfirst : route w
                   = ApiResponse_error errorEnvelope res
                       ("Failed to fetch product: " ++ messageOf p TypeError)
                       None w1).
  { unfold route, productByIdRoute, getProductById.
    rewrite Hid, Hvalid.
    run_calls ltac:(rewrite ?Eg, ?Hfind, ?Ht, ?Es). reflexivity. }
  split.
  - exists w1. split; [exact Hfirst|]. rewrite Hd1, Hn0.
    replace (Z.min 600 300) with 300 by reflexivity. reflexivity.
  - intros n Hn. unfold after. rewrite Hfirst.
    unfold ApiResponse_error at 1. rewrite Hj. unfold express_json at 1.
    cbn [snd].
    match goal with
    | |- context [route ?w2] =>
        assert (Hhit : getCache ("product:" ++ id) true w2
                       = (Ok product, withMemory w2 (bumpHits (memoryCache w2))))
    end.
    { rewrite (getCache_memory_hit ("product:" ++ id) true _
                 (mkEntry (now w + 300 * 1000) product)).
      - reflexivity.
      - cbn [memoryCache withNow emit]. rewrite Hd1, Hn0. reflexivity.
      - right. cbn. lia.
      - exact Ht. }
    eexists. unfold route, productByIdRoute, getProductById.
    rewrite Hid, Hvalid. unfold ApiResponse_success. rewrite Hj.
    run_calls ltac:(rewrite ?Hhit, ?Ht). unfold express_json. reflexivity.
Qed.

Lemma product_by_id_fails_on_first_fetch_witness :
  let route := productByIdRoute sampleSuccess sampleFailure sampleIsValid
                 sampleIdString true sampleFindBySlug sampleFindOne
                 sampleProcess "64b7f0c2a1d3e4f5a6b7c8d9" freshResponse in
  (exists w1,
     route (freshWorld true)
     = ApiResponse_error sampleFailure freshResponse
         ("Failed to fetch product: " ++ messageOf sampleProcess TypeError)
         None w1
     /\ data (memoryCache w1) !! ("product:" ++ "64b7f0c2a1d3e4f5a6b7c8d9")
        = Some (mkEntry (now (freshWorld true) + 300 * 1000) sampleProduct))
  /\ forall n, now (freshWorld true) <= n <= now (freshWorld true) + 300 * 1000 ->
       exists w2,
         route (withNow (after route (freshWorld true)) n)
         = ApiResponse_success sampleSuccess freshResponse sampleProduct w2.
Proof.
  apply (product_by_id_fails_on_first_fetch sampleSuccess sampleFailure
           sampleIsValid sampleIdString sampleFindBySlug sampleFindOne
           sampleProcess "64b7f0c2a1d3e4f5a6b7c8d9" sampleProduct freshResponse
           (freshWorld true)).
  - reflexivity.
  - reflexivity.
  - reflexivity.
  - reflexivity.
  - reflexivity.
  - reflexivity.
  - intros _. reflexivity.
  - right. reflexivity.
Defined.

Lemma includes_refl (s : string) : includes s s = true.
Proof.
  apply includes_spec. exists EmptyString, EmptyString.
  by rewrite append_empty_r.
Qed.

(** Called with its receiver, [getProductById] undoes its own caching: the
    view update that it starts clears the pattern [product:<id>], which is
    the key that the request has just written.  When the product carries
    the identifier that was asked for, the key is a miss again as soon as
    the view update is through. *)
Theorem getProductById_clears_what_it_cached
    (successEnvelope : jsval -> Z * jsval)
    (errorEnvelope : string -> option Z -> Z * jsval)
    (ObjectId_isValid : string -> bool) (idString : jsval -> string)
    (findBySlug findOne : string -> outcome jsval)
    (updateOne : string -> outcome unit) (p : ProcessInfo)
    (id : string) (product : jsval) (res : Response) (w : World)
    (useRedis : bool) :
  let this := Some (updateProductViews true updateOne) in
  let method := getProductById successEnvelope errorEnvelope ObjectId_isValid
                               idString true findBySlug findOne p this id res in
  json res = express_json ->
  String.eqb id EmptyString || String.eqb id "undefined" || String.eqb id "null"
  = false ->
  ObjectId_isValid id = true ->
  findOne id = Ok product -> truthy product = true ->
  idString product = id -> updateOne id = Ok tt ->
  globFree ("product:" ++ id) = true ->
  data (memoryCache w) !! ("product:" ++ id) = None ->
  (isOpen (redisClient w) = true ->
   r_live (now w) (server (redisClient w)) !! ("product:" ++ id) = None) ->
  belowCapacity (memoryCache w) ->
  (exists w1,
     method w
     = (Ok tt,
        after (clearCacheByPattern ("product:" ++ id))
              (after (ApiResponse_success successEnvelope res product) w1)))
  /\ fst (getCache ("product:" ++ id) useRedis (after method w)) = Ok JNull.
Proof.
  intros this method Hj Hid Hvalid Hfind Ht Hids Hupd Hfree Hk Hr Hb.
  destruct (getCache_miss_run w ("product:" ++ id) true Hk Hr)
    as (w0 & Eg & Hd0 & Hb0 & Hn0 & Ho0 & Htr0).
  destruct (setCache_run_below w0 ("product:" ++ id) product 600 true)
    as (w1 & Es & Hd1 & Hn1 & Ho1); [lia|by apply Hb0|].
  set (sent := after (ApiResponse_success successEnvelope res product) w1).
  assert (Hrun : method w
                 = (Ok tt, after (clearCacheByPattern ("product:" ++ id)) sent)).
  { pose proof (clearCacheByPattern_returns ("product:" ++ id) sent) as Hret.
    unfold after. unfold after in sent.
    destruct (clearCacheByPattern ("product:" ++ id) sent) as [r w4] eqn:Ec.
    cbn [fst] in Hret. subst r. subst sent.
    unfold method, this, getProductById, updateProductViews.
    unfold ApiResponse_success in *.
    rewrite Hid, Hvalid. rewrite Hj in *. unfold express_json in *.
    cbn [snd] in Ec.
    run_calls ltac:(rewrite ?Eg, ?Hfind, ?Ht, ?Es, ?Hids, ?Hupd, ?Ec).
    reflexivity. }
  split; [exists w1; exact Hrun|].
  unfold after in *. rewrite Hrun. cbn [snd].
  destruct (clearCacheByPattern_goneFrom ("product:" ++ id) ("product:" ++ id)
              sent Hfree (includes_refl _)) as [Hm Hg].
  apply getCache_absent; [exact Hm|].
  destruct (isOpen (redisClient sent)) eqn:Hopen.
  - intros _. by apply r_live_None.
  - unfold after in Hg. rewrite Hg. congruence.
Qed.

Lemma getProductById_clears_what_it_cached_witness :
  let this := Some (updateProductViews true (fun _ => Ok tt)) in
  let method := getProductById sampleSuccess sampleFailure sampleIsValid
                  sampleIdString true sampleFindBySlug sampleFindOne
                  sampleProcess this "64b7f0c2a1d3e4f5a6b7c8d9" freshResponse in
  (exists w1,
     method (freshWorld true)
     = (Ok tt,
        after (clearCacheByPattern ("product:" ++ "64b7f0c2a1d3e4f5a6b7c8d9"))
              (after (ApiResponse_success sampleSuccess freshResponse
                                          sampleProduct) w1)))
  /\ fst (getCache ("product:" ++ "64b7f0c2a1d3e4f5a6b7c8d9") true
                   (after method (freshWorld true))) = Ok JNull.
Proof.
  apply (getProductById_clears_what_it_cached sampleSuccess sampleFailure
           sampleIsValid sampleIdString sampleFindBySlug sampleFindOne
           (fun _ => Ok tt) sampleProcess "64b7f0c2a1d3e4f5a6b7c8d9"
           sampleProduct freshResponse (freshWorld true) true).
  - reflexivity.
  - reflexivity.
  - reflexivity.
  - reflexivity.
  - reflexivity.
  - reflexivity.
  - reflexivity.
  - reflexivity.
  - reflexivity.
  - intros _. reflexivity.
  - right. reflexivity.
Defined.

(** [getPopularProducts] is a cache-aside read: the list that the database
    returned, also an empty one, is what every request with the same limit
    is answered with for the next 300 s, whatever the database holds or
    does by then; the database is not asked. *)
Theorem popular_products_are_served_from_the_cache
    (successEnvelope : jsval -> Z * jsval)
    (errorEnvelope : string -> option Z -> Z * jsval)
    (findPopular findPopular' : string -> outcome jsval)
    (productsCollection' : bool) (p : ProcessInfo)
    (limit : string) (items : list jsval) (res : Response) (w : World) (n : Z) :
  let first := getPopularProducts successEnvelope errorEnvelope true
                                  findPopular p limit res in
  let second := getPopularProducts successEnvelope errorEnvelope
                                   productsCollection' findPopular' p limit res in
  json res = express_json ->
  findPopular limit = Ok (JArr items) ->
  data (memoryCache w) !! ("popular_products:" ++ limit) = None ->
  (isOpen (redisClient w) = true ->
   r_live (now w) (server (redisClient w)) !! ("popular_products:" ++ limit)
   = None) ->
  belowCapacity (memoryCache w) ->
  now w <= n <= now w + 300 * 1000 ->
  (exists w1, first w = ApiResponse_success successEnvelope res (JArr items) w1)
  /\ exists w2,
       second (withNow (after first w) n)
       = ApiResponse_success successEnvelope res (JArr items) w2.
Proof.
  intros first second Hj Hfind Hk Hr Hb Hn.
  destruct (getCache_miss_run w ("popular_products:" ++ limit) true Hk Hr)
    as (w0 & Eg & Hd0 & Hb0 & Hn0 & Ho0 & Htr0).
  destruct (setCache_run_below w0 ("popular_products:" ++ limit) (JArr items)
              600 true) as (w1 & Es & Hd1 & Hn1 & Ho1); [lia|by apply Hb0|].
  assert (Hfirst : first w
                   = ApiResponse_success successEnvelope res (JArr items) w1).
  { unfold first, getPopularProducts, ApiResponse_success.
    rewrite Hj. unfold express_json.
    run_calls ltac:(rewrite ?Eg, ?Hfind, ?Es). reflexivity. }
  split; [exists w1; exact Hfirst|].
  unfold after. rewrite Hfirst.
  unfold ApiResponse_success at 1. rewrite Hj. unfold express_json at 1.
  cbn [snd].
  match goal with
  | |- context [second ?w2] =>
      assert (Hhit : getCache ("popular_products:" ++ limit) true w2
                     = (Ok (JArr items),
                        withMemory w2 (bumpHits (memoryCache w2))))
  end.
  { rewrite (getCache_memory_hit ("popular_products:" ++ limit) true _
               (mkEntry (now w + 300 * 1000) (JArr items))).
    - reflexivity.
    - cbn [memoryCache withNow emit]. rewrite Hd1, Hn0. reflexivity.
    - right. cbn. lia.
    - reflexivity. }
  match type of Hhit with
  | _ = (_, ?w3) => exists w3
  end.
  unfold second, getPopularProducts, ApiResponse_success.
  rewrite Hj. unfold express_json.
  run_calls ltac:(rewrite ?Hhit). reflexivity.
Qed.

Lemma popular_products_are_served_from_the_cache_witness :
  let first := getPopularProducts sampleSuccess sampleFailure true
                 (fun _ => Ok (JArr [])) sampleProcess "10" freshResponse in
  let second := getPopularProducts sampleSuccess sampleFailure false
                  (fun _ => Throw MongoError) sampleProcess "10" freshResponse in
  (exists w1,
     first (freshWorld true)
     = ApiResponse_success sampleSuccess freshResponse (JArr []) w1)
  /\ exists w2,
       second (withNow (after first (freshWorld true)) 299000)
       = ApiResponse_success sampleSuccess freshResponse (JArr []) w2.
Proof.
  apply (popular_products_are_served_from_the_cache sampleSuccess sampleFailure
           (fun _ => Ok (JArr [])) (fun _ => Throw MongoError) false
           sampleProcess "10" [] freshResponse (freshWorld true) 299000).
  - reflexivity.
  - reflexivity.
  - reflexivity.
  - intros _. reflexivity.
  - right. reflexivity.
  - split; discriminate.
Defined.

(** ** Uploads *)

(** Every file is stored in a directory that [createUploadDirs] has made
    sure of, whatever its type and field name. *)
Theorem destination_is_a_created_directory (file : File) :
  In (destination file) directories.
Proof.
  unfold destination, directories.
  destruct (String.eqb (mimetype file) "application/pdf");
    [cbn [In]; tauto|].
  destruct (includes (fieldname file) "product"); [cbn [In]; tauto|].
  destruct (includes (fieldname file) "blog"); [cbn [In]; tauto|].
  destruct (includes (fieldname file) "banner"); cbn [In]; tauto.
Qed.

(** The combined filter lets in exactly the files that the image filter or
    the PDF filter lets in, and each file that the PDF filter lets in is
    stored under [uploads/pdfs]. *)
Theorem mixedFilter_is_the_union (file : File) :
  (mixedFilter file = Accepted
   <-> imageFilter file = Accepted \/ pdfFilter file = Accepted)
  /\ (pdfFilter file = Accepted -> destination file = "uploads/pdfs").
Proof.
  unfold mixedFilter, imageFilter, pdfFilter, destination.
  rewrite existsb_app. cbn [existsb]. rewrite orb_false_r.
  destruct (existsb (String.eqb (mimetype file)) ALLOWED_IMAGE_TYPES),
    (String.eqb (mimetype file) "application/pdf"); cbn [orb];
    (split; [split; [intros H; try discriminate; tauto
                    |intros [H|H]; try discriminate; reflexivity]
            |intros H; try discriminate; reflexivity]).
Qed.

(** What a file filter rejects is answered 400 with the filter's message:
    each rejection carries a message with ["Only"] in it, which is what
    [handleMulterError] looks for in an error that is not multer's own. *)
Theorem filter_rejections_are_answered_400 (file : File) (message : string) :
  imageFilter file = Rejected message \/ pdfFilter file = Rejected message
  \/ mixedFilter file = Rejected message ->
  handleUploadError (OtherError message) = Some (400, message).
Proof.
  unfold imageFilter, pdfFilter, mixedFilter.
  intros [H|[H|H]];
    match type of H with
    | (if ?b then _ else _) = _ => destruct b; [discriminate|]
    end;
    injection H as <-; reflexivity.
Qed.

Lemma filter_rejections_are_answered_400_witness :
  (imageFilter (mkFile "image/gif" "productImage" "a.gif")
   = Rejected "Only image files (JPEG, JPG, PNG, WEBP) are allowed!"
   \/ pdfFilter (mkFile "image/gif" "productImage" "a.gif")
      = Rejected "Only image files (JPEG, JPG, PNG, WEBP) are allowed!"
   \/ mixedFilter (mkFile "image/gif" "productImage" "a.gif")
      = Rejected "Only image files (JPEG, JPG, PNG, WEBP) are allowed!")
  /\ handleUploadError
       (OtherError "Only image files (JPEG, JPG, PNG, WEBP) are allowed!")
     = Some (400, "Only image files (JPEG, JPG, PNG, WEBP) are allowed!").
Proof.
  assert (H : imageFilter (mkFile "image/gif" "productImage" "a.gif")
              = Rejected "Only image files (JPEG, JPG, PNG, WEBP) are allowed!")
    by reflexivity.
  split; [left; exact H|].
  apply (filter_rejections_are_answered_400
           (mkFile "image/gif" "productImage" "a.gif")).
  left. exact H.
Defined.

(** ** Slugs *)

Ltac each_char c := destruct c as [[] [] [] [] [] [] [] []].

Lemma lower_fixes_slug_chars (c : ascii) :
  isDash c || isSlugChar c = true -> lower c = c.
Proof. each_char c; intros H; try reflexivity; discriminate H. Qed.

Lemma slug_char_is_kept (c : ascii) :
  isDash c || isSlugChar c = true -> isWord c || isSpace c || isDash c = true.
Proof. each_char c; intros H; try reflexivity; discriminate H. Qed.

Lemma slug_char_is_no_space (c : ascii) :
  isDash c || isSlugChar c = true -> isSpace c = false.
Proof. each_char c; intros H; try reflexivity; discriminate H. Qed.

Lemma slug_char_or_separator (c : ascii) :
  isDash c || isSlugChar c = true ->
  isSpace c || Ascii.eqb c "_" || isDash c = isDash c.
Proof. each_char c; intros H; try reflexivity; discriminate H. Qed.

(** What is left of a lower-cased character that the filter keeps and that
    is no separator. *)
Lemma kept_word_char (c : ascii) :
  isWord (lower c) || isSpace (lower c) || isDash (lower c) = true ->
  isSpace (lower c) || Ascii.eqb (lower c) "_" || isDash (lower c) = false ->
  isSlugChar (lower c) = true /\ isDash (lower c) = false.
Proof. each_char c; intros H1 H2; try discriminate; split; reflexivity. Qed.

Lemma allChars_impl (f g : ascii -> bool) (s : string) :
  (forall c, f c = true -> g c = true) ->
  allChars f s = true -> allChars g s = true.
Proof.
  intros Hfg. induction s as [|c s IH]; [done|]. cbn [allChars].
  rewrite !andb_true_iff. intros [Hc Hs]. split; [by apply Hfg|by apply IH].
Qed.

Lemma allChars_toLowerCase (f : ascii -> bool) (s : string) :
  allChars (fun c => f (lower c)) s = allChars f (toLowerCase s).
Proof.
  induction s as [|c s IH]; [done|]. cbn [allChars toLowerCase]. by rewrite IH.
Qed.

Lemma allChars_dropWhile (f g : ascii -> bool) (s : string) :
  allChars f s = true -> allChars f (dropWhile g s) = true.
Proof.
  induction s as [|c s IH]; [done|]. cbn [allChars dropWhile].
  intros H. destruct (g c); [|exact H].
  apply andb_true_iff in H as [_ H]. by apply IH.
Qed.

Lemma allChars_dropWhileEnd (f g : ascii -> bool) (s : string) :
  allChars f s = true -> allChars f (dropWhileEnd g s) = true.
Proof.
  induction s as [|c s IH]; [done|]. cbn [allChars dropWhileEnd].
  intros H. apply andb_true_iff in H as [Hc Hs]. specialize (IH Hs).
  destruct (dropWhileEnd g s) as [|d r].
  - destruct (g c); [done|]. cbn [allChars]. by rewrite Hc.
  - cbn [allChars] in *. by rewrite Hc, IH.
Qed.

Lemma allChars_keep (f g : ascii -> bool) (s : string) :
  allChars f s = true -> allChars (fun c => f c && g c) (keep g s) = true.
Proof.
  induction s as [|c s IH]; [done|]. cbn [allChars keep].
  intros H. apply andb_true_iff in H as [Hc Hs].
  destruct (g c) eqn:Hg; [|by apply IH].
  cbn [allChars]. by rewrite Hc, Hg, IH.
Qed.

Lemma allChars_true (s : string) : allChars (fun _ => true) s = true.
Proof. induction s as [|c s IH]; [done|]. exact IH. Qed.

(** The separators of the text become hyphens, the other characters stay. *)
Lemma allChars_hyphenate (b : bool) (s : string) :
  allChars (fun c => isWord c || isSpace c || isDash c) s = true ->
  allChars (fun c => Ascii.eqb (lower c) c) s = true ->
  allChars (fun c => isDash c || isSlugChar c) (hyphenate b s) = true.
Proof.
  revert b. induction s as [|c s IH]; intros b; [done|].
  cbn [allChars hyphenate]. rewrite !andb_true_iff.
  intros [Hk Hs] [Hl Hls]. apply Ascii.eqb_eq in Hl.
  destruct (isSpace c || Ascii.eqb c "_" || isDash c) eqn:Hsep.
  - destruct b; [by apply IH|]. cbn [allChars]. by rewrite IH.
  - rewrite <- Hl in Hk, Hsep.
    destruct (kept_word_char c Hk Hsep) as [Hsl _]. rewrite Hl in Hsl.
    cbn [allChars]. rewrite Hsl, orb_true_r. by rewrite IH.
Qed.

Lemma lower_idem (c : ascii) : Ascii.eqb (lower (lower c)) (lower c) = true.
Proof. each_char c; reflexivity. Qed.

Lemma hyphenate_head (s : string) :
  headIs isDash (hyphenate true s) = false.
Proof.
  induction s as [|c s IH]; [done|]. cbn [hyphenate].
  destruct (isSpace c || Ascii.eqb c "_" || isDash c) eqn:Hsep; [exact IH|].
  cbn [headIs]. apply orb_false_iff in Hsep as [_ H]. exact H.
Qed.

Lemma noDoubleDash_hyphenate (b : bool) (s : string) :
  noDoubleDash (hyphenate b s) = true.
Proof.
  revert b. induction s as [|c s IH]; intros b; [done|]. cbn [hyphenate].
  destruct (isSpace c || Ascii.eqb c "_" || isDash c) eqn:Hsep.
  - destruct b; [apply IH|]. cbn [noDoubleDash].
    rewrite hyphenate_head, andb_false_r. cbn [negb andb]. apply IH.
  - cbn [noDoubleDash]. apply orb_false_iff in Hsep as [_ H]. rewrite H.
    cbn [negb andb]. apply IH.
Qed.

Lemma noDoubleDash_dropWhile (g : ascii -> bool) (s : string) :
  noDoubleDash s = true -> noDoubleDash (dropWhile g s) = true.
Proof.
  induction s as [|c s IH]; [done|]. cbn [dropWhile]. intros H.
  destruct (g c); [|exact H]. cbn [noDoubleDash] in H.
  apply andb_true_iff in H as [_ H]. by apply IH.
Qed.

Lemma headIs_dropWhileEnd (f g : ascii -> bool) (s : string) :
  headIs f (dropWhileEnd g s) = true -> headIs f s = true.
Proof.
  destruct s as [|c s]; [done|]. cbn [dropWhileEnd].
  destruct (dropWhileEnd g s); [destruct (g c)|]; done.
Qed.

Lemma noDoubleDash_dropWhileEnd (g : ascii -> bool) (s : string) :
  noDoubleDash s = true -> noDoubleDash (dropWhileEnd g s) = true.
Proof.
  induction s as [|c s IH]; [done|]. cbn [noDoubleDash dropWhileEnd].
  intros H. apply andb_true_iff in H as [Hc Hs]. specialize (IH Hs).
  destruct (dropWhileEnd g s) as [|d r] eqn:E.
  - destruct (g c); [done|]. cbn. by rewrite andb_false_r.
  - change (negb (isDash c && headIs isDash (String d r))
            && noDoubleDash (String d r) = true).
    rewrite IH, andb_true_r. cbn [headIs].
    destruct (isDash c) eqn:Hd; [|done].
    destruct (isDash d) eqn:Hdd; [|done].
    assert (Hh : headIs isDash s = true).
    { apply (headIs_dropWhileEnd isDash g). by rewrite E. }
    by rewrite Hh in Hc.
Qed.

Lemma headIs_dropWhile (f : ascii -> bool) (s : string) :
  headIs f (dropWhile f s) = false.
Proof.
  induction s as [|c s IH]; [done|]. cbn [dropWhile].
  destruct (f c) eqn:E; [exact IH|]. exact E.
Qed.

Lemma lastIs_dropWhileEnd (f : ascii -> bool) (s : string) :
  lastIs f (dropWhileEnd f s) = false.
Proof.
  induction s as [|c s IH]; [done|]. cbn [dropWhileEnd].
  destruct (dropWhileEnd f s) as [|d r].
  - destruct (f c) eqn:E; [done|]. exact E.
  - exact IH.
Qed.

Lemma dropWhileEnd_id (f : ascii -> bool) (s : string) :
  lastIs f s = false -> dropWhileEnd f s = s.
Proof.
  induction s as [|c s IH]; [done|]. cbn [dropWhileEnd].
  destruct s as [|d r].
  - cbn [lastIs dropWhileEnd]. by intros ->.
  - intros H. rewrite IH by exact H. reflexivity.
Qed.

Lemma dropWhile_id (f : ascii -> bool) (s : string) :
  headIs f s = false -> dropWhile f s = s.
Proof. destruct s as [|c s]; [done|]. cbn. by intros ->. Qed.

Lemma lastIs_none (f g : ascii -> bool) (s : string) :
  (forall c, g c = true -> f c = false) ->
  allChars g s = true -> lastIs f s = false.
Proof.
  intros Hgf. induction s as [|c s IH]; [done|].
  cbn [allChars]. rewrite andb_true_iff. intros [Hc Hs].
  destruct s as [|d r]; [by apply Hgf|]. by apply IH.
Qed.

Lemma headIs_none (f g : ascii -> bool) (s : string) :
  (forall c, g c = true -> f c = false) ->
  allChars g s = true -> headIs f s = false.
Proof.
  intros Hgf. destruct s as [|c s]; [done|].
  cbn [allChars]. rewrite andb_true_iff. intros [Hc _]. by apply Hgf.
Qed.

Lemma toLowerCase_id (s : string) :
  allChars (fun c => isDash c || isSlugChar c) s = true -> toLowerCase s = s.
Proof.
  induction s as [|c s IH]; [done|]. cbn [allChars toLowerCase].
  rewrite andb_true_iff. intros [Hc Hs].
  by rewrite (lower_fixes_slug_chars c Hc), IH.
Qed.

Lemma keep_id (f : ascii -> bool) (s : string) :
  allChars f s = true -> keep f s = s.
Proof.
  induction s as [|c s IH]; [done|]. cbn [allChars keep].
  rewrite andb_true_iff. intros [Hc Hs]. by rewrite Hc, IH.
Qed.

Lemma hyphenate_id (b : bool) (s : string) :
  allChars (fun c => isDash c || isSlugChar c) s = true ->
  noDoubleDash s = true ->
  (b = true -> headIs isDash s = false) ->
  hyphenate b s = s.
Proof.
  revert b. induction s as [|c s IH]; intros b; [done|].
  cbn [allChars noDoubleDash hyphenate]. rewrite !andb_true_iff.
  intros [Hc Hs] [Hdd Hn] Hb.
  rewrite (slug_char_or_separator c Hc).
  destruct (isDash c) eqn:Hd.
  - destruct b;
      [specialize (Hb eq_refl); cbn [headIs] in Hb; congruence|].
    apply Ascii.eqb_eq in Hd. subst c.
    rewrite (IH true Hs Hn); [reflexivity|].
    intros _. cbn [andb negb isDash] in Hdd.
    by destruct (headIs isDash s).
  - by rewrite (IH false Hs Hn).
Qed.

(** A slug is in its final form: lower-case letters, digits and single
    hyphens between them, and making a slug of it again gives it back. *)
Theorem generateSlug_is_idempotent (text : string) :
  isAscii text = true ->
  exists slug,
    generateSlug (JStr text) = Ok slug
    /\ slugShape slug = true
    /\ generateSlug (JStr slug) = Ok slug.
Proof.
  intros _. eexists. split; [reflexivity|].
  set (kept := keep (fun c => isWord c || isSpace c || isDash c)
                    (trim (toLowerCase text))).
  set (joined := hyphenate false kept).
  set (slug := dropWhileEnd isDash (dropWhile isDash joined)).
  assert (Hkept : allChars (fun c => isWord c || isSpace c || isDash c) kept
                  = true
                  /\ allChars (fun c => Ascii.eqb (lower c) c) kept = true).
  { assert (Hl : allChars (fun c => Ascii.eqb (lower c) c)
                          (trim (toLowerCase text)) = true).
    { unfold trim. apply allChars_dropWhileEnd, allChars_dropWhile.
      rewrite <- allChars_toLowerCase.
      apply (allChars_impl (fun _ => true)); [|apply allChars_true].
      intros c _. apply lower_idem. }
    split.
    - apply (allChars_impl
               (fun c => true && (isWord c || isSpace c || isDash c)));
        [intros c H; exact H|].
      apply (allChars_keep (fun _ => true)), allChars_true.
    - apply (allChars_impl
               (fun c => Ascii.eqb (lower c) c
                         && (isWord c || isSpace c || isDash c))).
      + intros c H. by apply andb_true_iff in H as [H _].
      + by apply allChars_keep. }
  destruct Hkept as [Hk Hl].
  assert (Hchars : allChars (fun c => isDash c || isSlugChar c) slug = true).
  { apply allChars_dropWhileEnd, allChars_dropWhile.
    by apply allChars_hyphenate. }
  assert (Hnd : noDoubleDash slug = true).
  { apply noDoubleDash_dropWhileEnd, noDoubleDash_dropWhile,
      noDoubleDash_hyphenate. }
  assert (Hlast : lastIs isDash slug = false) by apply lastIs_dropWhileEnd.
  assert (Hhead : headIs isDash slug = false).
  { destruct (headIs isDash slug) eqn:E; [|done].
    apply headIs_dropWhileEnd in E. by rewrite headIs_dropWhile in E. }
  split.
  - unfold slugShape. by rewrite Hchars, Hnd, Hhead, Hlast.
  - cbn [generateSlug]. f_equal.
    rewrite (toLowerCase_id slug Hchars).
    assert (Htrim : trim slug = slug).
    { unfold trim. rewrite dropWhile_id, dropWhileEnd_id; [reflexivity| |].
      - apply (lastIs_none _ (fun c => isDash c || isSlugChar c));
          [apply slug_char_is_no_space|exact Hchars].
      - apply (headIs_none _ (fun c => isDash c || isSlugChar c));
          [apply slug_char_is_no_space|exact Hchars]. }
    rewrite Htrim.
    rewrite (keep_id _ slug); [|by apply (allChars_impl _ _ _ slug_char_is_kept)].
    rewrite (hyphenate_id false slug Hchars Hnd) by done.
    rewrite (dropWhile_id _ _ Hhead). by apply dropWhileEnd_id.
Qed.

Lemma generateSlug_is_idempotent_witness :
  isAscii "  Men's Cotton_T-Shirt -- 2024!  " = true
  /\ exists slug,
       generateSlug (JStr "  Men's Cotton_T-Shirt -- 2024!  ") = Ok slug
       /\ slugShape slug = true
       /\ generateSlug (JStr slug) = Ok slug.
Proof.
  split; [reflexivity|].
  apply (generateSlug_is_idempotent "  Men's Cotton_T-Shirt -- 2024!  ").
  reflexivity.
Defined.

(** ** Shutting down *)

#[local] Hint Unfold redisClient_quit : cache_run.

Lemma onUnhandledRejection_closed (rounds : nat) (w : World) :
  isOpen (redisClient w) = false ->
  onUnhandledRejection rounds w = (None, w).
Proof.
  intros Hopen. induction rounds as [|rounds IH]; [reflexivity|].
  cbn [onUnhandledRejection]. run_with Hopen.
  destruct w as [n m r d tr]. destruct r as [o re sv]. cbn in Hopen. subst o.
  exact IH.
Qed.

(** Once the client of the cache module is closed the process cannot shut
    itself down.  On SIGTERM the memory tier is flushed, [quit()] rejects,
    and from then on the listener of ['unhandledRejection'] is re-entered by
    its own rejection: however many rounds are followed, neither the server
    is closed nor the process exited.  An uncaught exception ends in the same
    loop.  With the client open, SIGTERM closes it and leaves the
    distributed tier as it is. *)
Theorem shutdown_hangs_on_a_closed_client (rounds : nat) (w : World) :
  (isOpen (redisClient w) = false ->
   fst (onSIGTERM rounds w) = None
   /\ data (memoryCache (snd (onSIGTERM rounds w))) = ∅
   /\ fst (onUncaughtException rounds w) = None)
  /\ (isOpen (redisClient w) = true ->
      fst (onSIGTERM rounds w) = Some (Ok tt)
      /\ data (memoryCache (snd (onSIGTERM rounds w))) = ∅
      /\ isOpen (redisClient (snd (onSIGTERM rounds w))) = false
      /\ server (redisClient (snd (onSIGTERM rounds w)))
         = server (redisClient w)).
Proof.
  split; intros Hopen.
  - unfold onSIGTERM, onUncaughtException. run_with Hopen.
    rewrite !onUnhandledRejection_closed by (cbn; by rewrite ?Hopen).
    cbn. split; [reflexivity|]. split; [reflexivity|].
    destruct w as [n m r d tr]. destruct r as [o re sv]. cbn in *. by subst o.
  - unfold onSIGTERM. run_with Hopen. done.
Qed.

Lemma shutdown_hangs_on_a_closed_client_witness :
  isOpen (redisClient (redisEnd threeKeys)) = false
  /\ fst (onSIGTERM 100 (redisEnd threeKeys)) = None
  /\ data (memoryCache (snd (onSIGTERM 100 (redisEnd threeKeys)))) = ∅
  /\ fst (onUncaughtException 100 (redisEnd threeKeys)) = None.
Proof.
  split; [reflexivity|].
  apply (proj1 (shutdown_hangs_on_a_closed_client 100 (redisEnd threeKeys))).
  reflexivity.
Defined.
